(** * snekbox: file attachments (snekio.py) and the tmpfs temp directory (memfs.py)

    A shallow embedding of the two modules of the repository and the
    theorems that settle what they do.  Python values are modelled as the
    interpreter has them: [str] is a sequence of code points, [bytes] a
    sequence of bytes, a [dict] a finite map, a [set] a finite set, and an
    exception is a class with its message.  Code that can raise returns a
    [result]; code that touches the file system, the name pool or the
    instance threads a state through an exception-and-state monad. *)

From Stdlib Require Import NArith ZArith Lia List.
From Stdlib.Strings Require Import Ascii String Byte.
From stdpp Require Import base option list gmap sets strings.

Local Open Scope N_scope.

(** ** Python values *)

(** A [str] is a sequence of Unicode code points. *)
Definition codepoint := N.
Definition str := list codepoint.

(** The literal of the source, written as a Rocq string of ASCII characters. *)
Definition lit (s : string) : str :=
  N_of_ascii <$> list_ascii_of_string s.

Definition bytes := list byte.

Definition byte_of_N (n : N) : byte :=
  default x00 (Byte.of_N (n mod 256)).

Definition blit (s : string) : bytes :=
  byte_of_ascii <$> list_ascii_of_string s.

#[global] Instance byte_eq_dec : EqDecision byte := Byte.byte_eq_dec.

(** ** Exceptions *)

Inductive exn_class :=
| BaseException | Exception
| LookupError | KeyError | IndexError
| TypeError | AttributeError | RuntimeError
| ValueError | UnicodeError | UnicodeEncodeError | UnicodeDecodeError
| binascii_Error
| OSError | FileExistsError | FileNotFoundError | IsADirectoryError
| NotADirectoryError | PermissionError
| SubprocessError | CalledProcessError
  (* snekio.py *)
| AttachmentError | ParsingError | IllegalPathError.

#[global] Instance exn_class_eq_dec : EqDecision exn_class.
Proof. solve_decision. Defined.

(** The class statement of each exception: its direct base. *)
Definition base_of (c : exn_class) : option exn_class :=
  match c with
  | BaseException => None
  | Exception => Some BaseException
  | LookupError | TypeError | AttributeError | RuntimeError
  | ValueError | OSError | SubprocessError => Some Exception
  | KeyError | IndexError => Some LookupError
  | UnicodeError | binascii_Error => Some ValueError
  | UnicodeEncodeError | UnicodeDecodeError => Some UnicodeError
  | FileExistsError | FileNotFoundError | IsADirectoryError
  | NotADirectoryError | PermissionError => Some OSError
  | CalledProcessError => Some SubprocessError
  | AttachmentError => Some ValueError        (* class AttachmentError(ValueError) *)
  | ParsingError => Some AttachmentError      (* class ParsingError(AttachmentError) *)
  | IllegalPathError => Some AttachmentError  (* class IllegalPathError(AttachmentError) *)
  end.

Fixpoint issubclass_fuel (fuel : nat) (c d : exn_class) : bool :=
  if decide (c = d) then true
  else match fuel, base_of c with
       | S fuel', Some b => issubclass_fuel fuel' b d
       | _, _ => false
       end.

(** No chain of bases is longer than five classes. *)
Definition issubclass : exn_class → exn_class → bool := issubclass_fuel 5.

Record exn := mk_exn { exn_cls : exn_class; exn_msg : str }.

(** [isinstance(e, c)] for an exception value. *)
Definition isinstance (e : exn) (c : exn_class) : bool :=
  issubclass (exn_cls e) c.

(** The messages of exceptions raised by the interpreter and its library
    are left empty; those the repository raises carry their text. *)
Definition builtin_exn (c : exn_class) : exn := mk_exn c [].

Inductive result (A : Type) :=
| Ok (a : A)
| Raise (e : exn).
Arguments Ok {A} a.
Arguments Raise {A} e.

Definition rbind {A B} (r : result A) (k : A → result B) : result B :=
  match r with
  | Ok a => k a
  | Raise e => Raise e
  end.

Definition raises {A} (r : result A) (c : exn_class) : Prop :=
  ∃ e, r = Raise e ∧ isinstance e c = true.

(** ** base64 (the standard library's codec, RFC 4648 alphabet) *)

Module base64.

Definition BASE64_PAD : byte := "=".

Definition table_b2a_base64 : list byte :=
  blit "ABCDEFGHIJKLMNOPQRSTUVWXYZabcdefghijklmnopqrstuvwxyz0123456789+/".

Definition b2a (sextet : N) : byte :=
  nth (N.to_nat sextet) table_b2a_base64 x00.

(** The four sextets of three bytes [a], [b], [c]. *)
Definition sextet0 (a : N) : N := N.shiftr a 2.
Definition sextet1 (a b : N) : N := N.lor (N.shiftl (N.land a 3) 4) (N.shiftr b 4).
Definition sextet2 (b c : N) : N := N.lor (N.shiftl (N.land b 15) 2) (N.shiftr c 6).
Definition sextet3 (c : N) : N := N.land c 63.

(** [binascii.b2a_base64(s, newline=False)]: three bytes make four
    characters; one or two trailing bytes are completed with zero bits
    and padded with [=]. *)
Fixpoint b64encode (s : bytes) : bytes :=
  match s with
  | [] => []
  | [a] =>
      let a := Byte.to_N a in
      [b2a (sextet0 a); b2a (sextet1 a 0); BASE64_PAD; BASE64_PAD]
  | [a; b] =>
      let a := Byte.to_N a in
      let b := Byte.to_N b in
      [b2a (sextet0 a); b2a (sextet1 a b); b2a (sextet2 b 0); BASE64_PAD]
  | a :: b :: c :: rest =>
      let a := Byte.to_N a in
      let b := Byte.to_N b in
      let c := Byte.to_N c in
      b2a (sextet0 a) :: b2a (sextet1 a b) :: b2a (sextet2 b c) :: b2a (sextet3 c)
      :: b64encode rest
  end.

(** [table_a2b_base64]: the sextet of an alphabet character, 64 and
    above for every other byte. *)
Definition a2b (ch : byte) : N :=
  let n := Byte.to_N ch in
  if (65 <=? n) && (n <=? 90) then n - 65              (* A-Z *)
  else if (97 <=? n) && (n <=? 122) then n - 97 + 26   (* a-z *)
  else if (48 <=? n) && (n <=? 57) then n - 48 + 52    (* 0-9 *)
  else if n =? 43 then 62                              (* + *)
  else if n =? 47 then 63                              (* / *)
  else 64.

Definition emit (b : N) (r : result bytes) : result bytes :=
  rbind r (λ out, Ok (byte_of_N b :: out)).

(** [binascii.a2b_base64(data, strict_mode=False)], the loop of CPython:
    [quad_pos] counts the characters of the current quad, [leftchar]
    holds the bits not yet written, [pads] the run of [=] seen.  Bytes
    outside the alphabet are skipped; a pad that completes a quad ends
    the decoding; an unfinished quad at the end is an error. *)
Fixpoint a2b_base64_loop (data : bytes) (quad_pos leftchar pads : N) : result bytes :=
  match data with
  | [] =>
      if quad_pos =? 0 then Ok []
      else Raise (builtin_exn binascii_Error)
  | this_ch :: data' =>
      if decide (this_ch = BASE64_PAD) then
        if 2 <=? quad_pos then
          let pads := pads + 1 in
          if 4 <=? quad_pos + pads then Ok []
          else a2b_base64_loop data' quad_pos leftchar pads
        else a2b_base64_loop data' quad_pos leftchar pads
      else
        let this_ch := a2b this_ch in
        if 64 <=? this_ch then a2b_base64_loop data' quad_pos leftchar pads
        else
          match quad_pos with
          | 0 => a2b_base64_loop data' 1 this_ch 0
          | 1 =>
              emit (N.lor (N.shiftl leftchar 2) (N.shiftr this_ch 4))
                   (a2b_base64_loop data' 2 (N.land this_ch 15) 0)
          | 2 =>
              emit (N.lor (N.shiftl leftchar 4) (N.shiftr this_ch 2))
                   (a2b_base64_loop data' 3 (N.land this_ch 3) 0)
          | _ =>
              emit (N.lor (N.shiftl leftchar 6) this_ch)
                   (a2b_base64_loop data' 0 0 0)
          end
  end.

Definition a2b_base64 (data : bytes) : result bytes :=
  a2b_base64_loop data 0 0 0.

End base64.

(** [bytes.decode("ascii")] *)
Definition decode_ascii (b : bytes) : result str :=
  if forallb (λ c, Byte.to_N c <? 128) b then Ok (Byte.to_N <$> b)
  else Raise (builtin_exn UnicodeDecodeError).

(** [str.encode("ascii")] as [base64._bytes_from_decode_data] uses it:
    a non-ASCII character is a [ValueError]. *)
Definition encode_ascii (s : str) : result bytes :=
  if forallb (λ c, c <? 128) s then Ok (byte_of_N <$> s)
  else Raise (builtin_exn ValueError).


(** [str.encode("utf-8")]: one to four bytes for a code point; a lone
    surrogate cannot be encoded. *)
Definition utf8_char (c : codepoint) : result bytes :=
  if c <? 0x80 then Ok [byte_of_N c]
  else if c <? 0x800 then
    Ok [byte_of_N (N.lor 0xC0 (N.shiftr c 6));
        byte_of_N (N.lor 0x80 (N.land c 0x3F))]
  else if (0xD800 <=? c) && (c <=? 0xDFFF) then
    Raise (builtin_exn UnicodeEncodeError)
  else if c <? 0x10000 then
    Ok [byte_of_N (N.lor 0xE0 (N.shiftr c 12));
        byte_of_N (N.lor 0x80 (N.land (N.shiftr c 6) 0x3F));
        byte_of_N (N.lor 0x80 (N.land c 0x3F))]
  else
    Ok [byte_of_N (N.lor 0xF0 (N.shiftr c 18));
        byte_of_N (N.lor 0x80 (N.land (N.shiftr c 12) 0x3F));
        byte_of_N (N.lor 0x80 (N.land (N.shiftr c 6) 0x3F));
        byte_of_N (N.lor 0x80 (N.land c 0x3F))].

Fixpoint encode_utf8 (s : str) : result bytes :=
  match s with
  | [] => Ok []
  | c :: s' =>
      rbind (utf8_char c) (λ b, rbind (encode_utf8 s') (λ bs, Ok (b ++ bs)))
  end.

(** The values a transport dictionary holds. *)
Inductive pyval :=
| VStr (s : str)
| VInt (z : Z).

(** [base64.b64decode(s)] with [validate=False]: a [str] is first
    encoded as ASCII, then decoded by [binascii.a2b_base64]. *)
Definition b64decode (s : pyval) : result bytes :=
  match s with
  | VStr s => rbind (encode_ascii s) base64.a2b_base64
  | VInt _ => Raise (builtin_exn TypeError)
  end.

(** ** pathlib (pure POSIX paths)

    The directories are tmpfs mounts, so the flavour of [Path] is the
    POSIX one: the separator is the slash, there are no drives. *)

Module pathlib.

Definition sep : codepoint := 47.        (* "/" *)
Definition backslash : codepoint := 92.  (* "\\" *)
Definition dot : codepoint := 46.        (* "." *)

(** [s.split("/")] *)
Fixpoint split (s : str) : list str :=
  match s with
  | [] => [[]]
  | c :: s' =>
      if decide (c = sep) then [] :: split s'
      else match split s' with
           | x :: xs => (c :: x) :: xs
           | [] => [[c]]
           end
  end.

Fixpoint lstrip (s : str) : str :=
  match s with
  | c :: s' => if decide (c = sep) then lstrip s' else s
  | [] => []
  end.

(** [_PosixFlavour.splitroot]: the root is [/], or [//] for exactly two
    leading slashes; there are no drives. *)
Definition splitroot (part : str) : str * str :=
  match part with
  | c :: _ =>
      if decide (c = sep) then
        let stripped_part := lstrip part in
        if decide (length part - length stripped_part = 2)%nat
        then ([sep; sep], stripped_part)
        else ([sep], stripped_part)
      else ([], part)
  | [] => ([], part)
  end.

(** The components of the relative part that are kept: neither empty
    nor a single dot. *)
Definition components (rel : str) : list str :=
  filter (λ x, x ≠ [] ∧ x ≠ [dot]) (split rel).

(** [parse_parts]: the arguments are read from the last to the first
    and reading stops at the first one that has a root. *)
Fixpoint parse_parts (args : list str) : str * list str :=
  match args with
  | [] => ([], [])
  | part :: rest =>
      let '(root_r, parsed_r) := parse_parts rest in
      if decide (root_r = []) then
        let '(root, rel) := splitroot part in
        (root, components rel ++ parsed_r)
      else (root_r, parsed_r)
  end.

Record PurePath := mk_path { root : str; parts : list str }.

#[global] Instance PurePath_eq_dec : EqDecision PurePath.
Proof. solve_decision. Defined.

Definition from_parsed_parts (root : str) (parsed : list str) : PurePath :=
  mk_path root (if decide (root = []) then parsed else root :: parsed).

(** [Path(a, b, ...)] on strings *)
Definition Path (args : list str) : PurePath :=
  let '(root, parsed) := parse_parts args in from_parsed_parts root parsed.

(** [p / key] and [Path(p, key)] *)
Definition joinpath (p : PurePath) (key : str) : PurePath :=
  let '(root2, parsed2) := parse_parts [key] in
  if decide (root2 = []) then mk_path (root p) (parts p ++ parsed2)
  else from_parsed_parts root2 parsed2.

Definition is_absolute (p : PurePath) : bool :=
  bool_decide (root p ≠ []).

(** [p.name]: the last component, empty for a bare root or an empty path *)
Definition name (p : PurePath) : str :=
  if decide (length (parts p) = if decide (root p = []) then 0 else 1)%nat
  then []
  else default [] (last (parts p)).

(** [str(p)] *)
Fixpoint join_sep (xs : list str) : str :=
  match xs with
  | [] => []
  | [x] => x
  | x :: xs' => x ++ sep :: join_sep xs'
  end.

Definition to_str (p : PurePath) : str :=
  if decide (root p = []) then
    match parts p with [] => [dot] | _ => join_sep (parts p) end
  else root p ++ join_sep (tail (parts p)).

End pathlib.

(** ** The operating system: files, mounts, processes, randomness

    The state every operation of the two modules runs in.  The process
    runs with the privileges [mount] needs, so permission bits are
    recorded but not checked.  What the environment decides (whether a
    [mount] or [umount] command succeeds, whether a tree can be
    removed, the random bytes of a UUID) is read from [environment]. *)

Module os.

(** Permission modes, written in octal in the source. *)
Definition o777 : N := 511.
Definition o555 : N := 365.
Definition o711 : N := 457.
Definition o666 : N := 438.
Definition o1777 : N := 1023.

Inductive node :=
| Dir (mode : N)
| File (mode : N) (data : bytes)
| Special (mode : N).   (* fifo, socket, device *)

Inductive event :=
| EvAcquire                       (* assignment_lock acquired *)
| EvRelease                       (* assignment_lock released *)
| EvUuid (name : str)             (* str(uuid4()) *)
| EvCall (argv : list str)        (* subprocess.check_call(argv) returned 0 *)
| EvPoolAdd (name : str)          (* assigned_names.add *)
| EvPoolRemove (name : str)       (* assigned_names.remove *)
| EvWarning (msg : str).          (* logging.warning *)

Record environment := mk_env {
  umask : N;
  urandom : nat → N;                    (* the 16 bytes of the i-th UUID *)
  mount_succeeds : list str → bool;
  umount_succeeds : list str → bool;
  rmtree_succeeds : list str → bool;
}.

(** [self_path] is the [path] attribute of the [MemoryTempDir] instance
    the running method belongs to; [assigned_names] is the class
    attribute shared by all instances. *)
Record state := mk_state {
  env : environment;
  fs : gmap (list str) node;
  mounts : list (list str * gmap (list str) node);  (* mount point, what it covers *)
  uuid_calls : nat;
  assigned_names : gset str;
  self_path : option pathlib.PurePath;
  trace : list event;
}.

Definition set_fs (f : gmap (list str) node → gmap (list str) node) (st : state) : state :=
  mk_state (env st) (f (fs st)) (mounts st) (uuid_calls st) (assigned_names st)
           (self_path st) (trace st).
Definition set_mounts
    (f : list (list str * gmap (list str) node) → list (list str * gmap (list str) node))
    (st : state) : state :=
  mk_state (env st) (fs st) (f (mounts st)) (uuid_calls st) (assigned_names st)
           (self_path st) (trace st).
Definition set_uuid_calls (n : nat) (st : state) : state :=
  mk_state (env st) (fs st) (mounts st) n (assigned_names st) (self_path st) (trace st).
Definition set_assigned_names (f : gset str → gset str) (st : state) : state :=
  mk_state (env st) (fs st) (mounts st) (uuid_calls st) (f (assigned_names st))
           (self_path st) (trace st).
Definition set_self_path (p : option pathlib.PurePath) (st : state) : state :=
  mk_state (env st) (fs st) (mounts st) (uuid_calls st) (assigned_names st) p (trace st).
Definition log_event (e : event) (st : state) : state :=
  mk_state (env st) (fs st) (mounts st) (uuid_calls st) (assigned_names st)
           (self_path st) (trace st ++ [e]).

(** Computations that read and write the state and may raise. *)
Definition M (A : Type) : Type := state → result A * state.

Definition ret {A} (a : A) : M A := λ st, (Ok a, st).
Definition raise {A} (e : exn) : M A := λ st, (Raise e, st).
Definition bind {A B} (m : M A) (k : A → M B) : M B :=
  λ st, match m st with
        | (Ok a, st') => k a st'
        | (Raise e, st') => (Raise e, st')
        end.
Definition get : M state := λ st, (Ok st, st).
Definition modify (f : state → state) : M unit := λ st, (Ok tt, f st).
Definition lift {A} (r : result A) : M A := λ st, (r, st).

(** [try: m finally: h] *)
Definition finally {A} (m : M A) (h : M unit) : M A :=
  λ st, match m st with
        | (r, st') =>
            match h st' with
            | (Ok _, st'') => (r, st'')
            | (Raise e, st'') => (Raise e, st'')
            end
        end.

End os.

Notation "x <~ m ;; k" := (os.bind m (λ x, k))
  (at level 100, m at next level, right associativity,
   format "'[v' x  <~  m  ;;  '/' k ']'").
Notation "m ;;; k" := (os.bind m (λ _, k))
  (at level 100, right associativity, format "'[v' m  ;;;  '/' k ']'").

(** ** The methods of [pathlib.Path] that touch the file system *)

Module io.
Import os.

Definition lookup_node (p : pathlib.PurePath) : M (option node) :=
  λ st, (Ok (fs st !! pathlib.parts p), st).

(** [p.exists()] *)
Definition exists_ (p : pathlib.PurePath) : M bool :=
  n <~ lookup_node p ;; ret (bool_decide (is_Some n)).

Definition is_dir (p : pathlib.PurePath) : M bool :=
  n <~ lookup_node p ;;
  ret (match n with Some (Dir _) => true | _ => false end).

Definition is_file (p : pathlib.PurePath) : M bool :=
  n <~ lookup_node p ;;
  ret (match n with Some (File _ _) => true | _ => false end).

(** [p.parent] *)
Definition parent (p : pathlib.PurePath) : pathlib.PurePath :=
  if decide (length (pathlib.parts p) = 1%nat ∧ pathlib.root p ≠ []) then p
  else pathlib.mk_path (pathlib.root p) (removelast (pathlib.parts p)).

(** [os.mkdir(p, mode)] *)
Definition os_mkdir (p : pathlib.PurePath) (mode : N) : M unit :=
  λ st,
    match fs st !! pathlib.parts p with
    | Some _ => (Raise (builtin_exn FileExistsError), st)
    | None =>
        match fs st !! pathlib.parts (parent p) with
        | Some (Dir _) =>
            (Ok tt,
             set_fs (<[ pathlib.parts p := Dir (N.ldiff mode (umask (env st))) ]>) st)
        | Some _ => (Raise (builtin_exn NotADirectoryError), st)
        | None => (Raise (builtin_exn FileNotFoundError), st)
        end
    end.

(** [p.mkdir(mode, parents=False, exist_ok=exist_ok)] *)
Definition mkdir (p : pathlib.PurePath) (mode : N) (exist_ok : bool) : M unit :=
  λ st,
    match os_mkdir p mode st with
    | (Ok _, st') => (Ok tt, st')
    | (Raise e, st') =>
        (* except FileNotFoundError: if not parents: raise *)
        if decide (exn_cls e = FileNotFoundError) then (Raise e, st')
        (* except OSError: if not exist_ok or not self.is_dir(): raise *)
        else if negb exist_ok then (Raise e, st')
        else match is_dir p st' with
             | (Ok true, st'') => (Ok tt, st'')
             | (_, st'') => (Raise e, st'')
             end
    end.

(** [p.mkdir(mode, parents=True, exist_ok=exist_ok)]: a missing parent is
    created first, with the default mode and [exist_ok=True].  [fuel]
    bounds the climb to the parents; the length of the path is enough. *)
Fixpoint mkdir_parents (fuel : nat) (p : pathlib.PurePath) (mode : N)
    (exist_ok : bool) : M unit :=
  λ st,
    match os_mkdir p mode st with
    | (Ok _, st') => (Ok tt, st')
    | (Raise e, st') =>
        if decide (exn_cls e = FileNotFoundError) then
          if decide (parent p = p) then (Raise e, st')
          else match fuel with
               | O => (Raise e, st')
               | S fuel' =>
                   (mkdir_parents fuel' (parent p) o777 true ;;;
                    mkdir p mode exist_ok) st'
               end
        else if negb exist_ok then (Raise e, st')
        else match is_dir p st' with
             | (Ok true, st'') => (Ok tt, st'')
             | (_, st'') => (Raise e, st'')
             end
    end.

Definition with_mode (n : node) (mode : N) : node :=
  match n with
  | Dir _ => Dir mode
  | File _ data => File mode data
  | Special _ => Special mode
  end.

Definition mode_of (n : node) : N :=
  match n with
  | Dir m | File m _ | Special m => m
  end.

(** [p.chmod(mode)] *)
Definition chmod (p : pathlib.PurePath) (mode : N) : M unit :=
  λ st,
    match fs st !! pathlib.parts p with
    | Some n => (Ok tt, set_fs (<[ pathlib.parts p := with_mode n mode ]>) st)
    | None => (Raise (builtin_exn FileNotFoundError), st)
    end.

(** [p.read_bytes()] *)
Definition read_bytes (p : pathlib.PurePath) : M bytes :=
  λ st,
    match fs st !! pathlib.parts p with
    | Some (File _ data) => (Ok data, st)
    | Some (Dir _) => (Raise (builtin_exn IsADirectoryError), st)
    | Some (Special _) => (Raise (builtin_exn OSError), st)
    | None => (Raise (builtin_exn FileNotFoundError), st)
    end.

(** [open(p, "wb")]: the file is created or truncated *)
Definition open_w (p : pathlib.PurePath) : M unit :=
  λ st,
    match fs st !! pathlib.parts p with
    | Some (File m _) => (Ok tt, set_fs (<[ pathlib.parts p := File m [] ]>) st)
    | Some (Dir _) => (Raise (builtin_exn IsADirectoryError), st)
    | Some (Special _) => (Raise (builtin_exn OSError), st)
    | None =>
        match fs st !! pathlib.parts (parent p) with
        | Some (Dir _) =>
            (Ok tt,
             set_fs (<[ pathlib.parts p := File (N.ldiff o666 (umask (env st))) [] ]>) st)
        | Some _ => (Raise (builtin_exn NotADirectoryError), st)
        | None => (Raise (builtin_exn FileNotFoundError), st)
        end
    end.

Definition write_data (p : pathlib.PurePath) (data : bytes) : M unit :=
  λ st,
    match fs st !! pathlib.parts p with
    | Some (File m _) => (Ok tt, set_fs (<[ pathlib.parts p := File m data ]>) st)
    | _ => (Raise (builtin_exn OSError), st)
    end.

(** [p.write_bytes(data)] *)
Definition write_bytes (p : pathlib.PurePath) (data : bytes) : M unit :=
  open_w p ;;; write_data p data.

(** [p.write_text(s, encoding="utf-8")]: the file is opened before the
    text is encoded *)
Definition write_text (p : pathlib.PurePath) (s : str) : M unit :=
  open_w p ;;; data <~ lift (encode_utf8 s) ;; write_data p data.

(** [k] lies at or below the directory [dir] *)
Fixpoint strip_prefix (dir k : list str) : option (list str) :=
  match dir, k with
  | [], _ => Some k
  | d :: dir', x :: k' => if decide (d = x) then strip_prefix dir' k' else None
  | _ :: _, [] => None
  end.

Definition under (dir k : list str) : Prop := is_Some (strip_prefix dir k).

#[global] Instance under_dec dir k : Decision (under dir k).
Proof. unfold under. apply _. Defined.

(** The entries of a directory, in the order the file system lists
    them (which nothing in the code depends on). *)
Definition scandir (dir : list str) (st : state) : list (str * node) :=
  omap (λ kn, match strip_prefix dir kn.1 with
              | Some [name] => Some (name, kn.2)
              | _ => None
              end)
       (map_to_list (fs st)).

(** [fnmatch] of a name against a pattern [prefix*] *)
Fixpoint startswith (prefix s : str) : bool :=
  match prefix, s with
  | [], _ => true
  | c :: prefix', d :: s' => bool_decide (c = d) && startswith prefix' s'
  | _ :: _, [] => false
  end.

(** [p.glob(prefix + "*")]: the entries of [p] whose name starts with
    the prefix; nothing when [p] is not a directory. *)
Definition glob_prefix (p : pathlib.PurePath) (prefix : str) : M (list pathlib.PurePath) :=
  λ st,
    match fs st !! pathlib.parts p with
    | Some (Dir _) =>
        (Ok (pathlib.joinpath p <$>
               filter (λ name, startswith prefix name = true)
                      (fst <$> scandir (pathlib.parts p) st)),
         st)
    | _ => (Ok [], st)
    end.

(** [shutil.rmtree(p, ignore_errors=True)] *)
Definition rmtree_ignore_errors (p : pathlib.PurePath) : M unit :=
  λ st,
    if rmtree_succeeds (env st) (pathlib.parts p)
    then (Ok tt, set_fs (filter (λ kn, ¬ under (pathlib.parts p) kn.1)) st)
    else (Ok tt, st).

(** [subprocess.check_call(["mount", "-t", "tmpfs", ..., str(p)])]: a new
    tmpfs covers what was at and below [p]. *)
Definition check_call_mount (argv : list str) (p : pathlib.PurePath) : M unit :=
  λ st,
    match fs st !! pathlib.parts p with
    | Some (Dir _) =>
        if mount_succeeds (env st) (pathlib.parts p) then
          let covered := filter (λ kn, under (pathlib.parts p) kn.1) (fs st) in
          (Ok tt,
           log_event (EvCall argv)
             (set_mounts (λ ms, (pathlib.parts p, covered) :: ms)
                (set_fs (λ f, <[ pathlib.parts p := Dir o1777 ]>
                                (filter (λ kn, ¬ under (pathlib.parts p) kn.1) f))
                        st)))
        else (Raise (builtin_exn CalledProcessError), st)
    | _ => (Raise (builtin_exn CalledProcessError), st)
    end.

Fixpoint pop_mount (k : list str) (ms : list (list str * gmap (list str) node))
  : option (gmap (list str) node * list (list str * gmap (list str) node)) :=
  match ms with
  | [] => None
  | (k', covered) :: ms' =>
      if decide (k' = k) then Some (covered, ms')
      else match pop_mount k ms' with
           | Some (c, rest) => Some (c, (k', covered) :: rest)
           | None => None
           end
  end.

(** [subprocess.check_call(["umount", str(p)])]: the tmpfs and all it
    holds go, what it covered is back. *)
Definition check_call_umount (argv : list str) (p : pathlib.PurePath) : M unit :=
  λ st,
    match pop_mount (pathlib.parts p) (mounts st) with
    | Some (covered, rest) =>
        if umount_succeeds (env st) (pathlib.parts p) then
          (Ok tt,
           log_event (EvCall argv)
             (set_mounts (λ _, rest)
                (set_fs (λ f, covered ∪ filter (λ kn, ¬ under (pathlib.parts p) kn.1) f)
                        st)))
        else (Raise (builtin_exn CalledProcessError), st)
    | None => (Raise (builtin_exn CalledProcessError), st)
    end.

Definition hexdigit (n : N) : codepoint :=
  nth (N.to_nat (n mod 16)) (lit "0123456789abcdef") 0.

(** ["%032x" % n], from digit [hi] down to digit [lo] *)
Definition hex (n : N) (digits : list nat) : str :=
  (λ i, hexdigit (N.shiftr n (4 * N.of_nat i))) <$> digits.

Definition dash : codepoint := 45.

(** [str(u)] for a UUID of integer value [n]: 8-4-4-4-12 hex digits *)
Definition str_of_uuid (n : N) : str :=
  hex n (rev (seq 24 8)) ++ dash :: hex n (rev (seq 20 4)) ++ dash ::
  hex n (rev (seq 16 4)) ++ dash :: hex n (rev (seq 12 4)) ++ dash ::
  hex n (rev (seq 0 12)).

(** [UUID(bytes=os.urandom(16), version=4).int]: variant and version
    bits are set over the random bits *)
Definition uuid4_int (random : N) : N :=
  N.lor (N.ldiff (N.lor (N.ldiff random (N.shiftl 0xc000 48)) (N.shiftl 0x8000 48))
                 (N.shiftl 0xf000 64))
        (N.shiftl 4 76).

(** [str(uuid4())] *)
Definition uuid4_str : M str :=
  λ st,
    let name := str_of_uuid (uuid4_int (urandom (env st) (uuid_calls st))) in
    (Ok name, log_event (EvUuid name) (set_uuid_calls (S (uuid_calls st)) st)).

(** [with lock: body] for the semaphore of capacity one.  One thread is
    modelled, so the semaphore is free at every acquire; the two events
    mark what runs while it is held. *)
Definition with_lock {A} (body : M A) : M A :=
  modify (log_event EvAcquire) ;;;
  finally body (modify (log_event EvRelease)).

(** A context manager made by [@contextmanager] from a generator with
    one [yield]: the code before the [yield], and the code that runs when
    the generator is resumed ([None]) or when an exception is thrown
    into it at the [yield] ([Some e]). *)
Record contextmanager := mk_cm {
  before_yield : M unit;
  after_yield : option exn → M unit;
}.

(** [with cm: body], as [contextlib] runs it: [__enter__] runs the
    generator up to its [yield]; [__exit__] resumes it after a normal
    end of the body and throws the body's exception into it otherwise.
    What the generator then raises leaves the statement; if it ends
    without raising, a thrown exception is suppressed. *)
Definition with_ (cm : contextmanager) (body : M unit) : M unit :=
  before_yield cm ;;;
  (λ st, match body st with
         | (Ok _, st') => after_yield cm None st'
         | (Raise e, st') => after_yield cm (Some e) st'
         end).

End io.

(** ** snekio.py *)

Module snekio.

(** [T = TypeVar("T", str, bytes)] *)
Inductive content_t :=
| Text (s : str)
| Binary (b : bytes).

Record FileAttachment := mk_attachment { path : str; content : content_t }.

#[global] Instance pyval_eq_dec : EqDecision pyval.
Proof. solve_decision. Defined.

(** [f"File path '{name}' must be relative"] *)
Definition must_be_relative (name : str) : exn :=
  mk_exn IllegalPathError (lit "File path '" ++ name ++ lit "' must be relative").

(** [f"File path '{name}' may not use traversal ('..')"] *)
Definition may_not_use_traversal (name : str) : exn :=
  mk_exn IllegalPathError
    (lit "File path '" ++ name ++ lit "' may not use traversal ('..')").

(** [set(part) & {"\\", "/"}] is non-empty *)
Definition has_separator (part : str) : bool :=
  bool_decide
    ((list_to_set part : gset codepoint) ∩ {[ pathlib.backslash; pathlib.sep ]} ≠ ∅).

(** [set(part) == {"."}] *)
Definition only_dots (part : str) : bool :=
  bool_decide ((list_to_set part : gset codepoint) = {[ pathlib.dot ]}).

Definition from_dict (data : gmap str pyval) : result FileAttachment :=
  match data !! lit "name" with
  | None => Raise (builtin_exn KeyError)
  | Some (VInt _) => Raise (builtin_exn TypeError)
  | Some (VStr name) =>
      let path := pathlib.Path [name] in
      let parts := pathlib.parts path in
      rbind
        (if pathlib.is_absolute path then Ok true
         else match parts !! 0%nat with
              | Some part0 => Ok (has_separator part0)
              | None => Raise (builtin_exn IndexError)
              end)
        (λ illegal,
           if illegal : bool then Raise (must_be_relative name)
           else if existsb only_dots parts then Raise (may_not_use_traversal name)
           else
             rbind (b64decode (default (VStr (lit "")) (data !! lit "content")))
                   (λ content, Ok (mk_attachment name (Binary content))))
  end.

(** The two path checks of [from_dict], both passed. *)
Definition path_checks_pass (name : str) : bool :=
  let path := pathlib.Path [name] in
  negb (pathlib.is_absolute path)
  && match pathlib.parts path !! 0%nat with
     | Some part0 => negb (has_separator part0)
     | None => false
     end
  && negb (existsb only_dots (pathlib.parts path)).

Definition size (self : FileAttachment) : Z :=
  match content self with
  | Text s => Z.of_nat (length s)
  | Binary b => Z.of_nat (length b)
  end.

Definition as_bytes (self : FileAttachment) : result bytes :=
  match content self with
  | Binary b => Ok b
  | Text s => encode_utf8 s
  end.

Definition to_dict (self : FileAttachment) : result (gmap str pyval) :=
  rbind (as_bytes self) (λ b,
  rbind (decode_ascii (base64.b64encode b)) (λ content,
  Ok (<[ lit "path" := VStr (path self) ]>
      (<[ lit "size" := VInt (size self) ]>
      (<[ lit "content" := VStr content ]> ∅))))).

(** An argument of a call: what the callers in this repository pass. *)
Inductive pyobj :=
| OPath (p : pathlib.PurePath)
| OInt (z : Z).

(** [def from_path(cls, file: Path)]: the call binds its positional
    arguments to the one parameter [file]; any other number of
    arguments is a [TypeError] before the body runs. *)
Definition from_path (args : list pyobj) : os.M FileAttachment :=
  match args with
  | [file] =>
      match file with
      | OPath file =>
          data <~ io.read_bytes file ;;
          os.ret (mk_attachment (pathlib.name file) (Binary data))
      | OInt _ => os.raise (builtin_exn AttributeError)
      end
  | _ => os.raise (builtin_exn TypeError)
  end.

Definition save_to (self : FileAttachment) (directory : pathlib.PurePath) : os.M unit :=
  let file := pathlib.joinpath directory (path self) in
  (* Create directories if they don't exist *)
  io.mkdir_parents (length (pathlib.parts file)) (io.parent file) os.o777 true ;;;
  match content self with
  | Text s => io.write_text file s
  | Binary b => io.write_bytes file b
  end.

End snekio.

(** ** memfs.py *)

Module memfs.
Import os.

(** [class MemFSOptions]: the three class attributes.  The operations
    below take the options as a parameter, so that what depends on
    which option can be stated. *)
Record options := mk_options {
  MEMFS_SIZE : str;      (* Size of the memory filesystem (per instance) *)
  MAX_FILES : Z;         (* Maximum number of files attachments will be scanned for *)
  MAX_FILE_SIZE : Z;     (* Maximum size of a file attachment (32 MB) *)
}.

Definition MemFSOptions : options :=
  mk_options (lit "32M") 2 (32 * 1024 * 1024).

Section operations.
Variable opts : options.

Definition memfs_path (name : str) : pathlib.PurePath :=
  pathlib.Path [lit "/snekbox/memfs"; name].

(** Create and mount a tmpfs directory. *)
Definition mount_tmpfs (name : str) : M pathlib.PurePath :=
  let tmp := memfs_path name in
  e <~ io.exists_ tmp ;;
  d <~ io.is_dir tmp ;;
  (if negb e || negb d then
     (* Create the directory *)
     io.mkdir_parents (length (pathlib.parts tmp)) tmp o777 true ;;;
     io.chmod tmp o777 ;;;
     (* Mount the tmpfs *)
     io.check_call_mount
       [lit "mount"; lit "-t"; lit "tmpfs"; lit "-o";
        lit "size=" ++ MEMFS_SIZE opts; lit "tmpfs"; pathlib.to_str tmp] tmp ;;;
     (* Execute only access for other users *)
     io.chmod tmp o711
   else ret tt) ;;;
  ret tmp.

(** Unmount and remove a tmpfs directory. *)
Definition unmount_tmpfs (name : str) : M unit :=
  let tmp := memfs_path name in
  e <~ io.exists_ tmp ;;
  d <~ io.is_dir tmp ;;
  if e && d then
    io.check_call_umount [lit "umount"; pathlib.to_str tmp] tmp ;;;
    io.rmtree_ignore_errors tmp
  else ret tt.

(** *** class MemoryTempDir *)

(** [__init__]: a new instance has no path *)
Definition __init__ : M unit := modify (set_self_path None).

(** Name of the temp dir. *)
Definition name : M (option str) :=
  st <~ get ;; ret (pathlib.name <$> self_path st).

(** Path to home directory. *)
Definition home : M (option pathlib.PurePath) :=
  st <~ get ;; ret ((λ p, pathlib.joinpath p (lit "home")) <$> self_path st).

Definition name_exhausted : exn :=
  mk_exn RuntimeError (lit "Failed to generate a unique tempdir name in 10 attempts").

(** [for _ in range(n): ... else: raise RuntimeError(...)] *)
Fixpoint enter_loop (n : nat) : M unit :=
  match n with
  | O => raise name_exhausted
  | S n' =>
      name <~ io.uuid4_str ;;
      st <~ get ;;
      if decide (name ∉ assigned_names st) then
        path <~ mount_tmpfs name ;;
        modify (set_self_path (Some path)) ;;;
        io.chmod path o555 ;;;
        (* Create a home folder *)
        let home := pathlib.joinpath path (lit "home") in
        io.mkdir home o777 false ;;;
        io.chmod home o777 ;;;
        modify (λ st, log_event (EvPoolAdd name) (set_assigned_names (λ s, {[ name ]} ∪ s) st))
      else enter_loop n'
  end.

Definition __enter__ : M unit :=
  (* Generates a uuid tempdir *)
  io.with_lock (enter_loop 10).

(** [self.path.chmod(mode)]: [self.path] may be [None] *)
Definition chmod_root (mode : N) : M unit :=
  st <~ get ;;
  match self_path st with
  | Some path => io.chmod path mode
  | None => raise (builtin_exn AttributeError)
  end.

(** Temporarily allow writes to the root tempdir.  The [yield] is not
    inside a [try], so an exception thrown into the generator leaves it
    at the [yield]. *)
Definition allow_write : io.contextmanager :=
  io.mk_cm
    (chmod_root o777)
    (λ thrown, match thrown with
               | None => chmod_root o555
               | Some e => raise e
               end).

(** The body of the generator [attachments], run to its end: the
    attachments it yields, and how it ends. *)
Fixpoint attachments_loop (files : list pathlib.PurePath) (st : state)
  : list snekio.FileAttachment * result unit :=
  match files with
  | [] => ([], Ok tt)
  | file :: files' =>
      match io.is_file file st with
      | (Ok true, _) =>
          match snekio.from_path [snekio.OPath file; snekio.OInt (MAX_FILE_SIZE opts)] st with
          | (Ok a, _) =>
              let '(ys, r) := attachments_loop files' st in (a :: ys, r)
          | (Raise e, _) => ([], Raise e)
          end
      | (Ok false, _) => attachments_loop files' st
      | (Raise e, _) => ([], Raise e)
      end
  end.

(** Return a list of attachments in the tempdir. *)
Definition attachments (st : state) : list snekio.FileAttachment * result unit :=
  match home st with
  | (Ok (Some home), _) =>
      (* Look for any file starting with `output` *)
      match io.glob_prefix home (lit "output") st with
      | (Ok files, _) => attachments_loop files st
      | (Raise e, _) => ([], Raise e)
      end
  | (Ok None, _) => ([], Raise (builtin_exn AttributeError))
  | (Raise e, _) => ([], Raise e)
  end.

Definition pool_remove (name : str) : M unit :=
  st <~ get ;;
  if decide (name ∈ assigned_names st) then
    modify (λ st, log_event (EvPoolRemove name)
                    (set_assigned_names (λ s, s ∖ {[ name ]}) st))
  else raise (builtin_exn KeyError).

Definition failed_to_remove (path : pathlib.PurePath) : str :=
  lit "Failed to remove " ++ pathlib.to_str path ++ lit " in cleanup".

(** Remove files in temp dir, releases name. *)
Definition cleanup : M unit :=
  st <~ get ;;
  match self_path st with
  | None => ret tt
  | Some path =>
      (* Remove the path folder *)
      unmount_tmpfs (pathlib.name path) ;;;
      e <~ io.exists_ path ;;
      (if negb e then io.with_lock (pool_remove (pathlib.name path))
       else
         (* Don't remove name from pool if failed to delete folder *)
         modify (log_event (EvWarning (failed_to_remove path)))) ;;;
      modify (set_self_path None)
  end.

Definition __exit__ : M unit := cleanup.

(** [f"<MemoryTempDir {self.name or '(Uninitialized)'}>"] *)
Definition __repr__ : M str :=
  n <~ name ;;
  ret (lit "<MemoryTempDir "
       ++ match n with
          | Some (c :: s) => c :: s
          | _ => lit "(Uninitialized)"
          end
       ++ lit ">").

End operations.

(** *** Notions the statements below use *)

(** The parts of [/snekbox/memfs/name] when [name] is one component *)
Definition memfs_key (name : str) : list str :=
  [[pathlib.sep]; lit "snekbox"; lit "memfs"; name].

(** The command line of the mount in [mount_tmpfs] *)
Definition mount_argv (opts : options) (tmp : pathlib.PurePath) : list str :=
  [lit "mount"; lit "-t"; lit "tmpfs"; lit "-o";
   lit "size=" ++ MEMFS_SIZE opts; lit "tmpfs"; pathlib.to_str tmp].

Definition dir_or_absent (st : state) (k : list str) : Prop :=
  fs st !! k = None ∨ ∃ m, fs st !! k = Some (Dir m).

(** Fields other than the file system *)
Definition same_but_fs (st st' : state) : Prop :=
  env st' = env st ∧ mounts st' = mounts st ∧ uuid_calls st' = uuid_calls st
  ∧ assigned_names st' = assigned_names st ∧ self_path st' = self_path st
  ∧ trace st' = trace st.

(** A computation that leaves the pool and the instance as they are *)
Definition keeps_pool {A} (m : M A) : Prop :=
  ∀ st r st', m st = (r, st') →
    assigned_names st' = assigned_names st ∧ self_path st' = self_path st.

(** The name the call of [uuid4] after [i] more calls returns *)
Definition coming_name (st : state) (i : nat) : str :=
  io.str_of_uuid (io.uuid4_int (urandom (env st) (i + uuid_calls st))).

(** The state after one more call of [uuid4], and after [n] more *)
Definition draw (st : state) : state :=
  log_event (EvUuid (coming_name st 0)) (set_uuid_calls (S (uuid_calls st)) st).

Fixpoint draws (n : nat) (st : state) : state :=
  match n with
  | O => st
  | S n' => draws n' (draw st)
  end.

End memfs.


(** ** Inputs the statements are evaluated on *)

Module inputs.
Import snekio.

(** [{"name": name}] and [{"name": name, "content": content}] *)
Definition named (name : string) : gmap str pyval :=
  {[ lit "name" := VStr (lit name) ]}.

Definition named_with (name content : string) : gmap str pyval :=
  <[ lit "name" := VStr (lit name) ]> {[ lit "content" := VStr (lit content) ]}.

(** [FileAttachment("a.txt", b"hi")] *)
Definition hi_txt : FileAttachment := mk_attachment (lit "a.txt") (Binary (blit "hi")).

(** [FileAttachment("x", "é")]: one character, U+00E9 *)
Definition e_acute : FileAttachment := mk_attachment (lit "x") (Text [233]).

(** An environment in which every command succeeds, with umask 022 and
    the random bytes of the i-th UUID all equal to [i]; and one in which
    [rmtree] cannot remove anything. *)
Definition env_ok : os.environment :=
  os.mk_env 18 N.of_nat (λ _, true) (λ _, true) (λ _, true).

Definition env_rmtree_fails : os.environment :=
  os.mk_env 18 N.of_nat (λ _, true) (λ _, true) (λ _, false).

(** A file system that holds the root directory only, an empty pool,
    an instance just made. *)
Definition boot (e : os.environment) : os.state :=
  os.mk_state e {[ [lit "/"] := os.Dir 493 ]} [] 0 ∅ None [].

(** The state after [__enter__] *)
Definition acquired (e : os.environment) : os.state :=
  (memfs.__enter__ memfs.MemFSOptions (boot e)).2.

Definition root_dir : pathlib.PurePath :=
  memfs.memfs_path (lit "00000000-0000-4000-8000-000000000000").

Definition home_dir : pathlib.PurePath := pathlib.joinpath root_dir (lit "home").

(** [home/name] is written with the given bytes *)
Definition write_output (name content : string) (st : os.state) : os.state :=
  (io.write_bytes (pathlib.joinpath home_dir (lit name)) (blit content) st).2.

(** The directory holds [home/output.txt] with the bytes [42]. *)
Definition one_output : os.state := write_output "output.txt" "42" (acquired env_ok).

(** The directory holds three output files and a directory [home/outputs]. *)
Definition three_outputs : os.state :=
  (io.mkdir (pathlib.joinpath home_dir (lit "outputs")) os.o777 false
     (write_output "output3.txt" "3"
        (write_output "output2.txt" "2"
           (write_output "output1.txt" "1" (acquired env_ok))))).2.

(** A pool that already holds the next ten names *)
Definition crowded : os.state :=
  os.set_assigned_names
    (λ _, list_to_set (memfs.coming_name (boot env_ok) <$> seq 0 10))
    (boot env_ok).

(** What a caller runs inside [allow_write]: an input attachment is
    decoded and saved under the root. *)
Definition stage (data : gmap str pyval) : os.M unit :=
  a <~ os.lift (from_dict data) ;; save_to a root_dir.

(** The directory of the first candidate is there already, as a failed
    mount or a failed removal leaves it: not mounted, without [home]. *)
Definition leftover : os.state :=
  os.set_fs
    (λ f, <[ pathlib.parts root_dir := os.Dir os.o777 ]>
            (<[ [[pathlib.sep]; lit "snekbox"; lit "memfs"] := os.Dir 493 ]>
               (<[ [[pathlib.sep]; lit "snekbox"] := os.Dir 493 ]> f)))
    (boot env_ok).

End inputs.

(** ** Notions the further statements use *)

Module notions.
Import os.

(** A code point of the surrogate range, which UTF-8 cannot encode *)
Definition surrogate (c : codepoint) : Prop := 0xD800 ≤ c ∧ c ≤ 0xDFFF.

(** How often the lock is held after the events of a trace: acquires
    minus releases *)
Definition lock_delta (e : event) : Z :=
  match e with
  | EvAcquire => 1
  | EvRelease => -1
  | _ => 0
  end.

Definition lock_balance (tr : list event) : Z :=
  foldr (λ e z, (lock_delta e + z)%Z) 0%Z tr.

(** What a mount covers lies at or below its mount point. *)
Definition mounts_wf (st : state) : Prop :=
  ∀ k covered q, (k, covered) ∈ mounts st → is_Some (covered !! q) → io.under k q.

(** The deepest ancestor of the key [K] that exists is a directory, at
    depth [j]; nothing exists between it and the key, nor at the key. *)
Definition missing_below (st : state) (K : list str) (j : nat) : Prop :=
  (1 ≤ j ≤ length K)%nat
  ∧ (∃ m, fs st !! take j K = Some (Dir m))
  ∧ ∀ i, (j < i ≤ length K)%nat → fs st !! take i K = None.

(** What an operation on the file system leaves alone: the file system
    outside the region [S] (given that the mounts are well formed, which
    they then stay), the environment, the count of UUIDs, the pool, the
    instance and the balance of the lock. *)
Definition quiet_step (S : list str → Prop) (st st' : state) : Prop :=
  env st' = env st ∧ uuid_calls st' = uuid_calls st
  ∧ assigned_names st' = assigned_names st ∧ self_path st' = self_path st
  ∧ lock_balance (trace st') = lock_balance (trace st)
  ∧ (mounts_wf st → mounts_wf st' ∧ ∀ q, ¬ S q → fs st' !! q = fs st !! q).

Definition quiet (S : list str → Prop) {A} (m : M A) : Prop :=
  ∀ st r st', m st = (r, st') → quiet_step S st st'.

(** The same without the pool, the instance and the count of UUIDs *)
Definition world_step (S : list str → Prop) (st st' : state) : Prop :=
  env st' = env st
  ∧ lock_balance (trace st') = lock_balance (trace st)
  ∧ (mounts_wf st → mounts_wf st' ∧ ∀ q, ¬ S q → fs st' !! q = fs st !! q).

(** The region of the temporary directories: [/snekbox], [/snekbox/memfs]
    and all below *)
Definition memfs_region (q : list str) : Prop :=
  q = [[pathlib.sep]; lit "snekbox"] ∨ io.under [[pathlib.sep]; lit "snekbox"; lit "memfs"] q.

(** The errors the set-up of a directory can end with: those of [mkdir]
    and [chmod], and a failed [mount] *)
Definition setup_error (e : exn) : Prop :=
  e = builtin_exn FileExistsError ∨ e = builtin_exn NotADirectoryError
  ∨ e = builtin_exn FileNotFoundError ∨ e = builtin_exn CalledProcessError.

(** The path of the instance, when set, is [/snekbox/memfs/<name>] for
    its own last component [<name>]. *)
Definition rooted_in_memfs (st : state) : Prop :=
  ∀ p, self_path st = Some p →
       memfs.memfs_path (pathlib.name p) = p
       ∧ pathlib.parts p = memfs.memfs_key (pathlib.name p)
       ∧ pathlib.root p = [pathlib.sep].

(** The number of bytes of a name *)
Definition utf8_length (s : str) : nat :=
  match encode_utf8 s with
  | Ok b => length b
  | Raise _ => 0%nat
  end.

(** A name the file system takes as it is written: not empty, not [.]
    or [..], without a slash or a NUL, encodable, at most 255 bytes. *)
Definition fs_name_ok (s : str) : bool :=
  negb (bool_decide (s = [])) && negb (bool_decide (s = lit "."))
  && negb (bool_decide (s = lit ".."))
  && forallb (λ c, negb (c =? 0) && negb (c =? pathlib.sep)) s
  && match encode_utf8 s with
     | Ok b => (length b <=? 255)%nat
     | Raise _ => false
     end.

(** A path that names the same file whatever the working directory is
    and whatever lies on the way: absolute with the root [/], every
    component a name as above, less than 4096 bytes in all.  The file
    system of the model holds directories, regular files and special
    files, no symbolic links; on these paths it is keyed as the kernel
    resolves them. *)
Definition canonical (p : pathlib.PurePath) : bool :=
  bool_decide (pathlib.root p = [pathlib.sep])
  && match pathlib.parts p with
     | r :: names =>
         bool_decide (r = [pathlib.sep]) && forallb fs_name_ok names
         && (sum_list_with (λ n, S (utf8_length n)) names <=? 4095)%nat
     | [] => false
     end.

(** A computation that changes nothing but entries of the file system
    within [S] *)
Definition only_touches (S : list str → Prop) {A} (m : M A) : Prop :=
  ∀ st r st', m st = (r, st') →
    memfs.same_but_fs st st' ∧ ∀ q, ¬ S q → fs st' !! q = fs st !! q.

End notions.

(** * Theorems *)

(** ** Exceptions *)

(** Five steps are enough to climb from any class to [BaseException]. *)
Lemma issubclass_BaseException (c : exn_class) : issubclass c BaseException = true.
Proof. by destruct c. Qed.

Lemma issubclass_refl (c : exn_class) : issubclass c c = true.
Proof. unfold issubclass. cbn [issubclass_fuel]. by rewrite decide_True. Qed.

(** The two exceptions of [snekio] that are raised or meant to be raised
    are attachment errors, and attachment errors are value errors. *)
Example attachment_errors :
  issubclass IllegalPathError AttachmentError = true
  ∧ issubclass ParsingError AttachmentError = true
  ∧ issubclass AttachmentError ValueError = true
  ∧ issubclass KeyError AttachmentError = false
  ∧ issubclass IndexError AttachmentError = false
  ∧ issubclass binascii_Error AttachmentError = false.
Proof. repeat split. Qed.

(** ** Bytes and ASCII *)

Lemma byte_of_to_N (b : byte) : byte_of_N (Byte.to_N b) = b.
Proof.
  unfold byte_of_N.
  pose proof (Byte.to_N_bounded b) as Hb.
  rewrite N.mod_small by lia.
  by rewrite Byte.of_to_N.
Qed.

Lemma bytes_of_to_N (l : bytes) : byte_of_N <$> (Byte.to_N <$> l) = l.
Proof.
  induction l as [|b l IH]; [done|].
  cbn [fmap list_fmap]. f_equal; [apply byte_of_to_N | exact IH].
Qed.

(** The numbers below [n], for checks by enumeration. *)
Lemma N_below_elem (n : nat) (x : N) :
  x < N.of_nat n → x ∈ (N.of_nat <$> seq 0 n).
Proof.
  intros Hx. apply list_elem_of_fmap. exists (N.to_nat x). split; [lia|].
  apply elem_of_seq. lia.
Qed.

Lemma forall_below (n : nat) (P : N → bool) :
  forallb P (N.of_nat <$> seq 0 n) = true → ∀ x, x < N.of_nat n → P x = true.
Proof.
  intros HP x Hx. rewrite forallb_forall in HP. apply HP.
  apply list_elem_of_In. by apply N_below_elem.
Qed.

Lemma forall_byte (P : N → bool) :
  forallb P (N.of_nat <$> seq 0 256) = true → ∀ a : byte, P (Byte.to_N a) = true.
Proof.
  intros HP a. apply (forall_below 256 P HP).
  pose proof (Byte.to_N_bounded a). lia.
Qed.

Lemma forall_byte2 (P : N → N → bool) :
  forallb (λ a, forallb (P a) (N.of_nat <$> seq 0 256)) (N.of_nat <$> seq 0 256) = true →
  ∀ a b : byte, P (Byte.to_N a) (Byte.to_N b) = true.
Proof.
  intros HP a b.
  pose proof (forall_byte (λ a, forallb (P a) (N.of_nat <$> seq 0 256)) HP a) as Ha.
  simpl in Ha. exact (forall_byte (P (Byte.to_N a)) Ha b).
Qed.

(** ** base64: decoding what was encoded *)

Module base64_facts.
Import base64.

Lemma b2a_alphabet (s : N) :
  s < 64 → b2a s ≠ BASE64_PAD ∧ a2b (b2a s) = s.
Proof.
  intros Hs.
  assert (H : (bool_decide (b2a s ≠ BASE64_PAD) && (a2b (b2a s) =? s)) = true).
  { revert s Hs. apply (forall_below 64). vm_compute. reflexivity. }
  apply andb_true_iff in H as [H1 H2].
  split; [by apply bool_decide_eq_true in H1 | by apply N.eqb_eq].
Qed.

(** One alphabet character moves the decoder by one position of the quad. *)
Lemma loop_alphabet (s : N) (data : bytes) (quad_pos leftchar pads : N) :
  s < 64 →
  a2b_base64_loop (b2a s :: data) quad_pos leftchar pads =
  match quad_pos with
  | 0 => a2b_base64_loop data 1 s 0
  | 1 => emit (N.lor (N.shiftl leftchar 2) (N.shiftr s 4))
              (a2b_base64_loop data 2 (N.land s 15) 0)
  | 2 => emit (N.lor (N.shiftl leftchar 4) (N.shiftr s 2))
              (a2b_base64_loop data 3 (N.land s 3) 0)
  | _ => emit (N.lor (N.shiftl leftchar 6) s) (a2b_base64_loop data 0 0 0)
  end.
Proof.
  intros Hs. destruct (b2a_alphabet s Hs) as [Hpad Hs'].
  cbn [a2b_base64_loop]. rewrite decide_False by done.
  cbv zeta. rewrite Hs'.
  destruct (N.leb_spec 64 s); [lia | done].
Qed.

Lemma sextets_bits (a b : byte) :
  let x := Byte.to_N a in
  let y := Byte.to_N b in
  (sextet0 x < 64 ∧ sextet1 x y < 64 ∧ sextet2 x y < 64 ∧ sextet3 x < 64)
  ∧ byte_of_N (N.lor (N.shiftl (sextet0 x) 2) (N.shiftr (sextet1 x y) 4)) = a
  ∧ N.land (sextet1 x y) 15 = N.shiftr y 4
  ∧ N.shiftr (sextet2 x y) 2 = N.land x 15
  ∧ byte_of_N (N.lor (N.shiftl (N.shiftr x 4) 4) (N.land x 15)) = a
  ∧ N.land (sextet2 x y) 3 = N.shiftr y 6
  ∧ byte_of_N (N.lor (N.shiftl (N.shiftr x 6) 6) (sextet3 x)) = a.
Proof.
  intros x y.
  pose (check := λ x y : N,
    (sextet0 x <? 64) && (sextet1 x y <? 64) && (sextet2 x y <? 64) && (sextet3 x <? 64)
    && (N.lor (N.shiftl (sextet0 x) 2) (N.shiftr (sextet1 x y) 4) mod 256 =? x)
    && (N.land (sextet1 x y) 15 =? N.shiftr y 4)
    && (N.shiftr (sextet2 x y) 2 =? N.land x 15)
    && (N.lor (N.shiftl (N.shiftr x 4) 4) (N.land x 15) mod 256 =? x)
    && (N.land (sextet2 x y) 3 =? N.shiftr y 6)
    && (N.lor (N.shiftl (N.shiftr x 6) 6) (sextet3 x) mod 256 =? x)).
  assert (H : check x y = true).
  { apply forall_byte2. vm_compute. reflexivity. }
  unfold check in H.
  repeat (apply andb_true_iff in H as [H ?]).
  repeat match goal with
         | H : (_ <? _) = true |- _ => apply N.ltb_lt in H
         | H : (_ =? _) = true |- _ => apply N.eqb_eq in H
         end.
  assert (Hof : ∀ n, n mod 256 = x → byte_of_N n = a).
  { intros n Hn. unfold byte_of_N. rewrite Hn. subst x. by rewrite Byte.of_to_N. }
  repeat split; auto.
Qed.

Lemma loop_quad (a b c : byte) (rest : bytes) (leftchar pads : N) :
  a2b_base64_loop
    (b2a (sextet0 (Byte.to_N a)) :: b2a (sextet1 (Byte.to_N a) (Byte.to_N b))
     :: b2a (sextet2 (Byte.to_N b) (Byte.to_N c)) :: b2a (sextet3 (Byte.to_N c)) :: rest)
    0 leftchar pads
  = rbind (a2b_base64_loop rest 0 0 0) (λ out, Ok (a :: b :: c :: out)).
Proof.
  destruct (sextets_bits a b) as ((H0 & H1 & _ & _) & Ha & Hl1 & _ & _ & _ & _).
  destruct (sextets_bits b c) as ((_ & _ & H2 & _) & _ & _ & Hs2 & Hb & Hl2 & _).
  destruct (sextets_bits c c) as ((_ & _ & _ & H3) & _ & _ & _ & _ & _ & Hc).
  cbv zeta in *.
  rewrite (loop_alphabet _ _ 0) by done.
  rewrite (loop_alphabet _ _ 1) by done.
  rewrite (loop_alphabet _ _ 2) by done.
  rewrite (loop_alphabet _ _ 3) by done.
  rewrite Hl1, Hl2, Hs2. unfold emit.
  destruct (a2b_base64_loop rest 0 0 0); cbn [rbind]; [|done].
  by rewrite Ha, Hb, Hc.
Qed.

(** The padding of a last quad of two or of three characters ends the
    decoding. *)
Lemma loop_pads_2 (leftchar : N) :
  a2b_base64_loop [BASE64_PAD; BASE64_PAD] 2 leftchar 0 = Ok [].
Proof. reflexivity. Qed.

Lemma loop_pad_3 (leftchar : N) :
  a2b_base64_loop [BASE64_PAD] 3 leftchar 0 = Ok [].
Proof. reflexivity. Qed.

Lemma list_ind3 {A} (P : list A → Prop) :
  P [] → (∀ a, P [a]) → (∀ a b, P [a; b]) →
  (∀ a b c l, P l → P (a :: b :: c :: l)) →
  ∀ l, P l.
Proof.
  intros H0 H1 H2 H3.
  fix IH 1. intros [|a [|b [|c l]]].
  - exact H0.
  - apply H1.
  - apply H2.
  - apply H3, IH.
Qed.

Lemma decode_encode_loop (s : bytes) (leftchar pads : N) :
  a2b_base64_loop (b64encode s) 0 leftchar pads = Ok s.
Proof.
  revert leftchar pads. induction s as [|a|a b|a b c s IH] using list_ind3;
    intros leftchar pads.
  - done.
  - destruct (sextets_bits a x00) as ((H0 & H1 & _) & Ha & _).
    cbv zeta in *. change (Byte.to_N x00) with 0 in *. cbn [b64encode].
    rewrite (loop_alphabet _ _ 0) by done.
    rewrite (loop_alphabet _ _ 1) by done.
    rewrite loop_pads_2. unfold emit. cbn [rbind]. by rewrite Ha.
  - destruct (sextets_bits a b) as ((H0 & H1 & _) & Ha & Hl1 & _).
    destruct (sextets_bits b x00) as ((_ & _ & H2 & _) & _ & _ & Hs2 & Hb & _).
    cbv zeta in *. change (Byte.to_N x00) with 0 in *. cbn [b64encode].
    rewrite (loop_alphabet _ _ 0) by done.
    rewrite (loop_alphabet _ _ 1) by done.
    rewrite (loop_alphabet _ _ 2) by done.
    rewrite loop_pad_3. unfold emit. cbn [rbind].
    by rewrite Hl1, Hs2, Ha, Hb.
  - cbn [b64encode]. rewrite loop_quad, IH. reflexivity.
Qed.

Lemma a2b_base64_b64encode (s : bytes) : a2b_base64 (b64encode s) = Ok s.
Proof. apply decode_encode_loop. Qed.

End base64_facts.

Example b64encode_hello : base64.b64encode (blit "hello") = blit "aGVsbG8=".
Proof. reflexivity. Qed.

Example a2b_base64_hello : base64.a2b_base64 (blit "aGVsbG8=") = Ok (blit "hello").
Proof. reflexivity. Qed.

Lemma b64encode_ascii (s : bytes) :
  forallb (λ c, Byte.to_N c <? 128) (base64.b64encode s) = true.
Proof.
  assert (Hb2a : ∀ n, (Byte.to_N (base64.b2a n) <? 128) = true).
  { intros n. unfold base64.b2a.
    assert (H : Forall (λ c, (Byte.to_N c <? 128) = true) base64.table_b2a_base64).
    { apply Forall_forall. intros c Hc. apply list_elem_of_In in Hc.
      revert c Hc. apply forallb_forall. vm_compute. reflexivity. }
    destruct (nth_in_or_default (N.to_nat n) base64.table_b2a_base64 x00) as [Hin | ->].
    - rewrite Forall_forall in H. apply H. by apply list_elem_of_In.
    - reflexivity. }
  induction s as [|a|a b|a b c s IH] using base64_facts.list_ind3;
    cbn [base64.b64encode forallb]; rewrite ?Hb2a; try rewrite IH; reflexivity.
Qed.

(** The text [to_dict] makes for the content decodes to the bytes. *)
Lemma b64decode_b64encode (s : bytes) :
  rbind (decode_ascii (base64.b64encode s)) (λ content, b64decode (VStr content)) = Ok s.
Proof.
  unfold decode_ascii. rewrite b64encode_ascii. cbn [rbind b64decode].
  unfold encode_ascii.
  assert (Hall : forallb (λ c, c <? 128) (Byte.to_N <$> base64.b64encode s) = true).
  { pose proof (b64encode_ascii s) as H. rewrite forallb_forall in *.
    intros x Hx. apply list_elem_of_In, list_elem_of_fmap in Hx as (c & -> & Hc).
    apply H. by apply list_elem_of_In. }
  rewrite Hall. cbn [rbind].
  rewrite bytes_of_to_N. apply base64_facts.a2b_base64_b64encode.
Qed.

(** ** pathlib: how one string is parsed *)

Module pathlib_facts.
Import pathlib.

(** A name that starts with a slash is absolute. *)
Lemma Path_absolute (s : str) : is_absolute (Path [sep :: s]) = true.
Proof.
  unfold Path. cbn [parse_parts]. rewrite decide_True by done.
  unfold splitroot. rewrite decide_True by done.
  case_decide; reflexivity.
Qed.

(** Any other name is relative, and its parts are the segments between
    slashes that are neither empty nor a single dot. *)
Lemma Path_relative (name : str) :
  (∀ s, name ≠ sep :: s) → Path [name] = mk_path [] (components name).
Proof.
  intros Hrel. unfold Path. cbn [parse_parts]. rewrite decide_True by done.
  unfold splitroot. destruct name as [|c s].
  - reflexivity.
  - rewrite decide_False by (intros ->; by eapply Hrel).
    unfold from_parsed_parts. rewrite decide_True by done.
    by rewrite app_nil_r.
Qed.

Lemma Path_cases (name : str) :
  is_absolute (Path [name]) = true
  ∨ (is_absolute (Path [name]) = false ∧ parts (Path [name]) = components name).
Proof.
  destruct name as [|c s].
  - right. by rewrite Path_relative.
  - destruct (decide (c = sep)) as [->|Hc].
    + left. apply Path_absolute.
    + right. rewrite Path_relative by congruence. done.
Qed.

Lemma elem_of_components (seg name : str) :
  seg ∈ components name ↔ seg ∈ split name ∧ seg ≠ [] ∧ seg ≠ [dot].
Proof. unfold components. rewrite list_elem_of_filter. tauto. Qed.

Lemma split_no_sep (s : str) : sep ∉ s → split s = [s].
Proof.
  induction s as [|c s IH]; [done|].
  intros Hs. cbn [split].
  rewrite decide_False by (intros ->; apply Hs; left).
  rewrite IH; [done|]. intros ?. apply Hs. by right.
Qed.

End pathlib_facts.

(** ** snekio: the attachment codec *)

Module snekio_facts.
Import snekio.

Ltac lit_ne := let H := fresh in intros H; vm_compute in H; discriminate H.

(** [set(part) & {"\\", "/"}] is non-empty exactly when the part holds
    a backslash or a slash. *)
Lemma has_separator_spec (part : str) :
  has_separator part = true ↔ pathlib.backslash ∈ part ∨ pathlib.sep ∈ part.
Proof.
  unfold has_separator. rewrite bool_decide_eq_true. split.
  - intros Hne. apply set_choose_L in Hne as [c Hc].
    apply elem_of_intersection in Hc as [Hc1 Hc2].
    apply elem_of_list_to_set in Hc1.
    apply elem_of_union in Hc2 as [Hc2|Hc2]; apply elem_of_singleton in Hc2; subst; auto.
  - intros [H|H]; apply (elem_of_list_to_set (C:=gset codepoint)) in H; set_solver.
Qed.

(** [set(part) == {"."}] holds exactly for a non-empty run of dots. *)
Lemma only_dots_spec (part : str) :
  only_dots part = true ↔ part ≠ [] ∧ Forall (λ c, c = pathlib.dot) part.
Proof.
  unfold only_dots. rewrite bool_decide_eq_true. split.
  - intros Heq. split.
    + intros ->. rewrite list_to_set_nil in Heq.
      assert (pathlib.dot ∈ (∅ : gset codepoint)) by (rewrite Heq; set_solver).
      set_solver.
    + apply Forall_forall. intros c Hc.
      apply (elem_of_list_to_set (C:=gset codepoint)) in Hc.
      rewrite Heq in Hc. by apply elem_of_singleton in Hc.
  - intros [Hne Hall]. apply set_eq. intros c.
    rewrite elem_of_list_to_set, elem_of_singleton. split.
    + intros Hc. rewrite Forall_forall in Hall. by apply Hall.
    + intros ->. destruct part as [|c part]; [done|].
      apply Forall_cons in Hall as [-> _]. left.
Qed.

Lemma from_dict_checked (data : gmap str pyval) (name : str) :
  data !! lit "name" = Some (VStr name) →
  path_checks_pass name = true →
  from_dict data =
  rbind (b64decode (default (VStr (lit "")) (data !! lit "content")))
        (λ content, Ok (mk_attachment name (Binary content))).
Proof.
  intros Hname Hpass. unfold from_dict, path_checks_pass in *. rewrite Hname.
  destruct (pathlib.is_absolute _); [done|].
  destruct (pathlib.parts _ !! 0%nat); [|done].
  destruct (has_separator _); [done|].
  destruct (existsb _ _); [done|]. reflexivity.
Qed.

Lemma from_dict_first_check (data : gmap str pyval) (name : str) :
  data !! lit "name" = Some (VStr name) →
  pathlib.is_absolute (pathlib.Path [name]) = true
  ∨ (∃ part0, pathlib.parts (pathlib.Path [name]) !! 0%nat = Some part0
              ∧ has_separator part0 = true) →
  from_dict data = Raise (must_be_relative name).
Proof.
  intros Hname Hill. unfold from_dict. rewrite Hname.
  destruct (pathlib.is_absolute _) eqn:Habs; [done|].
  destruct Hill as [?|(part0 & -> & ->)]; done.
Qed.

Lemma from_dict_second_check (data : gmap str pyval) (name : str) (part : str) :
  data !! lit "name" = Some (VStr name) →
  part ∈ pathlib.parts (pathlib.Path [name]) →
  only_dots part = true →
  from_dict data = Raise (must_be_relative name)
  ∨ from_dict data = Raise (may_not_use_traversal name).
Proof.
  intros Hname Hin Hdots. unfold from_dict. rewrite Hname.
  destruct (pathlib.is_absolute _); [by left|].
  destruct (pathlib.parts _ !! 0%nat) eqn:H0.
  - cbn [rbind]. destruct (has_separator _); [by left|].
    assert (existsb only_dots (pathlib.parts (pathlib.Path [name])) = true) as ->.
    { apply existsb_exists. exists part. split; [by apply list_elem_of_In | done]. }
    by right.
  - destruct (pathlib.parts (pathlib.Path [name])); [|done]. by apply elem_of_nil in Hin.
Qed.

Lemma raises_illegal_path (A : Type) (name : str) :
  raises (A:=A) (Raise (must_be_relative name)) IllegalPathError
  ∧ raises (A:=A) (Raise (may_not_use_traversal name)) IllegalPathError.
Proof. split; eexists; split; reflexivity. Qed.

(** *** Round trip through the transport dictionary *)

(** [to_dict] writes the keys [path], [size] and [content]; [from_dict]
    reads [name]: what [to_dict] returns is never an input of [from_dict]. *)
Lemma from_dict_of_to_dict (a : FileAttachment) (d : gmap str pyval) :
  to_dict a = Ok d → from_dict d = Raise (builtin_exn KeyError).
Proof.
  unfold to_dict. destruct (as_bytes a); [|done]. cbn [rbind].
  destruct (decode_ascii _); [|done]. cbn [rbind].
  intros [= <-]. unfold from_dict.
  rewrite !lookup_insert_ne by lit_ne. by rewrite lookup_empty.
Qed.

(** C3 as stated fails: for [FileAttachment("a.txt", b"hi")], decoding
    what [to_dict] returns raises [KeyError]. *)
Lemma from_dict_to_dict_KeyError :
  rbind (to_dict inputs.hi_txt) from_dict = Raise (builtin_exn KeyError)
  ∧ rbind (to_dict inputs.hi_txt) from_dict ≠ Ok inputs.hi_txt.
Proof. split; [vm_compute; reflexivity | vm_compute; discriminate]. Qed.

(** An attachment made from a file or by hand may carry a path that
    [from_dict] rejects: even under the key [name] it does not come back. *)
Example from_dict_to_dict_illegal_path :
  let a := mk_attachment (lit "../x") (Binary (blit "hi")) in
  path_checks_pass (path a) = false
  ∧ raises (rbind (to_dict a) (λ d, from_dict (<[ lit "name" := VStr (path a) ]> d)))
           IllegalPathError.
Proof.
  split; [vm_compute; reflexivity|].
  eexists. split; [vm_compute; reflexivity | reflexivity].
Qed.

(** C3 (as amended).  For every attachment with binary content whose
    path passes the two path checks of [from_dict], [to_dict] returns a
    dictionary that holds the path under the key [path], and [from_dict]
    of that dictionary with the path entered under the key [name]
    returns the attachment. *)
Theorem from_dict_to_dict_renamed (name : str) (b : bytes) :
  path_checks_pass name = true →
  ∃ d, to_dict (mk_attachment name (Binary b)) = Ok d
       ∧ d !! lit "path" = Some (VStr name)
       ∧ from_dict (<[ lit "name" := VStr name ]> d) = Ok (mk_attachment name (Binary b)).
Proof.
  intros Hpass. unfold to_dict. cbn [as_bytes content rbind].
  pose proof (b64decode_b64encode b) as Hdec.
  destruct (decode_ascii (base64.b64encode b)) as [c|e]; [|done].
  cbn [rbind] in *. eexists. split; [reflexivity|]. split.
  - apply lookup_insert_eq.
  - rewrite (from_dict_checked _ name); [| apply lookup_insert_eq | done].
    rewrite !lookup_insert_ne by lit_ne. rewrite lookup_insert_eq.
    cbn [default from_option id]. by rewrite Hdec.
Qed.

Lemma from_dict_to_dict_renamed_witness :
  ∃ d, to_dict (mk_attachment (lit "out/result.txt") (Binary (blit "hello"))) = Ok d
       ∧ d !! lit "path" = Some (VStr (lit "out/result.txt"))
       ∧ from_dict (<[ lit "name" := VStr (lit "out/result.txt") ]> d)
         = Ok (mk_attachment (lit "out/result.txt") (Binary (blit "hello"))).
Proof.
  apply (from_dict_to_dict_renamed (lit "out/result.txt") (blit "hello")).
  vm_compute. reflexivity.
Defined.

(** *** Path validation *)

(** C4 as stated fails for single dots.
    A single dot between slashes is a segment made of dots only, and
    [from_dict] accepts the name: pathlib drops such segments before the
    checks see the parts. *)
Lemma from_dict_accepts_single_dot :
  [pathlib.dot] ∈ pathlib.split (lit "a/./b")
  ∧ only_dots [pathlib.dot] = true
  ∧ from_dict (inputs.named "a/./b") = Ok (mk_attachment (lit "a/./b") (Binary []))
  ∧ ¬ raises (from_dict (inputs.named "a/./b")) IllegalPathError.
Proof.
  split; [|split; [|split]].
  - vm_compute. right. left.
  - vm_compute. reflexivity.
  - vm_compute. reflexivity.
  - intros (e & He & _). vm_compute in He. discriminate He.
Qed.

(** C4 (as amended).  For an input whose ["name"] is the string [name],
    [from_dict] raises [IllegalPathError] when the name is an absolute
    path, when the first part of the parsed path holds a backslash or a
    slash, when any part of the parsed path is a non-empty run of dots,
    and so when any segment between slashes is a run of two or more
    dots.  It accepts [{"name": "out/result.txt", "content": "aGVsbG8="}]
    with the content [b"hello"], and when the name passes the checks and
    the key ["content"] is absent the content is the empty byte string. *)
Theorem from_dict_path_rules (data : gmap str pyval) (name : str) :
  data !! lit "name" = Some (VStr name) →
  (pathlib.is_absolute (pathlib.Path [name]) = true →
   raises (from_dict data) IllegalPathError)
  ∧ (∀ part0, pathlib.parts (pathlib.Path [name]) !! 0%nat = Some part0 →
              pathlib.backslash ∈ part0 ∨ pathlib.sep ∈ part0 →
              raises (from_dict data) IllegalPathError)
  ∧ (∀ part, part ∈ pathlib.parts (pathlib.Path [name]) →
             part ≠ [] → Forall (λ c, c = pathlib.dot) part →
             raises (from_dict data) IllegalPathError)
  ∧ (∀ n, (2 ≤ n)%nat → replicate n pathlib.dot ∈ pathlib.split name →
          raises (from_dict data) IllegalPathError)
  ∧ from_dict (inputs.named_with "out/result.txt" "aGVsbG8=")
    = Ok (mk_attachment (lit "out/result.txt") (Binary (blit "hello")))
  ∧ (path_checks_pass name = true → data !! lit "content" = None →
     from_dict data = Ok (mk_attachment name (Binary []))).
Proof.
  intros Hname.
  assert (Hparts : ∀ part, part ∈ pathlib.parts (pathlib.Path [name]) →
             part ≠ [] → Forall (λ c, c = pathlib.dot) part →
             raises (from_dict data) IllegalPathError).
  { intros part Hin Hne Hall.
    destruct (from_dict_second_check data name part Hname Hin) as [-> | ->].
    - by apply only_dots_spec.
    - apply raises_illegal_path.
    - apply raises_illegal_path. }
  assert (Habs : pathlib.is_absolute (pathlib.Path [name]) = true →
                 raises (from_dict data) IllegalPathError).
  { intros H. rewrite (from_dict_first_check data name) by auto.
    apply raises_illegal_path. }
  split; [|split; [|split; [|split; [|split]]]].
  - exact Habs.
  - intros part0 H0 Hsep.
    rewrite (from_dict_first_check data name); [apply raises_illegal_path | done |].
    right. exists part0. split; [done|]. by apply has_separator_spec.
  - exact Hparts.
  - intros n Hn Hseg.
    destruct (pathlib_facts.Path_cases name) as [H | [_ Hrel]]; [by apply Habs|].
    apply (Hparts (replicate n pathlib.dot)).
    + rewrite Hrel. apply pathlib_facts.elem_of_components.
      split; [done|]. destruct n as [|[|n]]; [lia | lia | done].
    + destruct n; [lia | done].
    + apply Forall_replicate. done.
  - vm_compute. reflexivity.
  - intros Hpass Hcontent.
    rewrite (from_dict_checked data name Hname Hpass), Hcontent. reflexivity.
Qed.

Lemma from_dict_path_rules_witness :
  raises (from_dict (inputs.named "a/../../b")) IllegalPathError
  ∧ from_dict (inputs.named "out/result.txt")
    = Ok (mk_attachment (lit "out/result.txt") (Binary [])).
Proof.
  split.
  - refine (proj1 (proj2 (proj2 (proj2
      (from_dict_path_rules (inputs.named "a/../../b") (lit "a/../../b") _)))) 2%nat _ _).
    + vm_compute. reflexivity.
    + lia.
    + vm_compute. right. left.
  - refine (proj2 (proj2 (proj2 (proj2 (proj2
      (from_dict_path_rules (inputs.named "out/result.txt") (lit "out/result.txt") _)))))
      _ _).
    + vm_compute. reflexivity.
    + vm_compute. reflexivity.
    + vm_compute. reflexivity.
Defined.

(** *** Malformed content *)

Lemma a2b_base64_loop_error (data : bytes) (quad_pos leftchar pads : N) (e : exn) :
  base64.a2b_base64_loop data quad_pos leftchar pads = Raise e →
  e = builtin_exn binascii_Error.
Proof.
  revert quad_pos leftchar pads.
  induction data as [|c data IH]; intros quad_pos leftchar pads; cbn [base64.a2b_base64_loop].
  - destruct (quad_pos =? 0); congruence.
  - assert (Hemit : ∀ b q l p,
      base64.emit b (base64.a2b_base64_loop data q l p) = Raise e →
      e = builtin_exn binascii_Error).
    { intros b q l p. unfold base64.emit.
      destruct (base64.a2b_base64_loop data q l p) eqn:Hr; [done|].
      cbn [rbind]. intros [= <-]. by eapply IH. }
    repeat case_match; eauto; try congruence.
Qed.

Lemma b64decode_error (v : pyval) (e : exn) :
  b64decode v = Raise e →
  exn_cls e = TypeError ∨ exn_cls e = ValueError ∨ exn_cls e = binascii_Error.
Proof.
  destruct v as [s|z]; cbn [b64decode].
  - unfold encode_ascii. case_match; cbn [rbind].
    + intros Hloop. apply a2b_base64_loop_error in Hloop as ->. auto.
    + intros [= <-]. auto.
  - intros [= <-]. auto.
Qed.

(** [ParsingError] is defined and never raised: whatever the input,
    what [from_dict] raises is not a [ParsingError]. *)
Lemma from_dict_never_ParsingError (data : gmap str pyval) (e : exn) :
  from_dict data = Raise e → isinstance e ParsingError = false.
Proof.
  unfold from_dict.
  destruct (data !! lit "name") as [[name|z]|]; try (intros [= <-]; reflexivity).
  destruct (pathlib.is_absolute _); cbn [rbind].
  { intros [= <-]. reflexivity. }
  destruct (pathlib.parts _ !! 0%nat); cbn [rbind]; [|intros [= <-]; reflexivity].
  destruct (has_separator _); [intros [= <-]; reflexivity|].
  destruct (existsb _ _); [intros [= <-]; reflexivity|].
  destruct (b64decode _) eqn:Hdec; cbn [rbind]; [done|].
  intros [= <-]. apply b64decode_error in Hdec.
  unfold isinstance. destruct Hdec as [-> | [-> | ->]]; reflexivity.
Qed.

(** C5.  The content ["a"] is one base64 character, which no byte
    string encodes to: [from_dict] raises what [b64decode] raises,
    [binascii.Error], which is neither a [ParsingError] nor an
    [AttachmentError]. *)
Theorem from_dict_malformed_content :
  from_dict (inputs.named_with "a.txt" "a") = Raise (builtin_exn binascii_Error)
  ∧ isinstance (builtin_exn binascii_Error) ParsingError = false
  ∧ isinstance (builtin_exn binascii_Error) AttachmentError = false
  ∧ isinstance (builtin_exn binascii_Error) ValueError = true.
Proof. repeat split; vm_compute; reflexivity. Qed.

(** Characters outside the alphabet are skipped without an error. *)
Example from_dict_skips_foreign_characters :
  from_dict (inputs.named_with "a.txt" "aGV!s?bG8=")
  = Ok (mk_attachment (lit "a.txt") (Binary (blit "hello"))).
Proof. vm_compute. reflexivity. Qed.

(** *** Size *)

Lemma size_binary (name : str) (b : bytes) :
  let a := mk_attachment name (Binary b) in
  as_bytes a = Ok b ∧ size a = Z.of_nat (length b).
Proof. split; reflexivity. Qed.

Lemma encode_utf8_ascii (s : str) :
  Forall (λ c, c < 128) s →
  ∃ b, encode_utf8 s = Ok b ∧ length b = length s.
Proof.
  induction 1 as [|c s Hc _ (b & IH & Hlen)]; [by exists []|].
  cbn [encode_utf8]. unfold utf8_char.
  destruct (N.ltb_spec c 128); [|lia]. cbn [rbind]. rewrite IH. cbn [rbind].
  eexists. split; [reflexivity|]. cbn. by rewrite Hlen.
Qed.

(** C6.  For the text attachment whose content is the one character
    U+00E9, [size] is 1, the number of characters, while [as_bytes]
    returns the two bytes of its UTF-8 encoding. *)
Theorem size_of_text_counts_characters :
  size inputs.e_acute = 1%Z
  ∧ as_bytes inputs.e_acute = Ok [xc3; xa9]
  ∧ size inputs.e_acute ≠ Z.of_nat (length [xc3; xa9]).
Proof. repeat split; vm_compute; congruence. Qed.

(** *** Inputs without a usable name *)

(** A path without parts is not absolute. *)
Lemma Path_no_parts_relative (name : str) :
  pathlib.parts (pathlib.Path [name]) = [] →
  pathlib.is_absolute (pathlib.Path [name]) = false.
Proof.
  unfold pathlib.Path. destruct (pathlib.parse_parts [name]) as [root parsed].
  unfold pathlib.from_parsed_parts, pathlib.is_absolute. cbn [pathlib.parts pathlib.root].
  destruct (decide (root = [])) as [->|Hroot]; [|done].
  intros _. by rewrite bool_decide_eq_false_2 by (by intros H).
Qed.

(** Every dictionary whose name is a string without parts *)
Lemma from_dict_no_parts (data : gmap str pyval) (name : str) :
  data !! lit "name" = Some (VStr name) →
  pathlib.parts (pathlib.Path [name]) = [] →
  from_dict data = Raise (builtin_exn IndexError).
Proof.
  intros Hname Hparts. unfold from_dict. rewrite Hname.
  rewrite (Path_no_parts_relative name Hparts), Hparts. reflexivity.
Qed.

(** C9.  For every dictionary: without the key ["name"], [from_dict]
    raises [KeyError]; when the name is the empty string, or any other
    string whose path has no parts, it raises [IndexError], whatever else
    the dictionary holds.  Neither is an [AttachmentError].  When the
    name is a string whose path has at least one part, [from_dict] raises
    neither. *)
Theorem from_dict_name_precondition (data : gmap str pyval) :
  (data !! lit "name" = None →
   from_dict data = Raise (builtin_exn KeyError)
   ∧ isinstance (builtin_exn KeyError) AttachmentError = false)
  ∧ (data !! lit "name" = Some (VStr (lit "")) →
     pathlib.parts (pathlib.Path [lit ""]) = []
     ∧ from_dict data = Raise (builtin_exn IndexError)
     ∧ isinstance (builtin_exn IndexError) AttachmentError = false)
  ∧ (∀ name : str,
       data !! lit "name" = Some (VStr name) →
       pathlib.parts (pathlib.Path [name]) = [] →
       from_dict data = Raise (builtin_exn IndexError)
       ∧ isinstance (builtin_exn IndexError) AttachmentError = false)
  ∧ (∀ (name : str) (e : exn),
       data !! lit "name" = Some (VStr name) →
       pathlib.parts (pathlib.Path [name]) ≠ [] →
       from_dict data = Raise e →
       isinstance e LookupError = false).
Proof.
  split; [|split; [|split]].
  - intros Hname. unfold from_dict. rewrite Hname. split; reflexivity.
  - intros Hname. split; [reflexivity|]. split; [|reflexivity].
    by apply (from_dict_no_parts data (lit "")).
  - intros name Hname Hparts. split; [|reflexivity]. by apply (from_dict_no_parts data name).
  - intros name e Hn Hparts. unfold from_dict. rewrite Hn.
    destruct (pathlib.is_absolute _); cbn [rbind].
    { intros [= <-]. reflexivity. }
    destruct (pathlib.parts _) as [|part0 parts]; [done|]. cbn [lookup list_lookup rbind].
    destruct (has_separator _); [intros [= <-]; reflexivity|].
    destruct (existsb _ _); [intros [= <-]; reflexivity|].
    destruct (b64decode _) eqn:Hdec; cbn [rbind]; [done|].
    intros [= <-]. apply b64decode_error in Hdec.
    unfold isinstance. destruct Hdec as [-> | [-> | ->]]; reflexivity.
Qed.

Lemma from_dict_name_precondition_witness :
  (from_dict (∅ : gmap str pyval) = Raise (builtin_exn KeyError)
   ∧ isinstance (builtin_exn KeyError) AttachmentError = false)
  ∧ from_dict (inputs.named_with "" "aGVsbG8=") = Raise (builtin_exn IndexError)
  ∧ from_dict (inputs.named_with "./." "aGVsbG8=") = Raise (builtin_exn IndexError).
Proof.
  split; [|split].
  - refine (proj1 (from_dict_name_precondition ∅) _). apply lookup_empty.
  - refine (proj1 (proj2 (proj1 (proj2 (from_dict_name_precondition
                                          (inputs.named_with "" "aGVsbG8="))) _))).
    vm_compute. reflexivity.
  - refine (proj1 (proj1 (proj2 (proj2 (from_dict_name_precondition
                                          (inputs.named_with "./." "aGVsbG8="))))
                     (lit "./.") _ _)).
    + vm_compute. reflexivity.
    + vm_compute. reflexivity.
Defined.

(** With a name that is no absolute path and has no part, e.g. ["."],
    the first check itself fails with [IndexError]. *)
Example from_dict_dot_IndexError :
  from_dict (inputs.named ".") = Raise (builtin_exn IndexError).
Proof. vm_compute. reflexivity. Qed.

End snekio_facts.

(** ** memfs: the temporary directory *)

Module memfs_facts.
Import os memfs.

Lemma bind_ok {A B} (m : M A) (k : A → M B) (st st' : state) (a : A) :
  m st = (Ok a, st') → bind m k st = k a st'.
Proof. unfold bind. by intros ->. Qed.

Lemma bind_raise {A B} (m : M A) (k : A → M B) (st st' : state) (e : exn) :
  m st = (Raise e, st') → bind m k st = (Raise e, st').
Proof. unfold bind. by intros ->. Qed.

(** *** Output enumeration *)

(** [attachments] passes two arguments to [from_path], which takes one. *)
Lemma from_path_two_arguments (file : pathlib.PurePath) (limit : Z) (st : state) :
  snekio.from_path [snekio.OPath file; snekio.OInt limit] st
  = (Raise (builtin_exn TypeError), st).
Proof. reflexivity. Qed.

Lemma attachments_loop_outcome (opts : options) (files : list pathlib.PurePath) (st : state) :
  attachments_loop opts files st =
  ([], if existsb (λ file, match fs st !! pathlib.parts file with
                            | Some (File _ _) => true
                            | _ => false
                            end) files
       then Raise (builtin_exn TypeError) else Ok tt).
Proof.
  induction files as [|file files IH]; [done|].
  cbn [attachments_loop existsb]. unfold io.is_file, io.lookup_node, bind, ret.
  destruct (fs st !! pathlib.parts file) as [[m|m data|m]|]; cbn [orb]; try exact IH.
  by rewrite from_path_two_arguments.
Qed.

(** Whatever the options and the state, the generator yields nothing. *)
Lemma attachments_yields_nothing (opts : options) (st : state) :
  (attachments opts st).1 = [].
Proof.
  unfold attachments. repeat case_match; rewrite ?attachments_loop_outcome; done.
Qed.

Lemma attachments_options (opts opts' : options) (st : state) :
  attachments opts st = attachments opts' st.
Proof.
  unfold attachments. repeat case_match; rewrite ?attachments_loop_outcome; done.
Qed.

(** C2.  With the regular file [home/output.txt] in an acquired
    directory, [attachments] yields nothing and ends with the
    [TypeError] of the call [from_path(file, MAX_FILE_SIZE)]; the call
    [from_path(file)] would have loaded the file under its base name. *)
Theorem attachments_raises_TypeError :
  let file := pathlib.joinpath inputs.home_dir (lit "output.txt") in
  self_path inputs.one_output = Some inputs.root_dir
  ∧ fs inputs.one_output !! pathlib.parts file = Some (File 420 (blit "42"))
  ∧ attachments MemFSOptions inputs.one_output = ([], Raise (builtin_exn TypeError))
  ∧ (snekio.from_path [snekio.OPath file] inputs.one_output).1
    = Ok (snekio.mk_attachment (lit "output.txt") (snekio.Binary (blit "42"))).
Proof. repeat split; vm_compute; reflexivity. Qed.

(** C10 as stated fails in its part on enumeration: with three regular
    files and a directory that match [output*], no attachment is yielded. *)
Lemma attachments_three_outputs :
  (∀ name, name ∈ [lit "output1.txt"; lit "output2.txt"; lit "output3.txt"] →
     ∃ mode data,
       fs inputs.three_outputs !! pathlib.parts (pathlib.joinpath inputs.home_dir name)
       = Some (File mode data))
  ∧ (attachments MemFSOptions inputs.three_outputs).1 = [].
Proof.
  split; [|apply attachments_yields_nothing].
  intros name Hname. rewrite !elem_of_cons, elem_of_nil in Hname.
  destruct Hname as [->|[->|[->|[]]]]; eexists _, _; vm_compute; reflexivity.
Qed.

Lemma from_path_loads (file : pathlib.PurePath) (mode : N) (data : bytes) (st : state) :
  fs st !! pathlib.parts file = Some (File mode data) →
  snekio.from_path [snekio.OPath file] st
  = (Ok (snekio.mk_attachment (pathlib.name file) (snekio.Binary data)), st).
Proof.
  intros Hfile. cbn [snekio.from_path]. unfold bind, io.read_bytes. by rewrite Hfile.
Qed.

(** C10 (as amended).  No limit is enforced: the enumeration of outputs
    is the same for all values of the options, so it depends neither on
    [MAX_FILES] nor on [MAX_FILE_SIZE]; [from_path] called with a file
    returns all its bytes, and [from_dict] all the bytes its content
    decodes to, however many they are. *)
Theorem limits_not_enforced (opts opts' : options) (st : state)
    (file : pathlib.PurePath) (mode : N) (name : str) (data : bytes) :
  attachments opts st = attachments opts' st
  ∧ (fs st !! pathlib.parts file = Some (File mode data) →
     snekio.from_path [snekio.OPath file] st
     = (Ok (snekio.mk_attachment (pathlib.name file) (snekio.Binary data)), st))
  ∧ (snekio.path_checks_pass name = true →
     snekio.from_dict
       (<[ lit "name" := VStr name ]>
          {[ lit "content" := VStr (Byte.to_N <$> base64.b64encode data) ]})
     = Ok (snekio.mk_attachment name (snekio.Binary data))).
Proof.
  split; [apply attachments_options|]. split; [apply from_path_loads|].
  intros Hpass.
  rewrite (snekio_facts.from_dict_checked _ name); [| apply lookup_insert_eq | done].
  rewrite lookup_insert_ne by snekio_facts.lit_ne. rewrite lookup_singleton_eq.
  cbn [default from_option id].
  pose proof (b64decode_b64encode data) as Hdec.
  unfold decode_ascii in Hdec. rewrite b64encode_ascii in Hdec.
  cbn [rbind] in Hdec. by rewrite Hdec.
Qed.

Lemma limits_not_enforced_witness :
  snekio.from_path
    [snekio.OPath (pathlib.joinpath inputs.home_dir (lit "output.txt"))] inputs.one_output
  = (Ok (snekio.mk_attachment (lit "output.txt") (snekio.Binary (blit "42"))),
     inputs.one_output)
  ∧ snekio.from_dict (inputs.named_with "f" "NDI=")
    = Ok (snekio.mk_attachment (lit "f") (snekio.Binary (blit "42"))).
Proof.
  pose proof (limits_not_enforced MemFSOptions MemFSOptions inputs.one_output
                (pathlib.joinpath inputs.home_dir (lit "output.txt")) 420
                (lit "f") (blit "42")) as (_ & Hload & Hdecode).
  split.
  - apply Hload. vm_compute. reflexivity.
  - apply Hdecode. vm_compute. reflexivity.
Defined.

(** *** The write bracket *)

Lemma chmod_root_ok (mode : N) (st : state) (path : pathlib.PurePath) (n : node) :
  self_path st = Some path →
  fs st !! pathlib.parts path = Some n →
  chmod_root mode st
  = (Ok tt, set_fs (<[ pathlib.parts path := io.with_mode n mode ]>) st).
Proof.
  intros Hpath Hn. unfold chmod_root, bind, get. rewrite Hpath.
  unfold io.chmod. by rewrite Hn.
Qed.

(** When the body returns, the statement ends with the second [chmod]. *)
Lemma allow_write_return (body : M unit) (st st1 st2 : state) :
  chmod_root o777 st = (Ok tt, st1) →
  body st1 = (Ok tt, st2) →
  io.with_ allow_write body st = chmod_root o555 st2.
Proof.
  intros Henter Hbody. unfold io.with_.
  rewrite (bind_ok _ _ _ _ _ Henter). by rewrite Hbody.
Qed.

(** When the body raises, the statement ends in the state the body
    left: nothing runs after the [yield]. *)
Lemma allow_write_raise (body : M unit) (st st1 st2 : state) (e : exn) :
  chmod_root o777 st = (Ok tt, st1) →
  body st1 = (Raise e, st2) →
  io.with_ allow_write body st = (Raise e, st2).
Proof.
  intros Henter Hbody. unfold io.with_.
  rewrite (bind_ok _ _ _ _ _ Henter). by rewrite Hbody.
Qed.

(** The root of an acquired directory is writable inside the bracket
    and read+execute-only after a body that returns. *)
Lemma allow_write_restores_on_return (body : M unit) (st st2 : state)
    (path : pathlib.PurePath) (m : N) :
  self_path st = Some path →
  fs st !! pathlib.parts path = Some (Dir m) →
  let st1 := set_fs (<[ pathlib.parts path := Dir o777 ]>) st in
  body st1 = (Ok tt, st2) →
  self_path st2 = Some path →
  is_Some (fs st2 !! pathlib.parts path) →
  fs st1 !! pathlib.parts path = Some (Dir o777)
  ∧ ∃ st3, io.with_ allow_write body st = (Ok tt, st3)
           ∧ io.mode_of <$> fs st3 !! pathlib.parts path = Some o555.
Proof.
  intros Hpath Hdir st1 Hbody Hpath2 [n Hn]. split; [apply lookup_insert_eq|].
  rewrite (allow_write_return body st st1 st2);
    [| by rewrite (chmod_root_ok _ _ path (Dir m)) | done].
  rewrite (chmod_root_ok _ _ path n) by done.
  eexists. split; [reflexivity|]. cbn [fs set_fs].
  rewrite lookup_insert_eq. by destruct n.
Qed.

(** C1.  In an acquired directory, whose root has mode 0o555, a body
    that raises inside [allow_write] (here [from_dict] rejecting the
    name ["../x"]) leaves the root with mode 0o777: the exception leaves
    the statement and the root is not restored.  A body that returns
    (here the input ["input.py"] is saved) leaves it with 0o555. *)
Theorem allow_write_not_restored_on_raise :
  let st := inputs.acquired inputs.env_ok in
  let raised := io.with_ allow_write (inputs.stage (inputs.named "../x")) st in
  let returned :=
    io.with_ allow_write (inputs.stage (inputs.named_with "input.py" "cHJpbnQoMSk=")) st in
  self_path st = Some inputs.root_dir
  ∧ fs st !! pathlib.parts inputs.root_dir = Some (Dir o555)
  ∧ raised.1 = Raise (snekio.may_not_use_traversal (lit "../x"))
  ∧ fs raised.2 !! pathlib.parts inputs.root_dir = Some (Dir o777)
  ∧ returned.1 = Ok tt
  ∧ fs returned.2 !! pathlib.parts inputs.root_dir = Some (Dir o555)
  ∧ fs returned.2 !! pathlib.parts (pathlib.joinpath inputs.root_dir (lit "input.py"))
    = Some (File 420 (blit "print(1)")).
Proof. repeat split; vm_compute; reflexivity. Qed.

(** *** Names and paths of temporary directories *)

Lemma hexdigit_mod (x : N) : io.hexdigit x = io.hexdigit (x mod 16).
Proof. unfold io.hexdigit. by rewrite N.Div0.mod_mod. Qed.

Lemma hexdigit_plain (x : N) :
  io.hexdigit x ≠ pathlib.sep ∧ io.hexdigit x ≠ pathlib.dot.
Proof.
  rewrite hexdigit_mod.
  assert (H : (negb (io.hexdigit (x mod 16) =? pathlib.sep)
               && negb (io.hexdigit (x mod 16) =? pathlib.dot)) = true).
  { apply (forall_below 16 (λ y, negb (io.hexdigit y =? pathlib.sep)
                                 && negb (io.hexdigit y =? pathlib.dot))).
    - vm_compute. reflexivity.
    - apply N.mod_lt. done. }
  apply andb_true_iff in H as [H1 H2].
  apply negb_true_iff, N.eqb_neq in H1, H2. done.
Qed.

Lemma hex_plain (n : N) (digits : list nat) :
  Forall (λ c, c ≠ pathlib.sep) (io.hex n digits).
Proof.
  unfold io.hex. apply Forall_fmap, Forall_forall. intros i _. apply hexdigit_plain.
Qed.

Lemma str_of_uuid_plain (n : N) : pathlib.sep ∉ io.str_of_uuid n.
Proof.
  assert (H : Forall (λ c, c ≠ pathlib.sep) (io.str_of_uuid n)).
  { unfold io.str_of_uuid.
    repeat first [ apply Forall_app; split; [apply hex_plain|]
                 | apply Forall_cons; split; [done|]
                 | apply hex_plain ]. }
  rewrite Forall_forall in H. intros Hin. by apply (H _ Hin).
Qed.

Lemma str_of_uuid_length (n : N) : length (io.str_of_uuid n) = 36%nat.
Proof. reflexivity. Qed.

(** The name of a UUID is one path component. *)
Lemma str_of_uuid_component (n : N) :
  (∀ s, io.str_of_uuid n ≠ pathlib.sep :: s)
  ∧ pathlib.components (io.str_of_uuid n) = [io.str_of_uuid n].
Proof.
  pose proof (str_of_uuid_plain n) as Hplain.
  pose proof (str_of_uuid_length n) as Hlen.
  split.
  - intros s Hs. apply Hplain. rewrite Hs. left.
  - unfold pathlib.components. rewrite pathlib_facts.split_no_sep by done.
    rewrite filter_cons_True; [done|].
    split; intros Heq; rewrite Heq in Hlen; discriminate Hlen.
Qed.

Lemma memfs_path_component (name : str) :
  (∀ s, name ≠ pathlib.sep :: s) →
  pathlib.components name = [name] →
  memfs_path name = pathlib.mk_path [pathlib.sep] (memfs_key name).
Proof.
  intros Hrel Hcomp. unfold memfs_path, pathlib.Path. cbn [pathlib.parse_parts].
  rewrite decide_True by done.
  assert (pathlib.splitroot name = ([], name)) as ->.
  { unfold pathlib.splitroot. destruct name as [|c s]; [done|].
    rewrite decide_False; [done|]. intros ->. by eapply Hrel. }
  rewrite Hcomp. reflexivity.
Qed.

Lemma os_mkdir_ok (p : pathlib.PurePath) (mode m : N) (st : state) :
  fs st !! pathlib.parts p = None →
  fs st !! pathlib.parts (io.parent p) = Some (Dir m) →
  io.os_mkdir p mode st
  = (Ok tt, set_fs (<[ pathlib.parts p := Dir (N.ldiff mode (umask (env st))) ]>) st).
Proof. intros Hp Hparent. unfold io.os_mkdir. by rewrite Hp, Hparent. Qed.

Lemma os_mkdir_no_parent (p : pathlib.PurePath) (mode : N) (st : state) :
  fs st !! pathlib.parts p = None →
  fs st !! pathlib.parts (io.parent p) = None →
  io.os_mkdir p mode st = (Raise (builtin_exn FileNotFoundError), st).
Proof. intros Hp Hparent. unfold io.os_mkdir. by rewrite Hp, Hparent. Qed.

Lemma mkdir_ok (p : pathlib.PurePath) (mode m : N) (exist_ok : bool) (st : state) :
  fs st !! pathlib.parts p = None →
  fs st !! pathlib.parts (io.parent p) = Some (Dir m) →
  io.mkdir p mode exist_ok st
  = (Ok tt, set_fs (<[ pathlib.parts p := Dir (N.ldiff mode (umask (env st))) ]>) st).
Proof. intros Hp Hparent. unfold io.mkdir. by rewrite (os_mkdir_ok p mode m). Qed.

Lemma mkdir_parents_memfs (name : str) (st : state) (m0 : N) :
  let tmp := pathlib.mk_path [pathlib.sep] (memfs_key name) in
  fs st !! [[pathlib.sep]] = Some (Dir m0) →
  dir_or_absent st [[pathlib.sep]; lit "snekbox"] →
  dir_or_absent st [[pathlib.sep]; lit "snekbox"; lit "memfs"] →
  fs st !! memfs_key name = None →
  ∃ st', io.mkdir_parents 4 tmp o777 true st = (Ok tt, st')
         ∧ fs st' !! memfs_key name = Some (Dir (N.ldiff o777 (umask (env st))))
         ∧ same_but_fs st st'.
Proof.
  intros tmp Hroot Hsnekbox Hmemfs Hfresh.
  pose (memfs := pathlib.mk_path [pathlib.sep] [[pathlib.sep]; lit "snekbox"; lit "memfs"]).
  pose (snekbox := pathlib.mk_path [pathlib.sep] [[pathlib.sep]; lit "snekbox"]).
  assert (Hp1 : io.parent tmp = memfs) by reflexivity.
  assert (Hp2 : io.parent memfs = snekbox) by reflexivity.
  assert (Hne1 : io.parent tmp ≠ tmp) by (rewrite Hp1; intros [=]).
  assert (Hne2 : io.parent memfs ≠ memfs) by (rewrite Hp2; intros [=]).
  destruct Hmemfs as [Hmemfs | [m2 Hmemfs]].
  - destruct Hsnekbox as [Hsnekbox | [m1 Hsnekbox]].
    + (* neither /snekbox nor /snekbox/memfs exists *)
      eexists. split; [|split].
      * cbn [io.mkdir_parents].
        rewrite (os_mkdir_no_parent tmp) by done. cbn [exn_cls builtin_exn].
        rewrite decide_True by done. rewrite decide_False by done.
        unfold bind at 1. cbn [io.mkdir_parents].
        rewrite (os_mkdir_no_parent memfs) by done. cbn [exn_cls builtin_exn].
        rewrite decide_True by done. rewrite decide_False by done.
        unfold bind at 1.
        rewrite (os_mkdir_ok snekbox _ m0) by done.
        rewrite (mkdir_ok memfs _ (N.ldiff o777 (umask (env st)))); cycle 1.
        { cbn [fs set_fs]. by rewrite lookup_insert_ne. }
        { cbn [fs set_fs]. apply lookup_insert_eq. }
        rewrite (mkdir_ok tmp _ (N.ldiff o777 (umask (env st)))); cycle 1.
        { cbn [fs set_fs]. by rewrite !lookup_insert_ne. }
        { cbn [fs set_fs]. apply lookup_insert_eq. }
        reflexivity.
      * cbn [fs set_fs]. apply lookup_insert_eq.
      * repeat split.
    + eexists. split; [|split].
      * cbn [io.mkdir_parents].
        rewrite (os_mkdir_no_parent tmp) by done. cbn [exn_cls builtin_exn].
        rewrite decide_True by done. rewrite decide_False by done.
        unfold bind at 1. cbn [io.mkdir_parents].
        rewrite (os_mkdir_ok memfs _ m1) by done.
        rewrite (mkdir_ok tmp _ (N.ldiff o777 (umask (env st)))); cycle 1.
        { cbn [fs set_fs]. by rewrite !lookup_insert_ne. }
        { cbn [fs set_fs]. apply lookup_insert_eq. }
        reflexivity.
      * cbn [fs set_fs]. apply lookup_insert_eq.
      * repeat split.
  - eexists. split; [|split].
    + cbn [io.mkdir_parents]. rewrite (os_mkdir_ok tmp _ m2) by done. reflexivity.
    + cbn [fs set_fs]. apply lookup_insert_eq.
    + repeat split.
Qed.

Lemma chmod_ok (p : pathlib.PurePath) (mode : N) (n : node) (st : state) :
  fs st !! pathlib.parts p = Some n →
  io.chmod p mode st = (Ok tt, set_fs (<[ pathlib.parts p := io.with_mode n mode ]>) st).
Proof. intros Hn. unfold io.chmod. by rewrite Hn. Qed.

Lemma under_refl (k : list str) : io.under k k.
Proof. unfold io.under. induction k as [|x k IH]; cbn; [done|]. by rewrite decide_True. Qed.

Lemma under_app (k l : list str) : io.under k (k ++ l).
Proof. unfold io.under. induction k as [|x k IH]; cbn; [done|]. by rewrite decide_True. Qed.

Lemma lookup_not_under (dir k : list str) (f : gmap (list str) node) :
  io.under dir k → filter (λ kn, ¬ io.under dir kn.1) f !! k = None.
Proof.
  intros Hu. apply map_lookup_filter_None. right. intros n _ Hn. by apply Hn.
Qed.

(** Mounting a fresh name: the directory is made, mounted, and left
    with mode 0o711 and nothing below it. *)
Lemma mount_tmpfs_fresh (opts : options) (name : str) (st : state) (m0 : N) :
  (∀ s, name ≠ pathlib.sep :: s) →
  pathlib.components name = [name] →
  fs st !! [[pathlib.sep]] = Some (Dir m0) →
  dir_or_absent st [[pathlib.sep]; lit "snekbox"] →
  dir_or_absent st [[pathlib.sep]; lit "snekbox"; lit "memfs"] →
  fs st !! memfs_key name = None →
  mount_succeeds (env st) (memfs_key name) = true →
  ∃ st', mount_tmpfs opts name st = (Ok (memfs_path name), st')
         ∧ fs st' !! memfs_key name = Some (Dir o711)
         ∧ (∀ k, io.under (memfs_key name) k → k ≠ memfs_key name → fs st' !! k = None)
         ∧ (∃ covered, mounts st' = (memfs_key name, covered) :: mounts st)
         ∧ trace st' = trace st ++ [EvCall (mount_argv opts (memfs_path name))]
         ∧ env st' = env st ∧ uuid_calls st' = uuid_calls st
         ∧ assigned_names st' = assigned_names st ∧ self_path st' = self_path st.
Proof.
  intros Hrel Hcomp Hroot Hsnekbox Hmemfs Hfresh Hmount.
  destruct (mkdir_parents_memfs name st m0 Hroot Hsnekbox Hmemfs Hfresh)
    as (st1 & Hmk & Hdir & Henv & Hmounts & Huuid & Hpool & Hself & Htrace).
  unfold mount_tmpfs, mount_argv. rewrite (memfs_path_component name Hrel Hcomp).
  set (tmp := pathlib.mk_path [pathlib.sep] (memfs_key name)).
  unfold io.exists_, io.is_dir, io.lookup_node.
  unfold bind at 1 2 3 4. cbn [ret pathlib.parts tmp]. rewrite Hfresh.
  cbn [bool_decide negb orb]. rewrite bool_decide_eq_false_2 by (by intros [? [=]]).
  cbn [negb orb].
  unfold bind at 1 2. change (length (memfs_key name)) with 4%nat.
  fold tmp in Hmk. rewrite Hmk. cbv beta iota.
  unfold bind at 1. rewrite (chmod_ok tmp _ _ st1 Hdir). cbv beta iota.
  unfold bind at 1. unfold io.check_call_mount. cbn [fs set_fs pathlib.parts tmp env].
  rewrite lookup_insert_eq. cbn [io.with_mode]. rewrite Henv, Hmount. cbv beta iota.
  erewrite chmod_ok; [| cbn [fs set_fs log_event set_mounts pathlib.parts tmp];
                        apply lookup_insert_eq].
  unfold ret.
  eexists. split; [reflexivity|].
  cbn [fs set_fs log_event set_mounts mounts trace env uuid_calls assigned_names
       self_path pathlib.parts tmp io.with_mode].
  split; [apply lookup_insert_eq|]. split.
  { intros k Hunder Hne. rewrite !lookup_insert_ne by done. by apply lookup_not_under. }
  split; [rewrite Hmounts; by eexists|].
  rewrite Htrace, Huuid, Hpool, Hself. done.
Qed.

Lemma coming_name_draw (st : state) (i : nat) :
  coming_name (draw st) i = coming_name st (S i).
Proof. unfold coming_name. cbn [draw env uuid_calls log_event set_uuid_calls]. by rewrite Nat.add_succ_r. Qed.

Lemma draws_fields (n : nat) (st : state) :
  env (draws n st) = env st ∧ fs (draws n st) = fs st ∧ mounts (draws n st) = mounts st
  ∧ assigned_names (draws n st) = assigned_names st
  ∧ self_path (draws n st) = self_path st
  ∧ uuid_calls (draws n st) = (uuid_calls st + n)%nat
  ∧ trace (draws n st) = trace st ++ (EvUuid <$> (coming_name st <$> seq 0 n))
  ∧ ∀ i, coming_name (draws n st) i = coming_name st (n + i).
Proof.
  revert st. induction n as [|n IH]; intros st.
  - cbn [draws seq fmap list_fmap]. rewrite app_nil_r, Nat.add_0_r. done.
  - cbn [draws]. destruct (IH (draw st)) as (-> & -> & -> & -> & -> & -> & -> & Hname).
    cbn [draw env fs mounts assigned_names self_path uuid_calls trace
         log_event set_uuid_calls].
    repeat split; [lia | | ].
    + rewrite <- app_assoc. f_equal. cbn [seq fmap list_fmap app]. f_equal.
      rewrite <- fmap_S_seq, <- !list_fmap_compose.
      apply list_fmap_ext. intros _ i _. unfold compose. by rewrite coming_name_draw.
    + intros i. by rewrite Hname, coming_name_draw.
Qed.

Lemma enter_loop_collision (opts : options) (n : nat) (st : state) :
  coming_name st 0 ∈ assigned_names st →
  enter_loop opts (S n) st = enter_loop opts n (draw st).
Proof.
  intros Hin. cbn [enter_loop]. unfold bind at 1. unfold io.uuid4_str. cbv beta iota zeta.
  unfold bind at 1. unfold get. cbv beta iota.
  rewrite decide_False; [done|]. intros Hnot. by apply Hnot.
Qed.

Lemma enter_loop_collisions (opts : options) (k n : nat) (st : state) :
  (∀ i, (i < k)%nat → coming_name st i ∈ assigned_names st) →
  enter_loop opts (k + n) st = enter_loop opts n (draws k st).
Proof.
  revert st. induction k as [|k IH]; intros st Hall; [done|].
  cbn [Nat.add draws]. rewrite enter_loop_collision by (apply Hall; lia).
  apply IH. intros i Hi. rewrite coming_name_draw. apply Hall. lia.
Qed.

Lemma joinpath_home (root : str) (key : list str) :
  pathlib.joinpath (pathlib.mk_path root key) (lit "home")
  = pathlib.mk_path root (key ++ [lit "home"]).
Proof. reflexivity. Qed.

Lemma enter_loop_free (opts : options) (n : nat) (st : state) (m0 : N) :
  let name := coming_name st 0 in
  name ∉ assigned_names st →
  fs st !! [[pathlib.sep]] = Some (Dir m0) →
  dir_or_absent st [[pathlib.sep]; lit "snekbox"] →
  dir_or_absent st [[pathlib.sep]; lit "snekbox"; lit "memfs"] →
  fs st !! memfs_key name = None →
  mount_succeeds (env st) (memfs_key name) = true →
  ∃ st', enter_loop opts (S n) st = (Ok tt, st')
         ∧ self_path st' = Some (memfs_path name)
         ∧ fs st' !! memfs_key name = Some (Dir o555)
         ∧ fs st' !! (memfs_key name ++ [lit "home"]) = Some (Dir o777)
         ∧ assigned_names st' = {[ name ]} ∪ assigned_names st
         ∧ uuid_calls st' = S (uuid_calls st)
         ∧ (∃ covered, mounts st' = (memfs_key name, covered) :: mounts st)
         ∧ trace st' = trace st ++ [EvUuid name; EvCall (mount_argv opts (memfs_path name));
                                    EvPoolAdd name]
         ∧ env st' = env st.
Proof.
  intros name Hfree Hroot Hsnekbox Hmemfs Hfresh Hmount.
  destruct (str_of_uuid_component (io.uuid4_int (urandom (env st) (uuid_calls st))))
    as [Hrel Hcomp].
  change (io.str_of_uuid _) with name in Hrel, Hcomp.
  destruct (mount_tmpfs_fresh opts name (draw st) m0 Hrel Hcomp Hroot Hsnekbox Hmemfs
              Hfresh Hmount)
    as (st1 & Hmt & Hdir & Hbelow & [covered Hmounts] & Htrace & Henv & Huuid & Hpool & Hself).
  cbn [enter_loop]. unfold bind at 1. unfold io.uuid4_str. cbv beta iota zeta.
  change (io.str_of_uuid (io.uuid4_int (urandom (env st) (uuid_calls st)))) with name.
  change (log_event (EvUuid name) _) with (draw st).
  unfold bind at 1. unfold get. cbv beta iota.
  rewrite decide_True by done.
  unfold bind at 1. rewrite Hmt. cbv beta iota.
  rewrite (memfs_path_component name Hrel Hcomp) in *.
  set (tmp := pathlib.mk_path [pathlib.sep] (memfs_key name)) in *.
  unfold bind at 1. unfold modify at 1. cbv beta iota.
  unfold bind at 1. erewrite chmod_ok by (cbn [fs set_self_path]; exact Hdir).
  cbv beta iota.
  change (pathlib.joinpath tmp (lit "home"))
    with (pathlib.mk_path [pathlib.sep] (memfs_key name ++ [lit "home"])).
  unfold bind at 1. erewrite mkdir_ok; cycle 1.
  { cbn [fs set_fs set_self_path pathlib.parts]. rewrite lookup_insert_ne.
    - apply Hbelow; [apply under_app|]. intros H. apply (f_equal length) in H.
      rewrite length_app in H. cbn in H. lia.
    - intros H. apply (f_equal length) in H. rewrite length_app in H. cbn in H. lia. }
  { cbn [fs set_fs set_self_path pathlib.parts].
    change (io.parent _) with tmp. apply lookup_insert_eq. }
  cbv beta iota.
  unfold bind at 1. erewrite chmod_ok by (cbn [fs set_fs pathlib.parts]; apply lookup_insert_eq).
  cbv beta iota. unfold modify.
  eexists. split; [reflexivity|].
  cbn [fs set_fs log_event set_mounts set_self_path set_assigned_names mounts trace env
       uuid_calls assigned_names self_path pathlib.parts tmp io.with_mode].
  split; [done|]. split.
  { assert (Hne : memfs_key name ++ [lit "home"] ≠ memfs_key name).
    { intros H. apply (f_equal length) in H. rewrite length_app in H. cbn in H. lia. }
    rewrite lookup_insert_ne by done. rewrite lookup_insert_ne by done.
    apply lookup_insert_eq. }
  split; [apply lookup_insert_eq|].
  rewrite Hpool, Huuid, Hmounts, Htrace, Henv.
  cbn [draw fs set_fs log_event set_uuid_calls mounts trace env uuid_calls assigned_names].
  repeat split; eauto. by rewrite <- !app_assoc.
Qed.

Lemma with_lock_eval {A} (body : M A) (st st' : state) (r : result A) :
  body (log_event EvAcquire st) = (r, st') →
  io.with_lock body st = (r, log_event EvRelease st').
Proof.
  intros Hbody. unfold io.with_lock. unfold bind, modify, finally. cbv beta iota.
  rewrite Hbody. by destruct r.
Qed.

Lemma enter_loop_exhausted (opts : options) (st : state) :
  enter_loop opts 0 st = (Raise name_exhausted, st).
Proof. reflexivity. Qed.

Lemma fs_log_event (e : event) (s : state) : fs (log_event e s) = fs s.
Proof. reflexivity. Qed.
Lemma mounts_log_event (e : event) (s : state) : mounts (log_event e s) = mounts s.
Proof. reflexivity. Qed.
Lemma assigned_names_log_event (e : event) (s : state) :
  assigned_names (log_event e s) = assigned_names s.
Proof. reflexivity. Qed.
Lemma self_path_log_event (e : event) (s : state) : self_path (log_event e s) = self_path s.
Proof. reflexivity. Qed.
Lemma uuid_calls_log_event (e : event) (s : state) : uuid_calls (log_event e s) = uuid_calls s.
Proof. reflexivity. Qed.
Lemma env_log_event (e : event) (s : state) : env (log_event e s) = env s.
Proof. reflexivity. Qed.
Lemma trace_log_event (e : event) (s : state) : trace (log_event e s) = trace s ++ [e].
Proof. reflexivity. Qed.
Lemma coming_name_log_event (e : event) (s : state) (i : nat) :
  coming_name (log_event e s) i = coming_name s i.
Proof. reflexivity. Qed.

Lemma enter_acquires (opts : options) (st : state) :
  (∀ (k : nat) (m0 : N),
     let name := coming_name st k in
     (k < 10)%nat →
     (∀ i, (i < k)%nat → coming_name st i ∈ assigned_names st) →
     name ∉ assigned_names st →
     fs st !! [[pathlib.sep]] = Some (Dir m0) →
     dir_or_absent st [[pathlib.sep]; lit "snekbox"] →
     dir_or_absent st [[pathlib.sep]; lit "snekbox"; lit "memfs"] →
     fs st !! memfs_key name = None →
     mount_succeeds (env st) (memfs_key name) = true →
     ∃ st', __enter__ opts st = (Ok tt, st')
            ∧ self_path st' = Some (memfs_path name)
            ∧ pathlib.parts (memfs_path name) = memfs_key name
            ∧ fs st' !! memfs_key name = Some (Dir o555)
            ∧ fs st' !! (memfs_key name ++ [lit "home"]) = Some (Dir o777)
            ∧ assigned_names st' = {[ name ]} ∪ assigned_names st
            ∧ uuid_calls st' = (uuid_calls st + S k)%nat
            ∧ (∃ covered, mounts st' = (memfs_key name, covered) :: mounts st)
            ∧ trace st' = trace st ++ [EvAcquire]
                          ++ (EvUuid <$> (coming_name st <$> seq 0 (S k)))
                          ++ [EvCall (mount_argv opts (memfs_path name));
                              EvPoolAdd name; EvRelease]).
Proof.
  intros k m0 name Hk Htaken Hfree Hroot Hsnekbox Hmemfs Hfresh Hmount.
  set (st0 := log_event EvAcquire st).
  destruct (draws_fields k st0) as (Henv & Hfs & Hmounts & Hpool & Hself & Huuid & Htrace & Hname).
  assert (Hname0 : coming_name (draws k st0) 0 = name).
  { rewrite Hname, Nat.add_0_r. reflexivity. }
  destruct (enter_loop_free opts (9 - k) (draws k st0) m0) as (st' & Hrun & H).
  { by rewrite Hname0, Hpool. }
  { by rewrite Hfs. }
  { unfold dir_or_absent. by rewrite Hfs. }
  { unfold dir_or_absent. by rewrite Hfs. }
  { by rewrite Hname0, Hfs. }
  { by rewrite Hname0, Henv. }
  assert (Hloop : enter_loop opts 10 st0 = (Ok tt, st')).
  { replace 10%nat with (k + S (9 - k))%nat by lia.
    rewrite enter_loop_collisions by exact Htaken. exact Hrun. }
  apply with_lock_eval in Hloop.
  destruct H as (Hp & Hroot' & Hhome & Hpool' & Huuid' & [covered Hmounts'] & Htrace' & Henv').
  rewrite Hname0 in *.
  destruct (str_of_uuid_component (io.uuid4_int (urandom (env st) (k + uuid_calls st))))
    as [Hrel Hcomp].
  eexists. split; [exact Hloop|].
  cbn [fs mounts assigned_names self_path uuid_calls trace log_event].
  rewrite Hp, Hroot', Hhome, Hpool', Hpool, Huuid', Huuid, Hmounts', Hmounts, Htrace', Htrace.
  rewrite (memfs_path_component name Hrel Hcomp).
  repeat split; eauto.
  change (trace st0) with (trace st ++ [EvAcquire]).
  change (coming_name st0) with (coming_name st).
  rewrite seq_S, !fmap_app. rewrite <- !app_assoc. reflexivity.
Qed.

Lemma enter_loop_all_taken (opts : options) (st : state) :
  (∀ i, (i < 10)%nat → coming_name st i ∈ assigned_names st) →
  enter_loop opts 10 st = (Raise name_exhausted, draws 10 st).
Proof. intros Htaken. exact (enter_loop_collisions opts 10 0 st Htaken). Qed.

Lemma enter_all_taken (opts : options) (st : state) :
  (∀ i, (i < 10)%nat → coming_name st i ∈ assigned_names st) →
  __enter__ opts st
  = (Raise name_exhausted, log_event EvRelease (draws 10 (log_event EvAcquire st))).
Proof. intros Htaken. apply with_lock_eval. apply enter_loop_all_taken. exact Htaken. Qed.

Lemma enter_exhausts (opts : options) (st : state) :
  ((∀ i, (i < 10)%nat → coming_name st i ∈ assigned_names st) →
     ∃ st', __enter__ opts st = (Raise name_exhausted, st')
            ∧ fs st' = fs st ∧ mounts st' = mounts st
            ∧ assigned_names st' = assigned_names st
            ∧ self_path st' = self_path st
            ∧ uuid_calls st' = (uuid_calls st + 10)%nat
            ∧ trace st' = trace st ++ [EvAcquire]
                          ++ (EvUuid <$> (coming_name st <$> seq 0 10)) ++ [EvRelease]).
Proof.
  intros Htaken.
  destruct (draws_fields 10 (log_event EvAcquire st))
    as (Henv & Hfs & Hmounts & Hpool & Hself & Huuid & Htrace & _).
  exists (log_event EvRelease (draws 10 (log_event EvAcquire st))).
  split; [by apply enter_all_taken|].
  rewrite fs_log_event, mounts_log_event, assigned_names_log_event, self_path_log_event,
    uuid_calls_log_event, trace_log_event.
  rewrite Hfs, Hmounts, Hpool, Hself, Huuid, Htrace.
  rewrite fs_log_event, mounts_log_event, assigned_names_log_event, self_path_log_event,
    uuid_calls_log_event, trace_log_event.
  rewrite <- !app_assoc.
  do 5 (split; [reflexivity|]). reflexivity.
Qed.

(** *** Operations that leave the pool and the instance alone *)

Lemma keeps_pool_bind {A B} (m : M A) (k : A → M B) :
  keeps_pool m → (∀ a, keeps_pool (k a)) → keeps_pool (bind m k).
Proof.
  intros Hm Hk st r st'. unfold bind.
  destruct (m st) as [[a|e] st1] eqn:Hrun.
  - intros Hk'. destruct (Hm _ _ _ Hrun) as [<- <-]. by eapply Hk.
  - intros [= <- <-]. by eapply Hm.
Qed.

Lemma keeps_pool_ret {A} (a : A) : keeps_pool (ret a).
Proof. by intros st r st' [= <- <-]. Qed.

Lemma keeps_pool_os_mkdir (p : pathlib.PurePath) (mode : N) : keeps_pool (io.os_mkdir p mode).
Proof. intros st r st'. unfold io.os_mkdir. repeat case_match; by intros [= <- <-]. Qed.

Lemma keeps_pool_mkdir (p : pathlib.PurePath) (mode : N) (exist_ok : bool) :
  keeps_pool (io.mkdir p mode exist_ok).
Proof.
  intros st r st'. unfold io.mkdir.
  destruct (io.os_mkdir p mode st) as [[[]|e] st1] eqn:Hmk;
    apply keeps_pool_os_mkdir in Hmk as [Hpool Hself].
  - by intros [= <- <-].
  - unfold io.is_dir, io.lookup_node, bind, ret.
    repeat case_match; by intros [= <- <-].
Qed.

Lemma keeps_pool_mkdir_parents (fuel : nat) (p : pathlib.PurePath) (mode : N)
    (exist_ok : bool) :
  keeps_pool (io.mkdir_parents fuel p mode exist_ok).
Proof.
  revert p mode exist_ok. induction fuel as [|fuel IH]; intros p mode exist_ok st r st';
    cbn [io.mkdir_parents];
    destruct (io.os_mkdir p mode st) as [[[]|e] st1] eqn:Hmk;
    apply keeps_pool_os_mkdir in Hmk as [Hpool Hself];
    try (by intros [= <- <-]).
  - unfold io.is_dir, io.lookup_node, bind, ret. repeat case_match; by intros [= <- <-].
  - destruct (decide (exn_cls e = FileNotFoundError)).
    + destruct (decide (io.parent p = p)); [by intros [= <- <-]|].
      intros Hrun. rewrite <- Hpool, <- Hself. revert Hrun.
      apply keeps_pool_bind; [apply IH | intros _; apply keeps_pool_mkdir].
    + unfold io.is_dir, io.lookup_node, bind, ret. repeat case_match; by intros [= <- <-].
Qed.

Lemma keeps_pool_chmod (p : pathlib.PurePath) (mode : N) : keeps_pool (io.chmod p mode).
Proof. intros st r st'. unfold io.chmod. case_match; by intros [= <- <-]. Qed.

Lemma keeps_pool_exists (p : pathlib.PurePath) : keeps_pool (io.exists_ p).
Proof. by intros st r st' [= <- <-]. Qed.

Lemma keeps_pool_is_dir (p : pathlib.PurePath) : keeps_pool (io.is_dir p).
Proof. by intros st r st' [= <- <-]. Qed.

Lemma keeps_pool_mount (argv : list str) (p : pathlib.PurePath) :
  keeps_pool (io.check_call_mount argv p).
Proof. intros st r st'. unfold io.check_call_mount. repeat case_match; by intros [= <- <-]. Qed.

Lemma keeps_pool_umount (argv : list str) (p : pathlib.PurePath) :
  keeps_pool (io.check_call_umount argv p).
Proof. intros st r st'. unfold io.check_call_umount. repeat case_match; by intros [= <- <-]. Qed.

Lemma keeps_pool_rmtree (p : pathlib.PurePath) : keeps_pool (io.rmtree_ignore_errors p).
Proof. intros st r st'. unfold io.rmtree_ignore_errors. case_match; by intros [= <- <-]. Qed.

Lemma keeps_pool_mount_tmpfs (opts : options) (name : str) : keeps_pool (mount_tmpfs opts name).
Proof.
  unfold mount_tmpfs.
  apply keeps_pool_bind; [apply keeps_pool_exists|]. intros e.
  apply keeps_pool_bind; [apply keeps_pool_is_dir|]. intros d.
  apply keeps_pool_bind; [|intros _; apply keeps_pool_ret].
  destruct (negb e || negb d); [|apply keeps_pool_ret].
  repeat (apply keeps_pool_bind; [|intros _]);
    auto using keeps_pool_mkdir_parents, keeps_pool_chmod, keeps_pool_mount.
Qed.

Lemma keeps_pool_unmount_tmpfs (name : str) : keeps_pool (unmount_tmpfs name).
Proof.
  unfold unmount_tmpfs.
  apply keeps_pool_bind; [apply keeps_pool_exists|]. intros e.
  apply keeps_pool_bind; [apply keeps_pool_is_dir|]. intros d.
  destruct (e && d); [|apply keeps_pool_ret].
  apply keeps_pool_bind; [apply keeps_pool_umount | intros _; apply keeps_pool_rmtree].
Qed.

Lemma bind_Ok_inv {A B} (m : M A) (k : A → M B) (st st' : state) (b : B) :
  bind m k st = (Ok b, st') →
  ∃ a st1, m st = (Ok a, st1) ∧ k a st1 = (Ok b, st').
Proof.
  unfold bind. destruct (m st) as [[a|e] st1]; [|done]. intros Hk. by exists a, st1.
Qed.

Lemma mount_tmpfs_returns (opts : options) (name : str) (st st' : state)
    (p : pathlib.PurePath) :
  mount_tmpfs opts name st = (Ok p, st') → p = memfs_path name.
Proof.
  unfold mount_tmpfs. intros H.
  apply bind_Ok_inv in H as (e & s1 & _ & H).
  apply bind_Ok_inv in H as (d & s2 & _ & H).
  apply bind_Ok_inv in H as (u & s3 & _ & H).
  by injection H as <- _.
Qed.

(** What a successful [__enter__] selected was not in the pool. *)
Lemma enter_loop_selects_free (opts : options) (n : nat) (st st' : state) :
  enter_loop opts n st = (Ok tt, st') →
  ∃ i, (coming_name st i ∉ assigned_names st)
       ∧ self_path st' = Some (memfs_path (coming_name st i))
       ∧ assigned_names st' = {[ coming_name st i ]} ∪ assigned_names st.
Proof.
  revert st. induction n as [|n IH]; intros st; [done|].
  cbn [enter_loop]. unfold bind at 1. unfold io.uuid4_str. cbv beta iota zeta.
  change (io.str_of_uuid (io.uuid4_int (urandom (env st) (uuid_calls st))))
    with (coming_name st 0).
  change (log_event (EvUuid (coming_name st 0)) _) with (draw st).
  unfold bind at 1. unfold get. cbv beta iota.
  destruct (decide (coming_name st 0 ∉ assigned_names (draw st))) as [Hfree|Htaken].
  - intros H. exists 0%nat. split; [exact Hfree|].
    apply bind_Ok_inv in H as (p & s1 & Hmt & H).
    pose proof (mount_tmpfs_returns _ _ _ _ _ Hmt) as ->.
    apply keeps_pool_mount_tmpfs in Hmt as [Hpool1 _].
    apply bind_Ok_inv in H as ([] & s2 & [= <-] & H).
    apply bind_Ok_inv in H as ([] & s3 & H3 & H). apply keeps_pool_chmod in H3 as [Hp3 Hs3].
    apply bind_Ok_inv in H as ([] & s4 & H4 & H). apply keeps_pool_mkdir in H4 as [Hp4 Hs4].
    apply bind_Ok_inv in H as ([] & s5 & H5 & H). apply keeps_pool_chmod in H5 as [Hp5 Hs5].
    injection H as <-.
    cbn [self_path assigned_names log_event set_assigned_names].
    rewrite Hs5, Hs4, Hs3, Hp5, Hp4, Hp3. cbn [self_path assigned_names set_self_path].
    by rewrite Hpool1.
  - intros H. destruct (IH _ H) as (i & Hfree & Hself & Hpool).
    exists (S i). rewrite coming_name_draw in *. done.
Qed.

Lemma with_lock_Ok_inv {A} (body : M A) (st st' : state) (a : A) :
  io.with_lock body st = (Ok a, st') →
  ∃ st1, body (log_event EvAcquire st) = (Ok a, st1) ∧ st' = log_event EvRelease st1.
Proof.
  unfold io.with_lock, bind, modify, finally. cbv beta iota.
  destruct (body _) as [[a'|e] st1]; [|done]. intros [= -> <-]. by exists st1.
Qed.

Lemma enter_selects_free (opts : options) (st st' : state) :
  __enter__ opts st = (Ok tt, st') →
  ∃ i, (coming_name st i ∉ assigned_names st)
       ∧ self_path st' = Some (memfs_path (coming_name st i))
       ∧ pathlib.name (memfs_path (coming_name st i)) = coming_name st i.
Proof.
  intros H. apply with_lock_Ok_inv in H as (st1 & H & ->).
  apply enter_loop_selects_free in H as (i & Hfree & Hself & _).
  exists i. split; [exact Hfree|]. split; [exact Hself|].
  destruct (str_of_uuid_component (io.uuid4_int (urandom (env st) (i + uuid_calls st))))
    as [Hrel Hcomp].
  change (coming_name (log_event EvAcquire st) i) with (coming_name st i).
  unfold coming_name. by rewrite (memfs_path_component _ Hrel Hcomp).
Qed.

(** *** Release *)

Lemma cleanup_released (st : state) : self_path st = None → cleanup st = (Ok tt, st).
Proof. intros Hnone. unfold cleanup, bind, get. by rewrite Hnone. Qed.

Lemma cleanup_eval (st st_u : state) (path : pathlib.PurePath) :
  self_path st = Some path →
  pathlib.name path ∈ assigned_names st →
  unmount_tmpfs (pathlib.name path) st = (Ok tt, st_u) →
  cleanup st =
  (Ok tt,
   if decide (fs st_u !! pathlib.parts path = None) then
     set_self_path None
       (log_event EvRelease
          (log_event (EvPoolRemove (pathlib.name path))
             (set_assigned_names (λ s, s ∖ {[ pathlib.name path ]})
                (log_event EvAcquire st_u))))
   else set_self_path None (log_event (EvWarning (failed_to_remove path)) st_u)).
Proof.
  intros Hpath Hin Hun.
  destruct (keeps_pool_unmount_tmpfs _ _ _ _ Hun) as [Hpool Hself].
  unfold cleanup. unfold bind at 1. unfold get at 1. cbv beta iota. rewrite Hpath.
  unfold bind at 1. rewrite Hun. cbv beta iota.
  unfold bind at 1. unfold io.exists_, io.lookup_node. unfold bind at 1. cbv beta iota.
  unfold ret at 1. cbv beta iota.
  destruct (decide (fs st_u !! pathlib.parts path = None)) as [Hgone|Hthere].
  - rewrite Hgone. rewrite bool_decide_eq_false_2 by (by intros [? [=]]).
    cbn [negb]. unfold bind at 1.
    rewrite (with_lock_eval _ _
               (log_event (EvPoolRemove (pathlib.name path))
                  (set_assigned_names (λ s, s ∖ {[ pathlib.name path ]})
                     (log_event EvAcquire st_u))) (Ok tt)); [done|].
    unfold pool_remove, bind, get, modify. cbv beta iota.
    cbn [assigned_names log_event]. rewrite Hpool. by rewrite decide_True.
  - rewrite bool_decide_eq_true_2; [done|].
    destruct (fs st_u !! pathlib.parts path); [by eexists | done].
Qed.

(** C8.  For an instance with a path whose name is in the pool, when
    the unmount does not fail: [cleanup] returns without an error and
    leaves the instance without a path; the name is out of the pool
    afterwards exactly when the root path is absent after the unmount.
    If the path is absent the name is removed while the lock is held;
    if it still exists the pool is unchanged and a warning is logged.
    A second [cleanup] changes nothing, and no later [__enter__] that
    finds the name in the pool returns a directory of that name. *)
Theorem cleanup_releases_name (st st_u : state) (path : pathlib.PurePath) :
  self_path st = Some path →
  pathlib.name path ∈ assigned_names st →
  unmount_tmpfs (pathlib.name path) st = (Ok tt, st_u) →
  let name := pathlib.name path in
  let st' := (cleanup st).2 in
  (cleanup st).1 = Ok tt
  ∧ self_path st' = None
  ∧ fs st' = fs st_u
  ∧ (name ∉ assigned_names st' ↔ fs st_u !! pathlib.parts path = None)
  ∧ (fs st_u !! pathlib.parts path = None →
     assigned_names st' = assigned_names st ∖ {[ name ]}
     ∧ trace st' = trace st_u ++ [EvAcquire; EvPoolRemove name; EvRelease])
  ∧ (fs st_u !! pathlib.parts path ≠ None →
     assigned_names st' = assigned_names st
     ∧ trace st' = trace st_u ++ [EvWarning (failed_to_remove path)])
  ∧ cleanup st' = (Ok tt, st')
  ∧ (∀ opts st1 st2,
       name ∈ assigned_names st1 →
       __enter__ opts st1 = (Ok tt, st2) →
       pathlib.name <$> self_path st2 ≠ Some name).
Proof.
  intros Hpath Hin Hun name st'.
  destruct (keeps_pool_unmount_tmpfs _ _ _ _ Hun) as [Hpool Hself].
  subst st'. rewrite (cleanup_eval st st_u path Hpath Hin Hun). cbn [fst snd].
  split; [done|].
  destruct (decide (fs st_u !! pathlib.parts path = None)) as [Hgone|Hthere];
    cbn [self_path fs assigned_names trace set_self_path log_event set_assigned_names];
    rewrite ?Hpool.
  - split; [done|]. split; [done|].
    split; [split; [done | intros _ [_ Hn]%elem_of_difference; by apply Hn, elem_of_singleton]|].
    split; [intros _; split; [done | by rewrite <- !app_assoc]|].
    split; [done|]. split; [by apply cleanup_released|].
    intros opts st1 st2 Hin1 Henter.
    apply enter_selects_free in Henter as (i & Hfree & -> & Hname).
    cbn [fmap option_fmap option_map]. rewrite Hname. intros [= Heq].
    apply Hfree. by rewrite Heq.
  - split; [done|]. split; [done|]. split; [split; [by intros H; destruct H | done]|].
    split; [done|]. split; [done|]. split; [by apply cleanup_released|].
    intros opts st1 st2 Hin1 Henter.
    apply enter_selects_free in Henter as (i & Hfree & -> & Hname).
    cbn [fmap option_fmap option_map]. rewrite Hname. intros [= Heq].
    apply Hfree. by rewrite Heq.
Qed.

Lemma cleanup_releases_name_witness :
  let kept := cleanup (inputs.acquired inputs.env_rmtree_fails) in
  kept.1 = Ok tt ∧ self_path kept.2 = None
  ∧ (pathlib.name inputs.root_dir ∉ assigned_names kept.2
     ↔ fs (unmount_tmpfs (pathlib.name inputs.root_dir)
             (inputs.acquired inputs.env_rmtree_fails)).2
          !! pathlib.parts inputs.root_dir = None).
Proof.
  pose proof (cleanup_releases_name (inputs.acquired inputs.env_rmtree_fails)
                (unmount_tmpfs (pathlib.name inputs.root_dir)
                   (inputs.acquired inputs.env_rmtree_fails)).2
                inputs.root_dir) as H.
  destruct H as (H1 & H2 & _ & H3 & _).
  - vm_compute. reflexivity.
  - vm_compute. reflexivity.
  - vm_compute. reflexivity.
  - exact (conj H1 (conj H2 H3)).
Defined.

(** The two ends of a release, evaluated: the name leaves the pool when
    the directory is gone, and stays, with a warning, when it is not. *)
Example cleanup_removed_and_kept :
  let name := lit "00000000-0000-4000-8000-000000000000" in
  let removed := (cleanup (inputs.acquired inputs.env_ok)).2 in
  let kept := (cleanup (inputs.acquired inputs.env_rmtree_fails)).2 in
  fs removed !! pathlib.parts inputs.root_dir = None
  ∧ elements (assigned_names removed) = []
  ∧ fs kept !! pathlib.parts inputs.root_dir = Some (Dir o777)
  ∧ elements (assigned_names kept) = [name]
  ∧ last (trace kept) = Some (EvWarning (failed_to_remove inputs.root_dir)).
Proof. repeat split; vm_compute; reflexivity. Qed.

End memfs_facts.

(** ** memfs: every state, every outcome *)

Module memfs_more.
Import os memfs memfs_facts notions.

(** *** Creating a directory with its parents *)

Lemma take_removelast {A} (K : list A) (i : nat) :
  (i < length K)%nat → take i (removelast K) = take i K.
Proof.
  intros Hi. destruct K as [|x K] using rev_ind; [cbn in Hi; lia|].
  rewrite removelast_last. rewrite length_app in Hi. cbn in Hi.
  rewrite take_app_le by lia. done.
Qed.

Lemma removelast_take {A} (K : list A) : removelast K = take (length K - 1) K.
Proof.
  destruct K as [|x K] using rev_ind; [done|].
  rewrite removelast_last, length_app. cbn [length].
  replace (length K + 1 - 1)%nat with (length K) by lia.
  by rewrite take_app_length.
Qed.

Lemma length_removelast {A} (K : list A) : length (removelast K) = (length K - 1)%nat.
Proof. rewrite removelast_take, length_take. lia. Qed.

Lemma parent_parts (p : pathlib.PurePath) :
  (2 ≤ length (pathlib.parts p))%nat →
  io.parent p = pathlib.mk_path (pathlib.root p) (removelast (pathlib.parts p))
  ∧ io.parent p ≠ p.
Proof.
  intros Hlen. unfold io.parent. rewrite decide_False by lia. split; [done|].
  destruct p as [r K]. cbn [pathlib.parts pathlib.root] in *. intros [= Heq].
  apply (f_equal length) in Heq. rewrite length_removelast in Heq. lia.
Qed.

Lemma mkdir_parents_creates (fuel : nat) (p : pathlib.PurePath) (mode : N) (st : state)
    (j : nat) :
  let K := pathlib.parts p in
  missing_below st K j →
  (length K - j ≤ fuel)%nat →
  ∃ st', io.mkdir_parents fuel p mode true st = (Ok tt, st')
         ∧ (∀ i, (j < i < length K)%nat →
                 fs st' !! take i K = Some (Dir (N.ldiff o777 (umask (env st)))))
         ∧ ((j < length K)%nat → fs st' !! K = Some (Dir (N.ldiff mode (umask (env st)))))
         ∧ (∀ q, (∀ i, (j < i ≤ length K)%nat → q ≠ take i K) → fs st' !! q = fs st !! q)
         ∧ same_but_fs st st'.
Proof.
  revert p mode st. induction fuel as [|fuel IH]; intros p mode st K (Hj & [m Hdir] & Hnone) Hfuel.
  - (* the directory exists *)
    assert (j = length K) as -> by lia. rewrite firstn_all in Hdir.
    exists st. split; [|split; [intros; lia | split; [lia | split; [done | repeat split]]]].
    cbn [io.mkdir_parents]. unfold io.os_mkdir. fold K. rewrite Hdir.
    cbn [exn_cls builtin_exn]. rewrite decide_False by done. cbn [negb].
    unfold io.is_dir, io.lookup_node, bind, ret. fold K. by rewrite Hdir.
  - destruct (decide (j = length K)) as [->|Hjlt].
    { rewrite firstn_all in Hdir.
      exists st. split; [|split; [intros; lia | split; [lia | split; [done | repeat split]]]].
      cbn [io.mkdir_parents]. unfold io.os_mkdir. fold K. rewrite Hdir.
      cbn [exn_cls builtin_exn]. rewrite decide_False by done. cbn [negb].
      unfold io.is_dir, io.lookup_node, bind, ret. fold K. by rewrite Hdir. }
    assert (Habsent : fs st !! K = None).
    { rewrite <- (firstn_all K). apply Hnone. lia. }
    destruct (parent_parts p) as [Hparent Hne]; [fold K; lia|]. fold K in Hparent.
    assert (HKp : pathlib.parts (io.parent p) = removelast K) by (by rewrite Hparent).
    destruct (decide (j = length K - 1)%nat) as [Hj1|Hj1].
    + (* the parent exists *)
      assert (Hpdir : fs st !! removelast K = Some (Dir m)).
      { rewrite removelast_take, <- Hj1. exact Hdir. }
      eexists. split; [|split; [|split; [|split]]].
      * cbn [io.mkdir_parents]. unfold io.os_mkdir. fold K. rewrite Habsent, HKp, Hpdir.
        reflexivity.
      * intros i Hi. lia.
      * intros _. cbn [fs set_fs]. apply lookup_insert_eq.
      * intros q Hq. cbn [fs set_fs]. rewrite lookup_insert_ne; [done|].
        intros Heq. apply (Hq (length K)); [lia|]. by rewrite firstn_all.
      * repeat split.
    + (* the parent is missing: it is created first *)
      assert (Hpnone : fs st !! removelast K = None).
      { rewrite removelast_take. apply Hnone. lia. }
      destruct (IH (io.parent p) o777 st) as (st1 & Hrun & Hmid & Hlast & Hframe & Hsame).
      { rewrite HKp. split; [rewrite length_removelast; lia|]. split.
        - exists m. rewrite take_removelast by lia. exact Hdir.
        - intros i Hi. rewrite length_removelast in Hi.
          rewrite take_removelast by lia. apply Hnone. lia. }
      { rewrite HKp, length_removelast. lia. }
      rewrite HKp in *. rewrite length_removelast in *.
      destruct Hsame as (Henv & Hmounts & Huuid & Hpool & Hself & Htrace).
      assert (HK1 : fs st1 !! K = None).
      { rewrite Hframe; [done|]. intros i Hi Heq. apply (f_equal length) in Heq.
        rewrite length_take, length_removelast in Heq. lia. }
      eexists. split; [|split; [|split; [|split]]].
      * cbn [io.mkdir_parents]. unfold io.os_mkdir at 1. fold K. rewrite Habsent, HKp, Hpnone.
        cbn [exn_cls builtin_exn]. rewrite decide_True by done. rewrite decide_False by done.
        unfold bind at 1. rewrite Hrun.
        unfold io.mkdir, io.os_mkdir. fold K. rewrite HK1, HKp, Hlast by lia.
        reflexivity.
      * intros i Hi. cbn [fs set_fs]. rewrite Henv.
        rewrite lookup_insert_ne.
        2:{ intros Heq. apply (f_equal length) in Heq. rewrite length_take in Heq. lia. }
        destruct (decide (i = length K - 1)%nat) as [->|Hi'].
        -- rewrite <- removelast_take. apply Hlast. lia.
        -- rewrite <- (take_removelast K i) by lia. apply Hmid. lia.
      * intros _. cbn [fs set_fs]. rewrite Henv. apply lookup_insert_eq.
      * intros q Hq. cbn [fs set_fs]. rewrite lookup_insert_ne.
        2:{ intros Heq. apply (Hq (length K)); [lia|]. by rewrite firstn_all. }
        apply Hframe. intros i Hi. rewrite take_removelast by lia. apply Hq. lia.
      * cbn [env mounts uuid_calls assigned_names self_path trace set_fs]. done.
Qed.


(** *** Saving an attachment and loading it again *)

Lemma missing_below_parent_dir (st st1 : state) (Kp : list str) (j : nat) :
  missing_below st Kp j →
  ((j < length Kp)%nat → ∃ m, fs st1 !! Kp = Some (Dir m)) →
  (∀ q, (∀ i, (j < i ≤ length Kp)%nat → q ≠ take i Kp) → fs st1 !! q = fs st !! q) →
  ∃ m, fs st1 !! Kp = Some (Dir m).
Proof.
  intros (Hj & [m Hdir] & _) Hlast Hframe.
  destruct (decide (j = length Kp)) as [->|Hlt]; [|apply Hlast; lia].
  exists m. rewrite Hframe; [by rewrite firstn_all in Hdir|]. intros i Hi. lia.
Qed.




(** *** What the operations leave alone *)

Lemma lock_balance_app (tr : list event) (e : event) :
  lock_balance (tr ++ [e]) = (lock_balance tr + lock_delta e)%Z.
Proof.
  unfold lock_balance. induction tr as [|x tr IH]; cbn [foldr app]; [lia|].
  rewrite IH. lia.
Qed.

Lemma quiet_step_refl (S : list str → Prop) (st : state) : quiet_step S st st.
Proof. repeat split; done. Qed.

Lemma quiet_step_trans (S : list str → Prop) (st1 st2 st3 : state) :
  quiet_step S st1 st2 → quiet_step S st2 st3 → quiet_step S st1 st3.
Proof.
  intros (He1 & Hu1 & Hp1 & Hs1 & Hl1 & Hf1) (He2 & Hu2 & Hp2 & Hs2 & Hl2 & Hf2).
  split; [congruence|]. split; [congruence|]. split; [congruence|]. split; [congruence|].
  split; [congruence|]. intros Hwf. destruct (Hf1 Hwf) as [Hwf2 Hfs1].
  destruct (Hf2 Hwf2) as [Hwf3 Hfs2]. split; [done|].
  intros q Hq. rewrite Hfs2, Hfs1; done.
Qed.

Lemma quiet_step_mono (S S' : list str → Prop) (st st' : state) :
  (∀ q, S q → S' q) → quiet_step S st st' → quiet_step S' st st'.
Proof.
  intros Hsub (He & Hu & Hp & Hs & Hl & Hf). repeat (split; [done|]).
  intros Hwf. destruct (Hf Hwf) as [Hwf' Hfs]. split; [done|]. intros q Hq. apply Hfs. auto.
Qed.

Lemma quiet_mono (S S' : list str → Prop) {A} (m : M A) :
  (∀ q, S q → S' q) → quiet S m → quiet S' m.
Proof. intros Hsub Hm st r st' Hrun. eapply quiet_step_mono; [exact Hsub | by eapply Hm]. Qed.

Lemma quiet_bind (S : list str → Prop) {A B} (m : M A) (k : A → M B) :
  quiet S m → (∀ a, quiet S (k a)) → quiet S (bind m k).
Proof.
  intros Hm Hk st r st'. unfold bind.
  destruct (m st) as [[a|e] st1] eqn:Hrun.
  - intros Hk'. eapply quiet_step_trans; [by eapply Hm | by eapply Hk].
  - intros [= <- <-]. by eapply Hm.
Qed.

Lemma quiet_ret (S : list str → Prop) {A} (a : A) : quiet S (ret a).
Proof. intros st r st' [= <- <-]. apply quiet_step_refl. Qed.

Lemma quiet_raise (S : list str → Prop) {A} (e : exn) : quiet S (raise (A:=A) e).
Proof. intros st r st' [= <- <-]. apply quiet_step_refl. Qed.

Lemma quiet_lift (S : list str → Prop) {A} (x : result A) : quiet S (lift x).
Proof. intros st r st' [= <- <-]. apply quiet_step_refl. Qed.

Lemma quiet_get (S : list str → Prop) : quiet S get.
Proof. intros st r st' [= <- <-]. apply quiet_step_refl. Qed.

Lemma quiet_exists (S : list str → Prop) (p : pathlib.PurePath) : quiet S (io.exists_ p).
Proof. intros st r st' [= <- <-]. apply quiet_step_refl. Qed.

Lemma quiet_is_dir (S : list str → Prop) (p : pathlib.PurePath) : quiet S (io.is_dir p).
Proof. intros st r st' [= <- <-]. apply quiet_step_refl. Qed.

(** One entry of the file system is set. *)
Lemma quiet_step_insert (S : list str → Prop) (st : state) (k : list str) (n : node) :
  S k → quiet_step S st (set_fs (<[ k := n ]>) st).
Proof.
  intros Hk. do 5 (split; [done|]). intros Hwf. split; [exact Hwf|].
  intros q Hq. cbn [fs set_fs]. apply lookup_insert_ne. by intros ->.
Qed.

Lemma quiet_os_mkdir (S : list str → Prop) (p : pathlib.PurePath) (mode : N) :
  S (pathlib.parts p) ∨ io.parent p = p → quiet S (io.os_mkdir p mode).
Proof.
  intros HS st r st'. unfold io.os_mkdir.
  destruct (fs st !! pathlib.parts p) eqn:Hp; [intros [= <- <-]; apply quiet_step_refl|].
  destruct HS as [HS | Heq].
  - repeat case_match; intros [= <- <-];
      first [apply quiet_step_refl | by apply quiet_step_insert].
  - rewrite Heq, Hp. intros [= <- <-]. apply quiet_step_refl.
Qed.

Lemma quiet_mkdir (S : list str → Prop) (p : pathlib.PurePath) (mode : N) (exist_ok : bool) :
  S (pathlib.parts p) ∨ io.parent p = p → quiet S (io.mkdir p mode exist_ok).
Proof.
  intros HS st r st'. unfold io.mkdir.
  destruct (io.os_mkdir p mode st) as [[[]|e] st1] eqn:Hmk;
    apply (quiet_os_mkdir S p mode HS) in Hmk.
  - by intros [= <- <-].
  - unfold io.is_dir, io.lookup_node, bind, ret. repeat case_match; by intros [= <- <-].
Qed.

Lemma parent_fixed (p : pathlib.PurePath) :
  pathlib.root p ≠ [] → ¬ (2 ≤ length (pathlib.parts p))%nat → io.parent p = p.
Proof.
  intros Hroot H2. unfold io.parent. destruct p as [rt [|x [|y K]]]; cbn in *.
  - by rewrite decide_False by lia.
  - by rewrite decide_True.
  - lia.
Qed.

(** [mkdir(parents=True)] sets entries at the path and at its ancestors,
    never at the root. *)
Lemma quiet_mkdir_parents (S : list str → Prop) (fuel : nat) (p : pathlib.PurePath)
    (mode : N) (exist_ok : bool) :
  pathlib.root p ≠ [] →
  (∀ i, (2 ≤ i ≤ length (pathlib.parts p))%nat → S (take i (pathlib.parts p))) →
  quiet S (io.mkdir_parents fuel p mode exist_ok).
Proof.
  revert p mode exist_ok. induction fuel as [|fuel IH]; intros p mode exist_ok Hroot HS.
  all: assert (Hp : S (pathlib.parts p) ∨ io.parent p = p)
    by (destruct (decide (2 ≤ length (pathlib.parts p))%nat) as [H2|H2];
        [ left; rewrite <- (firstn_all (pathlib.parts p)); apply HS; lia
        | right; by apply parent_fixed ]).
  all: intros st r st'; cbn [io.mkdir_parents];
    destruct (io.os_mkdir p mode st) as [[[]|e] st1] eqn:Hmk;
    apply (quiet_os_mkdir S p mode Hp) in Hmk; [by intros [= <- <-]|].
  - unfold io.is_dir, io.lookup_node, bind, ret. repeat case_match; by intros [= <- <-].
  - destruct (decide (exn_cls e = FileNotFoundError)).
    + destruct (decide (io.parent p = p)) as [Heq|Hne]; [by intros [= <- <-]|].
      intros Hrun. eapply quiet_step_trans; [exact Hmk|]. revert Hrun.
      assert (H2 : (2 ≤ length (pathlib.parts p))%nat).
      { destruct (decide (2 ≤ length (pathlib.parts p))%nat); [done|].
        exfalso. by apply Hne, parent_fixed. }
      destruct (parent_parts p H2) as [Hparent _].
      apply quiet_bind; [|intros _; by apply quiet_mkdir].
      apply IH.
      * by rewrite Hparent.
      * rewrite Hparent. cbn [pathlib.parts]. intros i Hi. rewrite length_removelast in Hi.
        rewrite take_removelast by lia. apply HS. lia.
    + unfold io.is_dir, io.lookup_node, bind, ret. repeat case_match; by intros [= <- <-].
Qed.

Lemma quiet_chmod (S : list str → Prop) (p : pathlib.PurePath) (mode : N) :
  S (pathlib.parts p) → quiet S (io.chmod p mode).
Proof.
  intros HS st r st'. unfold io.chmod. case_match; intros [= <- <-];
    [by apply quiet_step_insert | apply quiet_step_refl].
Qed.

Lemma quiet_rmtree (S : list str → Prop) (p : pathlib.PurePath) :
  (∀ q, io.under (pathlib.parts p) q → S q) → quiet S (io.rmtree_ignore_errors p).
Proof.
  intros HS st r st'. unfold io.rmtree_ignore_errors.
  case_match; intros [= <- <-]; [|apply quiet_step_refl].
  do 5 (split; [done|]). intros Hwf. split; [exact Hwf|].
  intros q Hq. cbn [fs set_fs]. rewrite map_lookup_filter.
  destruct (fs st !! q) as [nd|]; [|done]. cbn.
  rewrite option_guard_True; [done|]. cbn. intros Hu. by apply Hq, HS.
Qed.

Lemma quiet_mount (S : list str → Prop) (argv : list str) (p : pathlib.PurePath) :
  (∀ q, io.under (pathlib.parts p) q → S q) → quiet S (io.check_call_mount argv p).
Proof.
  intros HS st r st'. unfold io.check_call_mount.
  repeat case_match; intros [= <- <-]; try apply quiet_step_refl.
  split; [done|]. split; [done|]. split; [done|]. split; [done|]. split.
  { cbn [trace log_event set_mounts set_fs]. rewrite lock_balance_app. cbn. lia. }
  intros Hwf. split.
  - intros k covered q. cbn [mounts log_event set_mounts set_fs].
    intros [[= -> ->]|Hin]%elem_of_cons; [|by apply Hwf].
    intros [nd Hn]. apply map_lookup_filter_Some in Hn as [_ Hu]. exact Hu.
  - intros q Hq. cbn [fs log_event set_mounts set_fs].
    rewrite lookup_insert_ne by (intros <-; apply Hq, HS, under_refl).
    rewrite map_lookup_filter. destruct (fs st !! q) as [nd|]; [|done]. cbn.
    rewrite option_guard_True; [done|]. cbn. intros Hu. by apply Hq, HS.
Qed.

Lemma pop_mount_Some (k : list str) (ms rest : list (list str * gmap (list str) node))
    (covered : gmap (list str) node) :
  io.pop_mount k ms = Some (covered, rest) →
  (k, covered) ∈ ms ∧ ∀ x, x ∈ rest → x ∈ ms.
Proof.
  revert rest. induction ms as [|[k' c'] ms IH]; intros rest; cbn [io.pop_mount]; [done|].
  destruct (decide (k' = k)) as [->|Hne].
  - intros [= -> ->]. split; [left|]. intros x Hx. by right.
  - destruct (io.pop_mount k ms) as [[c r]|]; [|done]. intros [= -> <-].
    destruct (IH r eq_refl) as [Hin Hsub]. split; [by right|].
    intros x [->|Hx]%elem_of_cons; [left | right; by apply Hsub].
Qed.

Lemma quiet_umount (S : list str → Prop) (argv : list str) (p : pathlib.PurePath) :
  (∀ q, io.under (pathlib.parts p) q → S q) → quiet S (io.check_call_umount argv p).
Proof.
  intros HS st r st'. unfold io.check_call_umount.
  destruct (io.pop_mount _ _) as [[covered rest]|] eqn:Hpop;
    [|intros [= <- <-]; apply quiet_step_refl].
  apply pop_mount_Some in Hpop as [Hin Hsub].
  case_match; intros [= <- <-]; [|apply quiet_step_refl].
  split; [done|]. split; [done|]. split; [done|]. split; [done|]. split.
  { cbn [trace log_event set_mounts set_fs]. rewrite lock_balance_app. cbn. lia. }
  intros Hwf. split.
  - intros k c q. cbn [mounts log_event set_mounts set_fs]. intros Hk. by apply Hwf, Hsub.
  - intros q Hq. cbn [fs log_event set_mounts set_fs].
    rewrite lookup_union_r.
    + rewrite map_lookup_filter. destruct (fs st !! q) as [nd|]; [|done]. cbn.
      rewrite option_guard_True; [done|]. cbn. intros Hu. by apply Hq, HS.
    + destruct (covered !! q) eqn:Hc; [|done]. exfalso. apply Hq, HS.
      eapply Hwf; [exact Hin | by eexists].
Qed.


Lemma under_iff (a b : list str) : io.under a b ↔ ∃ l, b = a ++ l.
Proof.
  unfold io.under. revert b. induction a as [|x a IH]; intros b; cbn [io.strip_prefix app].
  - split; [intros _; by exists b | by eexists].
  - destruct b as [|y b]; [split; [by intros [? [=]] | by intros [l [=]]]|].
    destruct (decide (x = y)) as [->|Hne].
    + rewrite IH. split; intros [l Hl]; exists l; congruence.
    + split; [by intros [? [=]] | intros [l [=]]; congruence].
Qed.

Lemma under_trans (a b c : list str) : io.under a b → io.under b c → io.under a c.
Proof.
  rewrite !under_iff. intros [l ->] [l' ->]. exists (l ++ l'). by rewrite app_assoc.
Qed.

Lemma memfs_key_region (name : str) :
  (∀ i, (2 ≤ i ≤ length (memfs_key name))%nat → memfs_region (take i (memfs_key name)))
  ∧ (∀ q, io.under (memfs_key name) q → memfs_region q).
Proof.
  split.
  - intros i Hi. cbn in Hi.
    assert (i = 2 ∨ i = 3 ∨ i = 4)%nat as [-> | [-> | ->]] by lia.
    + by left.
    + right. apply under_refl.
    + right. apply (under_app [[pathlib.sep]; lit "snekbox"; lit "memfs"] [name]).
  - intros q Hq. right. eapply under_trans; [|exact Hq].
    apply (under_app [[pathlib.sep]; lit "snekbox"; lit "memfs"] [name]).
Qed.

(** Mounting and unmounting a directory whose name is one component
    stays within [/snekbox] and below. *)
Lemma quiet_mount_tmpfs (opts : options) (name : str) :
  memfs_path name = pathlib.mk_path [pathlib.sep] (memfs_key name) →
  quiet memfs_region (mount_tmpfs opts name).
Proof.
  intros Hpath. destruct (memfs_key_region name) as [Htake Hunder].
  unfold mount_tmpfs. rewrite Hpath.
  apply quiet_bind; [apply quiet_exists|]. intros e.
  apply quiet_bind; [apply quiet_is_dir|]. intros d.
  apply quiet_bind; [|intros _; apply quiet_ret].
  destruct (negb e || negb d); [|apply quiet_ret].
  apply quiet_bind; [by apply quiet_mkdir_parents|]. intros _.
  apply quiet_bind; [apply quiet_chmod, Hunder, under_refl|]. intros _.
  apply quiet_bind; [by apply quiet_mount|]. intros _.
  apply quiet_chmod, Hunder, under_refl.
Qed.

Lemma quiet_unmount_tmpfs (name : str) :
  memfs_path name = pathlib.mk_path [pathlib.sep] (memfs_key name) →
  quiet memfs_region (unmount_tmpfs name).
Proof.
  intros Hpath. destruct (memfs_key_region name) as [Htake Hunder].
  unfold unmount_tmpfs. rewrite Hpath.
  apply quiet_bind; [apply quiet_exists|]. intros e.
  apply quiet_bind; [apply quiet_is_dir|]. intros d.
  destruct (e && d); [|apply quiet_ret].
  apply quiet_bind; [by apply quiet_umount | intros _; by apply quiet_rmtree].
Qed.

(** Without a condition on the name, for the region of all paths *)
Lemma quiet_everywhere_mkdir_parents (fuel : nat) (p : pathlib.PurePath) (mode : N)
    (exist_ok : bool) :
  quiet (λ _, True) (io.mkdir_parents fuel p mode exist_ok).
Proof.
  revert p mode exist_ok. induction fuel as [|fuel IH]; intros p mode exist_ok st r st';
    cbn [io.mkdir_parents];
    destruct (io.os_mkdir p mode st) as [[[]|e] st1] eqn:Hmk;
    apply (quiet_os_mkdir (λ _, True) p mode (or_introl I)) in Hmk; [by intros [= <- <-]| |
      by intros [= <- <-] |].
  - unfold io.is_dir, io.lookup_node, bind, ret. repeat case_match; by intros [= <- <-].
  - destruct (decide (exn_cls e = FileNotFoundError)).
    + destruct (decide (io.parent p = p)) as [Heq|Hne]; [by intros [= <- <-]|].
      intros Hrun. eapply quiet_step_trans; [exact Hmk|]. revert Hrun.
      apply quiet_bind; [apply IH | intros _; apply quiet_mkdir; by left].
    + unfold io.is_dir, io.lookup_node, bind, ret. repeat case_match; by intros [= <- <-].
Qed.

Lemma quiet_everywhere_mount_tmpfs (opts : options) (name : str) :
  quiet (λ _, True) (mount_tmpfs opts name).
Proof.
  unfold mount_tmpfs.
  apply quiet_bind; [apply quiet_exists|]. intros e.
  apply quiet_bind; [apply quiet_is_dir|]. intros d.
  apply quiet_bind; [|intros _; apply quiet_ret].
  destruct (negb e || negb d); [|apply quiet_ret].
  apply quiet_bind; [apply quiet_everywhere_mkdir_parents|]. intros _.
  apply quiet_bind; [by apply quiet_chmod|]. intros _.
  apply quiet_bind; [by apply quiet_mount|]. intros _.
  by apply quiet_chmod.
Qed.

Lemma quiet_everywhere_unmount_tmpfs (name : str) :
  quiet (λ _, True) (unmount_tmpfs name).
Proof.
  unfold unmount_tmpfs.
  apply quiet_bind; [apply quiet_exists|]. intros e.
  apply quiet_bind; [apply quiet_is_dir|]. intros d.
  destruct (e && d); [|apply quiet_ret].
  apply quiet_bind; [by apply quiet_umount | intros _; by apply quiet_rmtree].
Qed.


Lemma world_step_refl (S : list str → Prop) (st : state) : world_step S st st.
Proof. split; [done|]. split; [done|]. intros Hwf. by split. Qed.

Lemma world_step_trans (S : list str → Prop) (st1 st2 st3 : state) :
  world_step S st1 st2 → world_step S st2 st3 → world_step S st1 st3.
Proof.
  intros (He1 & Hl1 & Hf1) (He2 & Hl2 & Hf2).
  split; [congruence|]. split; [congruence|].
  intros Hwf. destruct (Hf1 Hwf) as [Hwf2 Hfs1].
  destruct (Hf2 Hwf2) as [Hwf3 Hfs2]. split; [done|].
  intros q Hq. rewrite Hfs2, Hfs1; done.
Qed.

Lemma quiet_world_step (S : list str → Prop) (st st' : state) :
  quiet_step S st st' → world_step S st st'.
Proof. intros (He & _ & _ & _ & Hl & Hf). exact (conj He (conj Hl Hf)). Qed.

(** Steps that change neither the file system nor the mounts, and log
    an event that is neither an acquire nor a release *)
Lemma world_step_draw (S : list str → Prop) (st : state) : world_step S st (draw st).
Proof.
  split; [done|]. split.
  - unfold draw. cbn [trace log_event set_uuid_calls]. rewrite lock_balance_app. cbn. lia.
  - intros Hwf. by split.
Qed.

Lemma world_step_set_self_path (S : list str → Prop) (st : state)
    (p : option pathlib.PurePath) :
  world_step S st (set_self_path p st).
Proof. split; [done|]. split; [done|]. intros Hwf. by split. Qed.

Lemma world_step_pool (S : list str → Prop) (st : state) (e : event)
    (f : gset str → gset str) :
  lock_delta e = 0%Z → world_step S st (log_event e (set_assigned_names f st)).
Proof.
  intros He. split; [done|]. split.
  - cbn [trace log_event set_assigned_names]. rewrite lock_balance_app. cbn. lia.
  - intros Hwf. by split.
Qed.

Lemma coming_name_component (st : state) (i : nat) :
  memfs_path (coming_name st i) = pathlib.mk_path [pathlib.sep] (memfs_key (coming_name st i))
  ∧ pathlib.name (memfs_path (coming_name st i)) = coming_name st i.
Proof.
  destruct (str_of_uuid_component (io.uuid4_int (urandom (env st) (i + uuid_calls st))))
    as [Hrel Hcomp].
  unfold coming_name. by rewrite (memfs_path_component _ Hrel Hcomp).
Qed.

(** *** How the operations fail, and what their success tells *)

Lemma os_mkdir_raises (p : pathlib.PurePath) (mode : N) (st st' : state) (e : exn) :
  io.os_mkdir p mode st = (Raise e, st') →
  st' = st
  ∧ (e = builtin_exn FileExistsError ∧ is_Some (fs st !! pathlib.parts p)
     ∨ fs st !! pathlib.parts p = None
       ∧ (e = builtin_exn NotADirectoryError ∨ e = builtin_exn FileNotFoundError)).
Proof.
  unfold io.os_mkdir. destruct (fs st !! pathlib.parts p) as [nd|] eqn:Hp.
  - intros [= <- <-]. split; [done|]. left. by split.
  - repeat case_match; intros [= <- <-]; (split; [done|]); right; split; auto.
Qed.

Lemma is_dir_eval (p : pathlib.PurePath) (st : state) :
  io.is_dir p st
  = (Ok (match fs st !! pathlib.parts p with Some (Dir _) => true | _ => false end), st).
Proof. reflexivity. Qed.

Lemma exists_eval (p : pathlib.PurePath) (st : state) :
  io.exists_ p st = (Ok (bool_decide (is_Some (fs st !! pathlib.parts p))), st).
Proof. reflexivity. Qed.

Lemma os_mkdir_setup_error (p : pathlib.PurePath) (mode : N) (st st' : state) (e : exn) :
  io.os_mkdir p mode st = (Raise e, st') → st' = st ∧ setup_error e.
Proof.
  intros H. apply os_mkdir_raises in H as [-> He]. split; [done|].
  unfold setup_error. destruct He as [[-> _] | [_ [-> | ->]]]; auto.
Qed.

Lemma mkdir_raises (p : pathlib.PurePath) (mode : N) (exist_ok : bool)
    (st st' : state) (e : exn) :
  io.mkdir p mode exist_ok st = (Raise e, st') → st' = st ∧ setup_error e.
Proof.
  unfold io.mkdir. destruct (io.os_mkdir p mode st) as [[[]|e0] s1] eqn:Hmk; [done|].
  apply os_mkdir_setup_error in Hmk as [-> Hs].
  rewrite is_dir_eval. repeat case_match; intros [= <- <-]; done.
Qed.

Lemma mkdir_parents_raises (fuel : nat) (p : pathlib.PurePath) (mode : N)
    (exist_ok : bool) (st st' : state) (e : exn) :
  io.mkdir_parents fuel p mode exist_ok st = (Raise e, st') → setup_error e.
Proof.
  revert p mode exist_ok st. induction fuel as [|fuel IH]; intros p mode exist_ok st;
    cbn [io.mkdir_parents];
    (destruct (io.os_mkdir p mode st) as [[[]|e0] s1] eqn:Hmk; [done|]);
    apply os_mkdir_setup_error in Hmk as [-> Hs];
    rewrite is_dir_eval.
  - repeat case_match; intros [= <- <-]; done.
  - destruct (decide (exn_cls e0 = FileNotFoundError)) as [Hcls|Hcls].
    + destruct (decide (io.parent p = p)) as [Hpar|Hpar]; [by intros [= <- <-]|].
      unfold bind at 1.
      destruct (io.mkdir_parents fuel (io.parent p) o777 true st) as [[[]|ex] sx] eqn:Hup.
      * intros Hmk. by apply mkdir_raises in Hmk as [_ ?].
      * intros [= <- <-]. by apply IH in Hup.
    + repeat case_match; intros [= <- <-]; done.
Qed.

Lemma chmod_Ok_inv (p : pathlib.PurePath) (mode : N) (st st' : state) :
  io.chmod p mode st = (Ok tt, st') →
  ∃ nd, fs st !! pathlib.parts p = Some nd
        ∧ st' = set_fs (<[ pathlib.parts p := io.with_mode nd mode ]>) st.
Proof.
  unfold io.chmod. destruct (fs st !! pathlib.parts p) as [nd|]; [|done].
  intros [= <-]. by exists nd.
Qed.

Lemma chmod_raises (p : pathlib.PurePath) (mode : N) (st st' : state) (e : exn) :
  io.chmod p mode st = (Raise e, st') →
  st' = st ∧ e = builtin_exn FileNotFoundError ∧ fs st !! pathlib.parts p = None.
Proof.
  unfold io.chmod. destruct (fs st !! pathlib.parts p) as [nd|]; [done|].
  by intros [= <- <-].
Qed.

Lemma mkdir_new_Ok_inv (p : pathlib.PurePath) (mode : N) (st st' : state) :
  io.mkdir p mode false st = (Ok tt, st') →
  fs st !! pathlib.parts p = None
  ∧ st' = set_fs (<[ pathlib.parts p := Dir (N.ldiff mode (umask (env st))) ]>) st.
Proof.
  unfold io.mkdir. destruct (io.os_mkdir p mode st) as [[[]|e0] s1] eqn:Hmk.
  - intros [= <-]. revert Hmk. unfold io.os_mkdir.
    repeat case_match; intros [= <-]; done.
  - cbn [negb]. by case_decide.
Qed.

Lemma check_call_mount_raises (argv : list str) (p : pathlib.PurePath)
    (st st' : state) (e : exn) :
  io.check_call_mount argv p st = (Raise e, st') →
  st' = st ∧ e = builtin_exn CalledProcessError.
Proof. unfold io.check_call_mount. repeat case_match; by intros [= <- <-]. Qed.

Lemma check_call_mount_Ok_inv (argv : list str) (p : pathlib.PurePath) (st st' : state) :
  io.check_call_mount argv p st = (Ok tt, st') →
  fs st' !! pathlib.parts p = Some (Dir o1777).
Proof.
  unfold io.check_call_mount. repeat case_match; intros [= <-].
  cbn [fs log_event set_mounts set_fs]. by rewrite lookup_insert_eq.
Qed.

Lemma mount_tmpfs_raises (opts : options) (name : str) (st st' : state) (e : exn) :
  mount_tmpfs opts name st = (Raise e, st') → setup_error e.
Proof.
  unfold mount_tmpfs. unfold bind at 1. rewrite exists_eval. cbv beta iota.
  unfold bind at 1. rewrite is_dir_eval. cbv beta iota.
  destruct (negb _ || negb _); [|done].
  unfold bind at 1.
  destruct (bind (io.mkdir_parents _ _ _ _) _ st) as [[[]|e0] s1] eqn:Hrun; [done|].
  intros [= <- <-]. revert Hrun. unfold bind at 1.
  destruct (io.mkdir_parents _ _ _ _ st) as [[[]|e1] s2] eqn:Hmk.
  2:{ intros [= <- <-]. by apply mkdir_parents_raises in Hmk. }
  unfold bind at 1.
  destruct (io.chmod _ _ s2) as [[[]|e2] s3] eqn:H1.
  2:{ intros [= <- <-]. apply chmod_raises in H1 as (_ & -> & _).
      unfold setup_error. auto. }
  unfold bind at 1.
  destruct (io.check_call_mount _ _ s3) as [[[]|e3] s4] eqn:H2.
  2:{ intros [= <- <-]. apply check_call_mount_raises in H2 as [_ ->].
      unfold setup_error. auto. }
  intros H3. apply chmod_raises in H3 as (_ & -> & _). unfold setup_error. auto.
Qed.

Lemma mount_tmpfs_Ok_dir (opts : options) (name : str) (st st' : state)
    (p : pathlib.PurePath) :
  mount_tmpfs opts name st = (Ok p, st') →
  ∃ m, fs st' !! pathlib.parts (memfs_path name) = Some (Dir m).
Proof.
  unfold mount_tmpfs. unfold bind at 1. rewrite exists_eval. cbv beta iota.
  unfold bind at 1. rewrite is_dir_eval. cbv beta iota.
  destruct (fs st !! pathlib.parts (memfs_path name)) as [[m| |]|] eqn:Hp;
    cbn [negb orb].
  1:{ rewrite bool_decide_eq_true_2 by done. cbn [negb orb].
      intros [= _ <-]. by exists m. }
  all: rewrite ?orb_true_r; intros H;
    apply bind_Ok_inv in H as ([] & s4 & H & [= _ <-]);
    apply bind_Ok_inv in H as ([] & s1 & _ & H);
    apply bind_Ok_inv in H as ([] & s2 & _ & H);
    apply bind_Ok_inv in H as ([] & s3 & Hm & H);
    apply check_call_mount_Ok_inv in Hm;
    apply chmod_Ok_inv in H as (nd & Hnd & ->);
    exists o711; cbn [fs set_fs]; rewrite lookup_insert_eq;
    rewrite Hm in Hnd; by injection Hnd as <-.
Qed.

Lemma rooted_coming_name (st : state) (i : nat) (s : state) :
  self_path s = Some (memfs_path (coming_name st i)) → rooted_in_memfs s.
Proof.
  intros Hs p Hp. rewrite Hs in Hp. injection Hp as <-.
  destruct (coming_name_component st i) as [Hpath Hname].
  rewrite Hname. split; [done|]. by rewrite Hpath.
Qed.

(** What [__enter__] does to the pool and to the world, whatever happens:
    the loop of the source from a state on. *)
Lemma enter_loop_outcome (opts : options) (n : nat) (st st' : state) (r : result unit) :
  enter_loop opts n st = (r, st') →
  world_step memfs_region st st'
  ∧ match r with
    | Ok _ =>
        ∃ i, (i < n)%nat
             ∧ (∀ j, (j < i)%nat → coming_name st j ∈ assigned_names st)
             ∧ (coming_name st i ∉ assigned_names st)
             ∧ assigned_names st' = {[ coming_name st i ]} ∪ assigned_names st
             ∧ self_path st' = Some (memfs_path (coming_name st i))
             ∧ uuid_calls st' = (uuid_calls st + S i)%nat
             ∧ fs st' !! memfs_key (coming_name st i) = Some (Dir o555)
             ∧ fs st' !! (memfs_key (coming_name st i) ++ [lit "home"]) = Some (Dir o777)
    | Raise e =>
        assigned_names st' = assigned_names st
        ∧ (uuid_calls st ≤ uuid_calls st' ≤ uuid_calls st + n)%nat
        ∧ (e = name_exhausted
           ∧ (∀ j, (j < n)%nat → coming_name st j ∈ assigned_names st)
           ∧ self_path st' = self_path st
           ∨ setup_error e
             ∧ ∃ i, (i < n)%nat
                    ∧ (∀ j, (j < i)%nat → coming_name st j ∈ assigned_names st)
                    ∧ (coming_name st i ∉ assigned_names st)
                    ∧ (self_path st' = self_path st
                       ∨ self_path st' = Some (memfs_path (coming_name st i))))
    end.
Proof.
  revert st. induction n as [|n IH]; intros st.
  { intros [= <- <-]. split; [apply world_step_refl|]. split; [done|]. split; [lia|].
    left. split; [done|]. split; [intros j Hj; lia | done]. }
  cbn [enter_loop]. unfold bind at 1. unfold io.uuid4_str. cbv beta iota zeta.
  change (io.str_of_uuid (io.uuid4_int (urandom (env st) (uuid_calls st))))
    with (coming_name st 0).
  change (log_event (EvUuid (coming_name st 0)) _) with (draw st).
  unfold bind at 1. unfold get. cbv beta iota.
  pose proof (world_step_draw memfs_region st) as Hdraw.
  destruct (decide (coming_name st 0 ∉ assigned_names (draw st))) as [Hfree|Htaken].
  - destruct (coming_name_component st 0) as [Hpath _].
    destruct (memfs_key_region (coming_name st 0)) as [_ Hunder].
    assert (Hfirst : ∀ s : state,
              (self_path s = self_path st
               ∨ self_path s = Some (memfs_path (coming_name st 0))) →
              ∃ i, (i < S n)%nat
                   ∧ (∀ j, (j < i)%nat → coming_name st j ∈ assigned_names st)
                   ∧ (coming_name st i ∉ assigned_names st)
                   ∧ (self_path s = self_path st
                      ∨ self_path s = Some (memfs_path (coming_name st i)))).
    { intros s Hs. exists 0%nat. split; [lia|]. split; [intros j Hj; lia|]. by split. }
    set (name := coming_name st 0) in *.
    set (tmp := pathlib.mk_path [pathlib.sep] (memfs_key name)) in *.
    assert (Hhome : pathlib.parts (pathlib.joinpath tmp (lit "home"))
                    = memfs_key name ++ [lit "home"]) by reflexivity.
    assert (HShome : memfs_region (pathlib.parts (pathlib.joinpath tmp (lit "home")))).
    { rewrite Hhome. apply Hunder, under_app. }
    assert (HStmp : memfs_region (pathlib.parts tmp)) by apply Hunder, under_refl.
    unfold bind at 1.
    destruct (mount_tmpfs opts name (draw st)) as [[p|e] s1] eqn:Hmt;
      pose proof (quiet_mount_tmpfs opts name Hpath _ _ _ Hmt) as Q1.
    2:{ intros [= <- <-].
        split; [eapply world_step_trans; [exact Hdraw | by apply quiet_world_step]|].
        destruct Q1 as (_ & Hu & Hp & Hs & _). rewrite Hp, Hu. unfold draw.
        cbn [assigned_names self_path uuid_calls set_self_path log_event
             set_uuid_calls set_assigned_names].
        split; [done|]. split; [lia|]. right.
        split; [by apply mount_tmpfs_raises in Hmt|]. apply Hfirst. by left. }
    pose proof (mount_tmpfs_returns _ _ _ _ _ Hmt) as ->.
    apply mount_tmpfs_Ok_dir in Hmt as [m1 Hdir]. rewrite Hpath in Hdir |- *.
    unfold bind at 1. unfold modify at 1. cbv beta iota.
    unfold bind at 1.
    destruct (io.chmod tmp o555 (set_self_path (Some tmp) s1)) as [[[]|e] s3] eqn:H3;
      pose proof (quiet_chmod memfs_region tmp o555 HStmp _ _ _ H3) as Q3.
    2:{ intros [= <- <-].
        split; [eapply world_step_trans; [exact Hdraw|];
                eapply world_step_trans; [by apply quiet_world_step|];
                eapply world_step_trans; [apply world_step_set_self_path|];
                by apply quiet_world_step|].
        destruct Q1 as (_ & Hu & Hp & _). destruct Q3 as (_ & Hu3 & Hp3 & Hs3 & _).
        rewrite Hp3, Hu3.
        cbn [assigned_names self_path uuid_calls set_self_path log_event
             set_uuid_calls set_assigned_names].
        rewrite Hp, Hu. unfold draw.
        cbn [assigned_names self_path uuid_calls set_self_path log_event
             set_uuid_calls set_assigned_names].
        split; [done|]. split; [lia|]. right.
        split; [apply chmod_raises in H3 as (_ & -> & _); unfold setup_error; auto|].
        apply Hfirst. right. rewrite Hs3. cbn [self_path set_self_path].
        exact (eq_sym (f_equal Some Hpath)). }
    unfold bind at 1.
    destruct (io.mkdir (pathlib.joinpath tmp (lit "home")) o777 false s3)
      as [[[]|e] s4] eqn:H4;
      pose proof (quiet_mkdir memfs_region _ o777 false (or_introl HShome) _ _ _ H4) as Q4.
    2:{ intros [= <- <-].
        split; [eapply world_step_trans; [exact Hdraw|];
                eapply world_step_trans; [by apply quiet_world_step|];
                eapply world_step_trans; [apply world_step_set_self_path|];
                eapply world_step_trans; by apply quiet_world_step|].
        destruct Q1 as (_ & Hu & Hp & _). destruct Q3 as (_ & Hu3 & Hp3 & Hs3 & _).
        destruct Q4 as (_ & Hu4 & Hp4 & Hs4 & _).
        rewrite Hp4, Hu4, Hp3, Hu3.
        cbn [assigned_names self_path uuid_calls set_self_path log_event
             set_uuid_calls set_assigned_names].
        rewrite Hp, Hu. unfold draw.
        cbn [assigned_names self_path uuid_calls set_self_path log_event
             set_uuid_calls set_assigned_names].
        split; [done|]. split; [lia|]. right.
        split; [by apply mkdir_raises in H4 as [_ ?]|].
        apply Hfirst. right. rewrite Hs4, Hs3. cbn [self_path set_self_path].
        exact (eq_sym (f_equal Some Hpath)). }
    unfold bind at 1.
    destruct (io.chmod (pathlib.joinpath tmp (lit "home")) o777 s4) as [[[]|e] s5] eqn:H5;
      pose proof (quiet_chmod memfs_region _ o777 HShome _ _ _ H5) as Q5.
    2:{ intros [= <- <-].
        split; [eapply world_step_trans; [exact Hdraw|];
                eapply world_step_trans; [by apply quiet_world_step|];
                eapply world_step_trans; [apply world_step_set_self_path|];
                eapply world_step_trans; [by apply quiet_world_step|];
                eapply world_step_trans; by apply quiet_world_step|].
        destruct Q1 as (_ & Hu & Hp & _). destruct Q3 as (_ & Hu3 & Hp3 & Hs3 & _).
        destruct Q4 as (_ & Hu4 & Hp4 & Hs4 & _). destruct Q5 as (_ & Hu5 & Hp5 & Hs5 & _).
        rewrite Hp5, Hu5, Hp4, Hu4, Hp3, Hu3.
        cbn [assigned_names self_path uuid_calls set_self_path log_event
             set_uuid_calls set_assigned_names].
        rewrite Hp, Hu. unfold draw.
        cbn [assigned_names self_path uuid_calls set_self_path log_event
             set_uuid_calls set_assigned_names].
        split; [done|]. split; [lia|]. right.
        split; [apply chmod_raises in H5 as (_ & -> & _); unfold setup_error; auto|].
        apply Hfirst. right. rewrite Hs5, Hs4, Hs3. cbn [self_path set_self_path].
        exact (eq_sym (f_equal Some Hpath)). }
    unfold modify. intros [= <- <-].
    split; [eapply world_step_trans; [exact Hdraw|];
            eapply world_step_trans; [by apply quiet_world_step|];
            eapply world_step_trans; [apply world_step_set_self_path|];
            eapply world_step_trans; [by apply quiet_world_step|];
            eapply world_step_trans; [by apply quiet_world_step|];
            eapply world_step_trans; [by apply quiet_world_step|];
            by apply world_step_pool|].
    destruct Q1 as (_ & Hu & Hp & _). destruct Q3 as (_ & Hu3 & Hp3 & Hs3 & _).
    destruct Q4 as (_ & Hu4 & Hp4 & Hs4 & _). destruct Q5 as (_ & Hu5 & Hp5 & Hs5 & _).
    exists 0%nat. split; [lia|]. split; [intros j Hj; lia|]. split; [exact Hfree|].
    cbn [assigned_names self_path uuid_calls fs log_event set_assigned_names].
    rewrite Hp5, Hu5, Hs5, Hp4, Hu4, Hs4, Hp3, Hu3, Hs3.
    cbn [assigned_names self_path uuid_calls set_self_path log_event
         set_uuid_calls set_assigned_names].
    rewrite Hp, Hu. unfold draw.
    cbn [assigned_names self_path uuid_calls set_self_path log_event
         set_uuid_calls set_assigned_names].
    split; [done|]. split; [exact (eq_sym (f_equal Some Hpath))|]. split; [lia|].
    apply chmod_Ok_inv in H3 as (n3 & Hn3 & ->).
    cbn [fs set_self_path] in Hn3. change (pathlib.parts tmp) with (memfs_key name) in *.
    rewrite Hdir in Hn3. injection Hn3 as <-.
    apply mkdir_new_Ok_inv in H4 as (Hn4 & ->). rewrite Hhome in *.
    apply chmod_Ok_inv in H5 as (n5 & Hn5 & ->). rewrite Hhome in *.
    cbn [fs set_fs] in Hn5. rewrite lookup_insert_eq in Hn5. injection Hn5 as <-.
    assert (Hne : memfs_key name ++ [lit "home"] ≠ memfs_key name).
    { intros Heq. apply (f_equal length) in Heq. rewrite length_app in Heq.
      cbn in Heq. lia. }
    cbn [fs set_fs set_self_path io.with_mode]. split.
    + rewrite !lookup_insert_ne by done. by rewrite lookup_insert_eq.
    + by rewrite lookup_insert_eq.
  - intros Hrun. apply IH in Hrun as [Hworld Hr].
    split; [eapply world_step_trans; [exact Hdraw | exact Hworld]|].
    assert (Hin : coming_name st 0 ∈ assigned_names st).
    { destruct (decide (coming_name st 0 ∈ assigned_names st)); [done|]. by exfalso. }
    assert (Hshift : ∀ i, (∀ j, (j < i)%nat → coming_name (draw st) j ∈ assigned_names st) →
                          ∀ j, (j < S i)%nat → coming_name st j ∈ assigned_names st).
    { intros i Hbefore [|j] Hj; [exact Hin|]. rewrite <- coming_name_draw.
      apply Hbefore. lia. }
    destruct r as [[]|e].
    + destruct Hr as (i & Hi & Hbefore & Hfree & Hpool & Hself & Huuid & Hroot & Hhome).
      exists (Datatypes.S i). rewrite coming_name_draw in *.
      split; [lia|]. split; [by apply Hshift|].
      split; [exact Hfree|]. split; [exact Hpool|]. split; [exact Hself|].
      split; [|by split]. rewrite Huuid. unfold draw. cbn [uuid_calls log_event set_uuid_calls].
      lia.
    + destruct Hr as (Hpool & Huuid & Hcase). split; [exact Hpool|].
      split; [unfold draw in Huuid; cbn [uuid_calls log_event set_uuid_calls] in Huuid; lia|].
      destruct Hcase as [(-> & Hall & Hself) | (Herr & i & Hi & Hbefore & Hfree & Hself)].
      * left. split; [done|]. split; [by apply Hshift | exact Hself].
      * right. split; [exact Herr|]. exists (Datatypes.S i).
        rewrite coming_name_draw in *. split; [lia|]. split; [by apply Hshift|].
        split; [exact Hfree | exact Hself].
Qed.

(** *** [__enter__], on every state *)

Lemma with_lock_inv {A} (body : M A) (st st' : state) (r : result A) :
  io.with_lock body st = (r, st') →
  ∃ s1, body (log_event EvAcquire st) = (r, s1) ∧ st' = log_event EvRelease s1.
Proof.
  unfold io.with_lock, bind, modify, finally. cbv beta iota.
  destruct (body _) as [[a|e] s1]; intros [= <- <-]; by exists s1.
Qed.

Lemma world_step_locked (S : list str → Prop) (st s1 : state) :
  world_step S (log_event EvAcquire st) s1 →
  world_step S st (log_event EvRelease s1).
Proof.
  intros (He & Hl & Hf). split; [exact He|]. split.
  - cbn [trace log_event] in *. rewrite lock_balance_app in *. cbn [lock_delta] in *. lia.
  - exact Hf.
Qed.

Lemma rooted_in_memfs_same (st st' : state) :
  self_path st' = self_path st → rooted_in_memfs st → rooted_in_memfs st'.
Proof. intros Heq Hr p Hp. apply Hr. by rewrite <- Heq. Qed.

(** The invariants and the frame of [__enter__] *)
Lemma enter_invariants (opts : options) (st st' : state) (r : result unit) :
  mounts_wf st →
  rooted_in_memfs st →
  __enter__ opts st = (r, st') →
  env st' = env st
  ∧ lock_balance (trace st') = lock_balance (trace st)
  ∧ (uuid_calls st ≤ uuid_calls st' ≤ uuid_calls st + 10)%nat
  ∧ (∀ q, ¬ memfs_region q → fs st' !! q = fs st !! q)
  ∧ mounts_wf st'
  ∧ rooted_in_memfs st'.
Proof.
  intros Hwf Hrooted Hrun. unfold __enter__ in Hrun.
  apply with_lock_inv in Hrun as (s1 & Hloop & ->).
  apply enter_loop_outcome in Hloop as [Hworld Hr].
  apply world_step_locked in Hworld as (He & Hl & Hf).
  destruct (Hf Hwf) as [Hwf' Hframe].
  split; [exact He|]. split; [exact Hl|].
  cbn [uuid_calls log_event] in *.
  destruct r as [[]|e].
  - destruct Hr as (i & Hi & _ & _ & _ & Hself & Huuid & _).
    split; [lia|]. split; [exact Hframe|]. split; [exact Hwf'|].
    by apply (rooted_coming_name (log_event EvAcquire st) i).
  - destruct Hr as (_ & Huuid & Hcase).
    split; [exact Huuid|]. split; [exact Hframe|]. split; [exact Hwf'|].
    destruct Hcase as [(_ & _ & Hself) | (_ & i & _ & _ & _ & [Hself | Hself])].
    + by apply (rooted_in_memfs_same st).
    + by apply (rooted_in_memfs_same st).
    + by apply (rooted_coming_name (log_event EvAcquire st) i).
Qed.

(** X2.  Whatever [__enter__] does and however it ends, the lock is
    released, at most ten UUIDs are drawn, the file system is changed
    only at [/snekbox], [/snekbox/memfs] and below, and the invariants of
    the mounts and of the instance's path are kept. *)
Theorem enter_frame (opts : options) (st st' : state) (r : result unit) :
  mounts_wf st →
  rooted_in_memfs st →
  __enter__ opts st = (r, st') →
  env st' = env st
  ∧ lock_balance (trace st') = lock_balance (trace st)
  ∧ (uuid_calls st ≤ uuid_calls st' ≤ uuid_calls st + 10)%nat
  ∧ (∀ q, ¬ memfs_region q → fs st' !! q = fs st !! q)
  ∧ mounts_wf st'
  ∧ rooted_in_memfs st'.
Proof. apply enter_invariants. Qed.

Lemma mounts_wf_nil (st : state) : mounts st = [] → mounts_wf st.
Proof. intros Hm k covered q Hin. rewrite Hm in Hin. by apply elem_of_nil in Hin. Qed.

Lemma rooted_in_memfs_None (st : state) : self_path st = None → rooted_in_memfs st.
Proof. intros Hs p Hp. congruence. Qed.

(** The states the examples start from satisfy the invariants. *)
Lemma acquired_invariants (e : environment) :
  mounts_wf (inputs.acquired e) ∧ rooted_in_memfs (inputs.acquired e).
Proof.
  unfold inputs.acquired.
  destruct (enter_invariants MemFSOptions (inputs.boot e)
              (__enter__ MemFSOptions (inputs.boot e)).2
              (__enter__ MemFSOptions (inputs.boot e)).1) as (_ & _ & _ & _ & Hwf & Hr).
  - by apply mounts_wf_nil.
  - by apply rooted_in_memfs_None.
  - apply surjective_pairing.
  - by split.
Qed.

Lemma enter_frame_witness :
  let st := inputs.boot inputs.env_ok in
  lock_balance (trace (__enter__ MemFSOptions st).2) = lock_balance (trace st)
  ∧ mounts_wf (__enter__ MemFSOptions st).2.
Proof.
  intros st.
  destruct (enter_frame MemFSOptions st (__enter__ MemFSOptions st).2
              (__enter__ MemFSOptions st).1) as (_ & Hl & _ & _ & Hwf & _).
  - apply mounts_wf_nil. reflexivity.
  - apply rooted_in_memfs_None. reflexivity.
  - apply surjective_pairing.
  - exact (conj Hl Hwf).
Defined.

Lemma coming_name_acquire (st : state) (i : nat) :
  coming_name (log_event EvAcquire st) i = coming_name st i.
Proof. reflexivity. Qed.

(** X3.  Whenever [__enter__] returns, the name is that of the first
    candidate not in the pool, it is 36 characters long and now in the
    pool, the root is a directory of mode 0o555 and [home] a directory of
    mode 0o777 inside it; [name], [home] and [__repr__] answer from the
    path. *)
Theorem enter_success (opts : options) (st st' : state) :
  __enter__ opts st = (Ok tt, st') →
  ∃ i, let name := coming_name st i in
       (i < 10)%nat
       ∧ (∀ j, (j < i)%nat → coming_name st j ∈ assigned_names st)
       ∧ (name ∉ assigned_names st)
       ∧ length name = 36%nat
       ∧ assigned_names st' = {[ name ]} ∪ assigned_names st
       ∧ uuid_calls st' = (uuid_calls st + S i)%nat
       ∧ self_path st' = Some (memfs_path name)
       ∧ memfs.name st' = (Ok (Some name), st')
       ∧ (∃ h, home st' = (Ok (Some h), st')
               ∧ pathlib.parts h = memfs_key name ++ [lit "home"]
               ∧ fs st' !! pathlib.parts h = Some (Dir o777))
       ∧ fs st' !! pathlib.parts (memfs_path name) = Some (Dir o555)
       ∧ __repr__ st' = (Ok (lit "<MemoryTempDir " ++ name ++ lit ">"), st').
Proof.
  intros Hrun. unfold __enter__ in Hrun.
  apply with_lock_inv in Hrun as (s1 & Hloop & ->).
  apply enter_loop_outcome in Hloop as [_ Hr].
  destruct Hr as (i & Hi & Hbefore & Hfree & Hpool & Hself & Huuid & Hroot & Hhome).
  exists i. cbn zeta. rewrite coming_name_acquire in *.
  setoid_rewrite coming_name_acquire in Hbefore.
  destruct (coming_name_component st i) as [Hpath Hname].
  assert (Hlen : length (coming_name st i) = 36%nat) by apply str_of_uuid_length.
  split; [exact Hi|]. split; [exact Hbefore|]. split; [exact Hfree|].
  split; [exact Hlen|]. split; [exact Hpool|]. split; [exact Huuid|].
  split; [exact Hself|].
  split; [|split; [|split]].
  - unfold memfs.name, bind, get, ret. cbn [self_path log_event]. rewrite Hself.
    cbn [fmap option_fmap option_map]. by rewrite Hname.
  - eexists. split; [|split].
    + unfold home, bind, get, ret. cbn [self_path log_event]. rewrite Hself.
      cbn [fmap option_fmap option_map]. reflexivity.
    + by rewrite Hpath.
    + rewrite Hpath. exact Hhome.
  - rewrite Hpath. exact Hroot.
  - unfold __repr__. unfold bind at 1. unfold memfs.name, bind, get, ret.
    cbn [self_path log_event]. rewrite Hself. cbn [fmap option_fmap option_map].
    rewrite Hname. destruct (coming_name st i) as [|c s]; [done|]. reflexivity.
Qed.

Lemma enter_success_witness :
  ∃ st' i, __enter__ MemFSOptions (inputs.boot inputs.env_ok) = (Ok tt, st')
           ∧ __repr__ st'
             = (Ok (lit "<MemoryTempDir " ++ coming_name (inputs.boot inputs.env_ok) i
                    ++ lit ">"), st').
Proof.
  destruct (enter_acquires MemFSOptions (inputs.boot inputs.env_ok) 0%nat 493)
    as (st' & Hrun & _).
  - lia.
  - intros i Hi. lia.
  - vm_compute. discriminate.
  - vm_compute. reflexivity.
  - left. vm_compute. reflexivity.
  - left. vm_compute. reflexivity.
  - vm_compute. reflexivity.
  - vm_compute. reflexivity.
  - destruct (enter_success MemFSOptions _ _ Hrun) as (i & _ & _ & _ & _ & _ & _ & _
                                                       & _ & _ & _ & Hrepr).
    exists st', i. split; [exact Hrun | exact Hrepr].
Defined.

(** X4.  When [__enter__] raises, the pool is as before; the error is
    the RuntimeError of the exhausted attempts exactly when all ten
    candidates are in the pool, and otherwise an error of setting up the
    first free candidate ([mkdir], [chmod] or a failed [mount]). *)
Theorem enter_failure (opts : options) (st st' : state) (e : exn) :
  __enter__ opts st = (Raise e, st') →
  assigned_names st' = assigned_names st
  ∧ (e = name_exhausted
     ∧ (∀ j, (j < 10)%nat → coming_name st j ∈ assigned_names st)
     ∧ self_path st' = self_path st
     ∨ exn_cls e ≠ RuntimeError ∧ setup_error e
       ∧ ∃ i, (i < 10)%nat
              ∧ (∀ j, (j < i)%nat → coming_name st j ∈ assigned_names st)
              ∧ (coming_name st i ∉ assigned_names st)
              ∧ (self_path st' = self_path st
                 ∨ self_path st' = Some (memfs_path (coming_name st i)))).
Proof.
  intros Hrun. unfold __enter__ in Hrun.
  apply with_lock_inv in Hrun as (s1 & Hloop & ->).
  apply enter_loop_outcome in Hloop as [_ (Hpool & _ & Hcase)].
  split; [exact Hpool|].
  destruct Hcase as [(-> & Hall & Hself) | (Herr & i & Hi & Hbefore & Hfree & Hself)].
  - left. split; [done|]. split; [exact Hall | exact Hself].
  - right. split; [|split; [exact Herr|]].
    + unfold setup_error in Herr. destruct Herr as [-> | [-> | [-> | ->]]]; done.
    + exists i. split; [exact Hi|]. split; [exact Hbefore|]. split; [exact Hfree | exact Hself].
Qed.

Lemma enter_failure_witness :
  ∃ st', __enter__ MemFSOptions inputs.crowded = (Raise name_exhausted, st')
         ∧ assigned_names st' = assigned_names inputs.crowded.
Proof.
  assert (Htaken : ∀ i, (i < 10)%nat →
            coming_name inputs.crowded i ∈ assigned_names inputs.crowded).
  { intros i Hi. do 10 (destruct i as [|i]; [vm_compute; reflexivity|]). lia. }
  pose proof (enter_all_taken MemFSOptions inputs.crowded Htaken) as Hrun.
  eexists. split; [exact Hrun|].
  exact (proj1 (enter_failure _ _ _ _ Hrun)).
Defined.

(** *** [cleanup], on every state *)

Lemma check_call_umount_raises (argv : list str) (p : pathlib.PurePath)
    (st st' : state) (e : exn) :
  io.check_call_umount argv p st = (Raise e, st') →
  st' = st ∧ e = builtin_exn CalledProcessError.
Proof. unfold io.check_call_umount. repeat case_match; by intros [= <- <-]. Qed.

Lemma unmount_tmpfs_raises (name : str) (st st' : state) (e : exn) :
  unmount_tmpfs name st = (Raise e, st') →
  st' = st ∧ e = builtin_exn CalledProcessError.
Proof.
  unfold unmount_tmpfs. unfold bind at 1. rewrite exists_eval. cbv beta iota.
  unfold bind at 1. rewrite is_dir_eval. cbv beta iota.
  destruct (_ && _); [|done]. unfold bind.
  destruct (io.check_call_umount _ _ st) as [[[]|e0] s1] eqn:Hum.
  - unfold io.rmtree_ignore_errors. by case_match.
  - intros [= <- <-]. by apply check_call_umount_raises in Hum.
Qed.

(** The four ways [cleanup] goes when the path is set *)
Lemma cleanup_cases (st st' : state) (r : result unit) (path : pathlib.PurePath) :
  self_path st = Some path →
  cleanup st = (r, st') →
  ∃ r1 s1, unmount_tmpfs (pathlib.name path) st = (r1, s1)
    ∧ ((∃ e, r1 = Raise e ∧ r = Raise e ∧ st' = s1)
       ∨ (r1 = Ok tt ∧ is_Some (fs s1 !! pathlib.parts path) ∧ r = Ok tt
          ∧ st' = set_self_path None (log_event (EvWarning (failed_to_remove path)) s1))
       ∨ (r1 = Ok tt ∧ fs s1 !! pathlib.parts path = None ∧ pathlib.name path ∈ assigned_names s1
          ∧ r = Ok tt
          ∧ st' = set_self_path None
                    (log_event EvRelease
                       (log_event (EvPoolRemove (pathlib.name path))
                          (set_assigned_names (λ s, s ∖ {[ pathlib.name path ]})
                             (log_event EvAcquire s1)))))
       ∨ (r1 = Ok tt ∧ fs s1 !! pathlib.parts path = None ∧ (pathlib.name path ∉ assigned_names s1)
          ∧ r = Raise (builtin_exn KeyError)
          ∧ st' = log_event EvRelease (log_event EvAcquire s1))).
Proof.
  intros Hpath. unfold cleanup. unfold bind at 1. unfold get at 1. cbv beta iota.
  rewrite Hpath. set (n := pathlib.name path).
  unfold bind at 1.
  destruct (unmount_tmpfs n st) as [[[]|e] s1] eqn:Hun; intros H.
  2:{ injection H as <- <-. exists (Raise e), s1. split; [done|]. left. by exists e. }
  exists (Ok tt), s1. split; [done|]. right. revert H.
  unfold bind at 1. rewrite exists_eval. cbv beta iota.
  destruct (fs s1 !! pathlib.parts path) as [nd|] eqn:Hthere.
  - rewrite bool_decide_eq_true_2 by done. cbn [negb].
    unfold bind, modify. intros [= <- <-]. left. by repeat split.
  - rewrite bool_decide_eq_false_2 by (by intros [? [=]]). cbn [negb].
    unfold bind at 1.
    destruct (io.with_lock (pool_remove n) s1) as [r2 s2] eqn:Hlock.
    apply with_lock_inv in Hlock as (s3 & Hrm & ->). revert Hrm.
    unfold pool_remove, bind, get, modify, raise. cbv beta iota.
    cbn [assigned_names log_event].
    destruct (decide (n ∈ assigned_names s1)) as [Hin|Hout]; intros [= <- <-];
      intros [= <- <-]; right; [left | right]; by repeat split.
Qed.

(** X5.  Whatever [cleanup] does and however it ends, the lock is
    released, no name enters the pool, the file system is changed only at
    [/snekbox/memfs] and below, and the invariants are kept.  When it
    returns the instance has no path, and the name left the pool exactly
    if the root is gone (a warning is logged if not); it raises only when
    [umount] fails, with nothing changed, or when the name is not in the
    pool (KeyError), and then the instance keeps its path. *)
Theorem cleanup_outcome (st st' : state) (r : result unit) :
  mounts_wf st →
  rooted_in_memfs st →
  cleanup st = (r, st') →
  env st' = env st
  ∧ uuid_calls st' = uuid_calls st
  ∧ lock_balance (trace st') = lock_balance (trace st)
  ∧ (∀ q, ¬ memfs_region q → fs st' !! q = fs st !! q)
  ∧ mounts_wf st'
  ∧ rooted_in_memfs st'
  ∧ match r with
    | Ok _ =>
        self_path st' = None
        ∧ ∀ path, self_path st = Some path →
            fs st' !! pathlib.parts path = None
            ∧ pathlib.name path ∈ assigned_names st
            ∧ assigned_names st' = assigned_names st ∖ {[ pathlib.name path ]}
            ∨ is_Some (fs st' !! pathlib.parts path)
              ∧ assigned_names st' = assigned_names st
              ∧ last (trace st') = Some (EvWarning (failed_to_remove path))
    | Raise e =>
        self_path st' = self_path st
        ∧ assigned_names st' = assigned_names st
        ∧ ∃ path, self_path st = Some path
                  ∧ (e = builtin_exn CalledProcessError ∧ st' = st
                     ∨ e = builtin_exn KeyError
                       ∧ (pathlib.name path ∉ assigned_names st)
                       ∧ fs st' !! pathlib.parts path = None)
    end.
Proof.
  intros Hwf Hrooted Hrun.
  destruct (self_path st) as [path|] eqn:Hpath.
  2:{ rewrite (cleanup_released st Hpath) in Hrun. injection Hrun as <- <-.
      do 4 (split; [done|]). split; [exact Hwf|]. split; [exact Hrooted|].
      split; [exact Hpath|]. intros path Hp. congruence. }
  destruct (Hrooted path Hpath) as (Hmp & Hparts & Hroot).
  assert (Hmk : memfs_path (pathlib.name path)
                = pathlib.mk_path [pathlib.sep] (memfs_key (pathlib.name path))).
  { rewrite Hmp. destruct path as [rt K]. cbn [pathlib.root pathlib.parts] in *.
    subst rt. f_equal. exact Hparts. }
  destruct (cleanup_cases st st' r path Hpath Hrun) as (r1 & s1 & Hun & Hcases).
  pose proof (quiet_unmount_tmpfs _ Hmk _ _ _ Hun) as (He & Hu & Hp & Hs & Hl & Hf).
  destruct (Hf Hwf) as [Hwf1 Hframe].
  destruct Hcases as [(e & -> & -> & ->)
                     | [(-> & Hthere & -> & ->)
                       | [(-> & Hgone & Hin & -> & ->) | (-> & Hgone & Hout & -> & ->)]]].
  - apply unmount_tmpfs_raises in Hun as [-> ->].
    do 4 (split; [done|]). split; [exact Hwf|]. split; [exact Hrooted|].
    split; [done|]. split; [done|]. exists path. split; [done|]. by left.
  - split; [exact He|]. split; [exact Hu|].
    split; [cbn [trace set_self_path log_event]; rewrite lock_balance_app;
            cbn [lock_delta]; lia|].
    split; [exact Hframe|]. split; [exact Hwf1|].
    split; [by apply rooted_in_memfs_None|]. split; [done|].
    intros path' Hp'. injection Hp' as <-. right.
    split; [exact Hthere|]. split; [exact Hp|].
    cbn [trace set_self_path log_event]. by rewrite last_snoc.
  - split; [exact He|]. split; [exact Hu|].
    split; [cbn [trace set_self_path log_event set_assigned_names];
            rewrite !lock_balance_app; cbn [lock_delta]; lia|].
    split; [exact Hframe|]. split; [exact Hwf1|].
    split; [by apply rooted_in_memfs_None|]. split; [done|].
    intros path' Hp'. injection Hp' as <-. left.
    split; [exact Hgone|]. rewrite <- Hp. split; [exact Hin | done].
  - split; [exact He|]. split; [exact Hu|].
    split; [cbn [trace log_event]; rewrite !lock_balance_app; cbn [lock_delta]; lia|].
    split; [exact Hframe|]. split; [exact Hwf1|].
    split; [by apply (rooted_in_memfs_same st)|].
    split; [cbn [self_path log_event]; by rewrite Hs|].
    split; [exact Hp|]. exists path. split; [done|]. right.
    split; [done|]. rewrite <- Hp. by split.
Qed.

Lemma cleanup_outcome_witness :
  let st := inputs.acquired inputs.env_ok in
  lock_balance (trace (cleanup st).2) = lock_balance (trace st)
  ∧ mounts_wf (cleanup st).2.
Proof.
  intros st.
  destruct (cleanup_outcome st (cleanup st).2 (cleanup st).1) as (_ & _ & Hl & _ & Hwf & _).
  - apply acquired_invariants.
  - apply acquired_invariants.
  - apply surjective_pairing.
  - exact (conj Hl Hwf).
Defined.

(** *** [mount_tmpfs] and [unmount_tmpfs] at their edges *)

Lemma mount_tmpfs_present (opts : options) (name : str) (st : state) (nd : node) :
  fs st !! pathlib.parts (memfs_path name) = Some nd →
  mount_tmpfs opts name st
  = (match nd with
     | Dir _ => Ok (memfs_path name)
     | _ => Raise (builtin_exn FileExistsError)
     end, st).
Proof.
  intros Hnd. unfold mount_tmpfs. unfold bind at 1. rewrite exists_eval. cbv beta iota.
  unfold bind at 1. rewrite is_dir_eval. cbv beta iota. rewrite Hnd.
  rewrite bool_decide_eq_true_2 by done.
  destruct nd as [m|m d|m]; cbn [negb orb]; [reflexivity| |].
  all: unfold bind at 1; unfold bind at 1;
    destruct (length (pathlib.parts (memfs_path name))); cbn [io.mkdir_parents];
    unfold io.os_mkdir; rewrite Hnd; cbn [exn_cls builtin_exn];
    rewrite decide_False by done; cbn [negb]; rewrite is_dir_eval, Hnd; reflexivity.
Qed.

(** X6.  [mount_tmpfs] mounts only where nothing is: on a directory
    that exists it returns the path and does nothing (no [mount] is run),
    and on a file or other node it raises FileExistsError, the state
    unchanged. *)
Theorem mount_tmpfs_existing (opts : options) (name : str) (st : state) (nd : node) :
  fs st !! pathlib.parts (memfs_path name) = Some nd →
  mount_tmpfs opts name st
  = (match nd with
     | Dir _ => Ok (memfs_path name)
     | _ => Raise (builtin_exn FileExistsError)
     end, st).
Proof. apply mount_tmpfs_present. Qed.

Lemma mount_tmpfs_existing_witness :
  mount_tmpfs MemFSOptions (lit "00000000-0000-4000-8000-000000000000")
    (inputs.acquired inputs.env_ok)
  = (Ok inputs.root_dir, inputs.acquired inputs.env_ok).
Proof.
  apply (mount_tmpfs_existing MemFSOptions (lit "00000000-0000-4000-8000-000000000000")
           (inputs.acquired inputs.env_ok) (Dir o555)).
  vm_compute. reflexivity.
Defined.

(** X7.  When the [mount] command fails, [mount_tmpfs] raises
    CalledProcessError and leaves the directory it made behind, mode
    0o777 and not mounted; a second call then finds the directory and
    returns its path without mounting. *)
Theorem mount_tmpfs_failed_mount (opts : options) (name : str) (st : state) (m0 : N) :
  (∀ s, name ≠ pathlib.sep :: s) →
  pathlib.components name = [name] →
  fs st !! [[pathlib.sep]] = Some (Dir m0) →
  dir_or_absent st [[pathlib.sep]; lit "snekbox"] →
  dir_or_absent st [[pathlib.sep]; lit "snekbox"; lit "memfs"] →
  fs st !! memfs_key name = None →
  mount_succeeds (env st) (memfs_key name) = false →
  ∃ st', mount_tmpfs opts name st = (Raise (builtin_exn CalledProcessError), st')
         ∧ fs st' !! memfs_key name = Some (Dir o777)
         ∧ same_but_fs st st'
         ∧ mount_tmpfs opts name st' = (Ok (memfs_path name), st').
Proof.
  intros Hrel Hcomp Hroot Hsnekbox Hmemfs Hfresh Hmount.
  destruct (mkdir_parents_memfs name st m0 Hroot Hsnekbox Hmemfs Hfresh)
    as (st1 & Hmk & Hdir & Henv & Hmounts & Huuid & Hpool & Hself & Htrace).
  pose proof (memfs_path_component name Hrel Hcomp) as Hpath.
  set (tmp := pathlib.mk_path [pathlib.sep] (memfs_key name)) in *.
  set (st2 := set_fs (<[ memfs_key name := Dir o777 ]>) st1).
  assert (Hrun : mount_tmpfs opts name st = (Raise (builtin_exn CalledProcessError), st2)).
  { unfold mount_tmpfs. rewrite Hpath. unfold bind at 1. rewrite exists_eval. cbv beta iota.
    unfold bind at 1. rewrite is_dir_eval. cbv beta iota.
    change (pathlib.parts tmp) with (memfs_key name). rewrite Hfresh.
    rewrite bool_decide_eq_false_2 by (by intros [? [=]]). cbn [negb orb].
    unfold bind at 1. unfold bind at 1. change (length (memfs_key name)) with 4%nat.
    rewrite Hmk. cbv beta iota.
    unfold bind at 1. rewrite (chmod_ok tmp _ _ st1 Hdir). cbv beta iota.
    change (pathlib.parts tmp) with (memfs_key name). cbn [io.with_mode]. fold st2.
    unfold bind at 1. unfold io.check_call_mount.
    change (pathlib.parts tmp) with (memfs_key name).
    unfold st2 at 1 2. cbn [fs set_fs env]. rewrite lookup_insert_eq, Henv, Hmount.
    reflexivity. }
  exists st2. split; [exact Hrun|].
  assert (Hthere : fs st2 !! memfs_key name = Some (Dir o777)).
  { unfold st2. cbn [fs set_fs]. apply lookup_insert_eq. }
  split; [exact Hthere|]. split.
  { unfold st2. by repeat split. }
  apply (mount_tmpfs_present opts name st2 (Dir o777)). rewrite Hpath. exact Hthere.
Qed.

Lemma mount_tmpfs_failed_mount_witness :
  let st := inputs.boot
              (mk_env 18 N.of_nat (λ _, false) (λ _, true) (λ _, true)) in
  ∃ st', mount_tmpfs MemFSOptions (lit "a") st
         = (Raise (builtin_exn CalledProcessError), st')
         ∧ mount_tmpfs MemFSOptions (lit "a") st' = (Ok (memfs_path (lit "a")), st').
Proof.
  intros st.
  destruct (mount_tmpfs_failed_mount MemFSOptions (lit "a") st 493)
    as (st' & H1 & _ & _ & H2).
  - intros s. vm_compute. discriminate.
  - vm_compute. reflexivity.
  - vm_compute. reflexivity.
  - left. vm_compute. reflexivity.
  - left. vm_compute. reflexivity.
  - vm_compute. reflexivity.
  - reflexivity.
  - exists st'. exact (conj H1 H2).
Defined.

(** X8.  [unmount_tmpfs] of a path that is not a mount point: nothing
    happens when the path is no directory (absent, or a file), and
    CalledProcessError is raised, nothing removed, when it is a
    directory, since [umount] fails before [rmtree] is reached. *)
Theorem unmount_tmpfs_not_mounted (name : str) (st : state) :
  io.pop_mount (pathlib.parts (memfs_path name)) (mounts st) = None →
  unmount_tmpfs name st
  = (match fs st !! pathlib.parts (memfs_path name) with
     | Some (Dir _) => Raise (builtin_exn CalledProcessError)
     | _ => Ok tt
     end, st).
Proof.
  intros Hpop. unfold unmount_tmpfs. unfold bind at 1. rewrite exists_eval. cbv beta iota.
  unfold bind at 1. rewrite is_dir_eval. cbv beta iota.
  destruct (fs st !! pathlib.parts (memfs_path name)) as [[m|m d|m]|] eqn:Hnd;
    rewrite ?andb_false_r; try reflexivity.
  rewrite bool_decide_eq_true_2 by done. cbn [andb].
  unfold bind, io.check_call_umount. by rewrite Hpop.
Qed.

Lemma unmount_tmpfs_not_mounted_witness :
  unmount_tmpfs (lit "a") (inputs.boot inputs.env_ok)
  = (Ok tt, inputs.boot inputs.env_ok).
Proof.
  apply (unmount_tmpfs_not_mounted (lit "a") (inputs.boot inputs.env_ok)).
  reflexivity.
Defined.

(** *** The first free candidate *)

(** The branch of the loop at a free name whose directory is already
    there: [mount_tmpfs] returns at once and nothing is mounted. *)
Lemma enter_loop_reuse (opts : options) (n : nat) (st : state) (m : N) :
  let name := coming_name st 0 in
  name ∉ assigned_names st →
  fs st !! memfs_key name = Some (Dir m) →
  fs st !! (memfs_key name ++ [lit "home"]) = None →
  ∃ st', enter_loop opts (S n) st = (Ok tt, st')
         ∧ self_path st' = Some (memfs_path name)
         ∧ fs st' !! memfs_key name = Some (Dir o555)
         ∧ fs st' !! (memfs_key name ++ [lit "home"]) = Some (Dir o777)
         ∧ assigned_names st' = {[ name ]} ∪ assigned_names st
         ∧ uuid_calls st' = S (uuid_calls st)
         ∧ mounts st' = mounts st
         ∧ trace st' = trace st ++ [EvUuid name; EvPoolAdd name].
Proof.
  intros name Hfree Hdir Hnohome.
  destruct (str_of_uuid_component (io.uuid4_int (urandom (env st) (uuid_calls st))))
    as [Hrel Hcomp].
  change (io.str_of_uuid _) with name in Hrel, Hcomp.
  pose proof (memfs_path_component name Hrel Hcomp) as Hpath.
  assert (Hmt : mount_tmpfs opts name (draw st) = (Ok (memfs_path name), draw st)).
  { apply (mount_tmpfs_present opts name (draw st) (Dir m)). rewrite Hpath. exact Hdir. }
  cbn [enter_loop]. unfold bind at 1. unfold io.uuid4_str. cbv beta iota zeta.
  change (io.str_of_uuid (io.uuid4_int (urandom (env st) (uuid_calls st)))) with name.
  change (log_event (EvUuid name) _) with (draw st).
  unfold bind at 1. unfold get. cbv beta iota.
  rewrite decide_True by done.
  unfold bind at 1. rewrite Hmt. cbv beta iota.
  rewrite Hpath.
  set (tmp := pathlib.mk_path [pathlib.sep] (memfs_key name)) in *.
  unfold bind at 1. unfold modify at 1. cbv beta iota.
  unfold bind at 1. erewrite chmod_ok by exact Hdir.
  cbv beta iota.
  change (pathlib.joinpath tmp (lit "home"))
    with (pathlib.mk_path [pathlib.sep] (memfs_key name ++ [lit "home"])).
  assert (Hne : memfs_key name ++ [lit "home"] ≠ memfs_key name).
  { intros H. apply (f_equal length) in H. rewrite length_app in H. cbn in H. lia. }
  unfold bind at 1. erewrite mkdir_ok; cycle 1.
  { cbn [fs set_fs set_self_path pathlib.parts]. rewrite lookup_insert_ne by done.
    exact Hnohome. }
  { cbn [fs set_fs set_self_path pathlib.parts].
    change (io.parent _) with tmp. apply lookup_insert_eq. }
  cbv beta iota.
  unfold bind at 1. erewrite chmod_ok by (cbn [fs set_fs pathlib.parts]; apply lookup_insert_eq).
  cbv beta iota. unfold modify.
  eexists. split; [reflexivity|].
  cbn [fs set_fs log_event set_mounts set_self_path set_assigned_names mounts trace env
       uuid_calls assigned_names self_path pathlib.parts tmp io.with_mode draw
       set_uuid_calls].
  split; [done|]. split.
  { rewrite lookup_insert_ne by done. rewrite lookup_insert_ne by done.
    apply lookup_insert_eq. }
  split; [apply lookup_insert_eq|].
  split; [done|]. split; [done|]. split; [done|]. by rewrite <- app_assoc.
Qed.

Lemma enter_reuses (opts : options) (st : state) :
  ∀ (k : nat) (m : N),
    let name := coming_name st k in
    (k < 10)%nat →
    (∀ i, (i < k)%nat → coming_name st i ∈ assigned_names st) →
    name ∉ assigned_names st →
    fs st !! memfs_key name = Some (Dir m) →
    fs st !! (memfs_key name ++ [lit "home"]) = None →
    ∃ st', __enter__ opts st = (Ok tt, st')
           ∧ self_path st' = Some (memfs_path name)
           ∧ fs st' !! memfs_key name = Some (Dir o555)
           ∧ fs st' !! (memfs_key name ++ [lit "home"]) = Some (Dir o777)
           ∧ assigned_names st' = {[ name ]} ∪ assigned_names st
           ∧ uuid_calls st' = (uuid_calls st + S k)%nat
           ∧ mounts st' = mounts st
           ∧ trace st' = trace st ++ [EvAcquire]
                         ++ (EvUuid <$> (coming_name st <$> seq 0 (S k)))
                         ++ [EvPoolAdd name; EvRelease].
Proof.
  intros k m name Hk Htaken Hfree Hdir Hnohome.
  destruct (draws_fields k (log_event EvAcquire st))
    as (Henv & Hfs & Hmounts & Hpool & Hself & Huuid & Htrace & Hname).
  assert (Hname0 : coming_name (draws k (log_event EvAcquire st)) 0 = name).
  { rewrite Hname, Nat.add_0_r. reflexivity. }
  destruct (enter_loop_reuse opts (9 - k) (draws k (log_event EvAcquire st)) m)
    as (st' & Hrun & H).
  { by rewrite Hname0, Hpool. }
  { by rewrite Hname0, Hfs. }
  { by rewrite Hname0, Hfs. }
  assert (Hloop : enter_loop opts 10 (log_event EvAcquire st) = (Ok tt, st')).
  { replace 10%nat with (k + S (9 - k))%nat by lia.
    rewrite enter_loop_collisions by exact Htaken. exact Hrun. }
  apply with_lock_eval in Hloop.
  destruct H as (Hp & Hroot' & Hhome & Hpool' & Huuid' & Hmounts' & Htrace').
  rewrite Hname0 in *.
  eexists. split; [exact Hloop|].
  rewrite fs_log_event, mounts_log_event, assigned_names_log_event, self_path_log_event,
    uuid_calls_log_event, trace_log_event.
  rewrite Hp, Hroot', Hhome, Hpool', Hpool, Huuid', Huuid, Hmounts', Hmounts, Htrace', Htrace.
  rewrite assigned_names_log_event, uuid_calls_log_event, mounts_log_event, trace_log_event.
  do 4 (split; [done|]). split; [lia|]. split; [done|].
  rewrite seq_S, !fmap_app. cbn [fmap list_fmap Nat.add]. rewrite <- !app_assoc.
  reflexivity.
Qed.

(** C7.  [__enter__] draws at most ten names while it holds the lock and
    takes the first that is not in the pool (the [k]-th, [k < 10]).  It
    hands that name to [mount_tmpfs], which creates and mounts the
    directory only where none is.  If the directory does not exist yet,
    [/] is a directory, [/snekbox] and [/snekbox/memfs] are directories
    or absent, and the mount command succeeds, [__enter__] returns with
    the root mounted.  If the directory is there already and holds no
    [home], [__enter__] returns as well, but nothing is mounted: the
    mounts are as before and no command is run.  Both times the instance
    is on [/snekbox/memfs/name], the root has mode 0o555, [home] is a
    directory of mode 0o777, the name is added to the pool, and the
    events between acquiring and releasing the lock are the [k + 1] draws,
    the mount if there is one, and the insertion.  If the ten names are
    all in the pool it raises the [RuntimeError] of the source; the file
    system, the mounts, the pool and the instance are as before, and the
    events are the ten draws between acquiring and releasing the lock. *)
Theorem enter_first_free_or_exhausts (opts : options) (st : state) :
  (∀ (k : nat) (m0 : N),
     let name := coming_name st k in
     (k < 10)%nat →
     (∀ i, (i < k)%nat → coming_name st i ∈ assigned_names st) →
     name ∉ assigned_names st →
     fs st !! [[pathlib.sep]] = Some (Dir m0) →
     dir_or_absent st [[pathlib.sep]; lit "snekbox"] →
     dir_or_absent st [[pathlib.sep]; lit "snekbox"; lit "memfs"] →
     fs st !! memfs_key name = None →
     mount_succeeds (env st) (memfs_key name) = true →
     ∃ st', __enter__ opts st = (Ok tt, st')
            ∧ self_path st' = Some (memfs_path name)
            ∧ pathlib.parts (memfs_path name) = memfs_key name
            ∧ fs st' !! memfs_key name = Some (Dir o555)
            ∧ fs st' !! (memfs_key name ++ [lit "home"]) = Some (Dir o777)
            ∧ assigned_names st' = {[ name ]} ∪ assigned_names st
            ∧ uuid_calls st' = (uuid_calls st + S k)%nat
            ∧ (∃ covered, mounts st' = (memfs_key name, covered) :: mounts st)
            ∧ trace st' = trace st ++ [EvAcquire]
                          ++ (EvUuid <$> (coming_name st <$> seq 0 (S k)))
                          ++ [EvCall (mount_argv opts (memfs_path name));
                              EvPoolAdd name; EvRelease])
  ∧ (∀ (k : nat) (m : N),
       let name := coming_name st k in
       (k < 10)%nat →
       (∀ i, (i < k)%nat → coming_name st i ∈ assigned_names st) →
       name ∉ assigned_names st →
       fs st !! memfs_key name = Some (Dir m) →
       fs st !! (memfs_key name ++ [lit "home"]) = None →
       ∃ st', __enter__ opts st = (Ok tt, st')
              ∧ self_path st' = Some (memfs_path name)
              ∧ fs st' !! memfs_key name = Some (Dir o555)
              ∧ fs st' !! (memfs_key name ++ [lit "home"]) = Some (Dir o777)
              ∧ assigned_names st' = {[ name ]} ∪ assigned_names st
              ∧ uuid_calls st' = (uuid_calls st + S k)%nat
              ∧ mounts st' = mounts st
              ∧ trace st' = trace st ++ [EvAcquire]
                            ++ (EvUuid <$> (coming_name st <$> seq 0 (S k)))
                            ++ [EvPoolAdd name; EvRelease])
  ∧ ((∀ i, (i < 10)%nat → coming_name st i ∈ assigned_names st) →
     ∃ st', __enter__ opts st = (Raise name_exhausted, st')
            ∧ fs st' = fs st ∧ mounts st' = mounts st
            ∧ assigned_names st' = assigned_names st
            ∧ self_path st' = self_path st
            ∧ uuid_calls st' = (uuid_calls st + 10)%nat
            ∧ trace st' = trace st ++ [EvAcquire]
                          ++ (EvUuid <$> (coming_name st <$> seq 0 10)) ++ [EvRelease]).
Proof. split; [apply enter_acquires | split; [apply enter_reuses | apply enter_exhausts]]. Qed.

Lemma enter_first_free_or_exhausts_witness :
  (∃ st', __enter__ MemFSOptions (inputs.boot inputs.env_ok) = (Ok tt, st')
          ∧ (∃ covered, mounts st'
                        = (memfs_key (coming_name (inputs.boot inputs.env_ok) 0), covered)
                          :: mounts (inputs.boot inputs.env_ok)))
  ∧ (∃ st', __enter__ MemFSOptions inputs.leftover = (Ok tt, st')
            ∧ mounts st' = mounts inputs.leftover)
  ∧ (∃ st', __enter__ MemFSOptions inputs.crowded = (Raise name_exhausted, st')
            ∧ fs st' = fs inputs.crowded).
Proof.
  split; [|split].
  - destruct (proj1 (enter_first_free_or_exhausts MemFSOptions (inputs.boot inputs.env_ok))
                0%nat 493) as (st' & Hrun & _ & _ & _ & _ & _ & _ & Hmounts & _).
    + lia.
    + intros i Hi. lia.
    + vm_compute. discriminate.
    + vm_compute. reflexivity.
    + left. vm_compute. reflexivity.
    + left. vm_compute. reflexivity.
    + vm_compute. reflexivity.
    + vm_compute. reflexivity.
    + exists st'. exact (conj Hrun Hmounts).
  - destruct (proj1 (proj2 (enter_first_free_or_exhausts MemFSOptions inputs.leftover))
                0%nat 511) as (st' & Hrun & _ & _ & _ & _ & _ & Hmounts & _).
    + lia.
    + intros i Hi. lia.
    + vm_compute. discriminate.
    + vm_compute. reflexivity.
    + vm_compute. reflexivity.
    + exists st'. exact (conj Hrun Hmounts).
  - destruct (proj2 (proj2 (enter_first_free_or_exhausts MemFSOptions inputs.crowded)))
      as (st' & Hrun & Hfs & _).
    + intros i Hi.
      do 10 (destruct i as [|i]; [vm_compute; reflexivity|]). lia.
    + exists st'. exact (conj Hrun Hfs).
Defined.

(** The first free candidate is not always mounted: its directory is
    left from before, [__enter__] returns with the name in the pool, and
    no [mount] was run. *)
Example enter_leftover_directory_not_mounted :
  let name := lit "00000000-0000-4000-8000-000000000000" in
  fs inputs.leftover !! memfs_key name = Some (Dir o777)
  ∧ (__enter__ MemFSOptions inputs.leftover).1 = Ok tt
  ∧ mounts (__enter__ MemFSOptions inputs.leftover).2 = []
  ∧ trace (__enter__ MemFSOptions inputs.leftover).2
    = [EvAcquire; EvUuid name; EvPoolAdd name; EvRelease]
  ∧ elements (assigned_names (__enter__ MemFSOptions inputs.leftover).2) = [name]
  ∧ self_path (__enter__ MemFSOptions inputs.leftover).2 = Some inputs.root_dir.
Proof. repeat split; vm_compute; reflexivity. Qed.

(** *** Acquire, then release *)

Lemma unmount_tmpfs_mounted (name : str) (st : state) (m : N)
    (covered : gmap (list str) node) (ms : list (list str * gmap (list str) node)) :
  memfs_path name = pathlib.mk_path [pathlib.sep] (memfs_key name) →
  fs st !! memfs_key name = Some (Dir m) →
  mounts st = (memfs_key name, covered) :: ms →
  umount_succeeds (env st) (memfs_key name) = true →
  rmtree_succeeds (env st) (memfs_key name) = true →
  ∃ st', unmount_tmpfs name st = (Ok tt, st')
         ∧ (∀ q, io.under (memfs_key name) q → fs st' !! q = None)
         ∧ mounts st' = ms.
Proof.
  intros Hpath Hdir Hmounts Hum Hrm.
  unfold unmount_tmpfs. rewrite Hpath.
  set (tmp := pathlib.mk_path [pathlib.sep] (memfs_key name)).
  unfold bind at 1. rewrite exists_eval. cbv beta iota.
  unfold bind at 1. rewrite is_dir_eval. cbv beta iota.
  change (pathlib.parts tmp) with (memfs_key name). rewrite Hdir.
  rewrite bool_decide_eq_true_2 by done. cbn [andb].
  unfold bind, io.check_call_umount, io.rmtree_ignore_errors.
  change (pathlib.parts tmp) with (memfs_key name).
  rewrite Hmounts. cbn [io.pop_mount]. rewrite decide_True by done. rewrite Hum.
  cbn [env log_event set_mounts set_fs]. rewrite Hrm.
  eexists. split; [reflexivity|]. cbn [fs mounts set_fs log_event set_mounts]. split; [|done].
  intros q Hq. apply map_lookup_filter_None. right. intros nd _. cbn. by intros H.
Qed.

Lemma cleanup_invariants (st st' : state) (r : result unit) :
  mounts_wf st →
  rooted_in_memfs st →
  cleanup st = (r, st') →
  env st' = env st
  ∧ lock_balance (trace st') = lock_balance (trace st)
  ∧ (∀ q, ¬ memfs_region q → fs st' !! q = fs st !! q)
  ∧ mounts_wf st'.
Proof.
  intros Hwf Hrooted Hrun.
  destruct (self_path st) as [path|] eqn:Hpath.
  2:{ rewrite (cleanup_released st Hpath) in Hrun. by injection Hrun as <- <-. }
  destruct (Hrooted path Hpath) as (Hmp & Hparts & Hroot).
  assert (Hmk : memfs_path (pathlib.name path)
                = pathlib.mk_path [pathlib.sep] (memfs_key (pathlib.name path))).
  { rewrite Hmp. destruct path as [rt K]. cbn [pathlib.root pathlib.parts] in *.
    subst rt. f_equal. exact Hparts. }
  destruct (cleanup_cases st st' r path Hpath Hrun) as (r1 & s1 & Hun & Hcases).
  pose proof (quiet_unmount_tmpfs _ Hmk _ _ _ Hun) as (He & Hu & Hp & Hs & Hl & Hf).
  destruct (Hf Hwf) as [Hwf1 Hframe].
  destruct Hcases as [(e & -> & -> & ->)
                     | [(-> & Hthere & -> & ->)
                       | [(-> & Hgone & Hin & -> & ->) | (-> & Hgone & Hout & -> & ->)]]];
    (split; [exact He|]);
    (split; [cbn [trace set_self_path log_event set_assigned_names];
             rewrite ?lock_balance_app; cbn [lock_delta]; lia|]);
    by split.
Qed.

(** X9.  Acquire, then release: when the set-up succeeds as in
    [__enter__] and [umount] and [rmtree] do their work, [__exit__]
    returns, the pool and the mounts are as before the acquisition, the
    instance has no path, nothing is left at or below the root of the
    directory, the lock is free again, and outside [/snekbox] the file
    system is as it was. *)
Theorem enter_then_exit (opts : options) (st : state) (k : nat) (m0 : N) :
  let name := coming_name st k in
  mounts_wf st →
  rooted_in_memfs st →
  (k < 10)%nat →
  (∀ i, (i < k)%nat → coming_name st i ∈ assigned_names st) →
  name ∉ assigned_names st →
  fs st !! [[pathlib.sep]] = Some (Dir m0) →
  dir_or_absent st [[pathlib.sep]; lit "snekbox"] →
  dir_or_absent st [[pathlib.sep]; lit "snekbox"; lit "memfs"] →
  fs st !! memfs_key name = None →
  mount_succeeds (env st) (memfs_key name) = true →
  umount_succeeds (env st) (memfs_key name) = true →
  rmtree_succeeds (env st) (memfs_key name) = true →
  ∃ st1 st2,
    __enter__ opts st = (Ok tt, st1)
    ∧ __exit__ st1 = (Ok tt, st2)
    ∧ assigned_names st2 = assigned_names st
    ∧ self_path st2 = None
    ∧ mounts st2 = mounts st
    ∧ (∀ q, io.under (memfs_key name) q → fs st2 !! q = None)
    ∧ (∀ q, ¬ memfs_region q → fs st2 !! q = fs st !! q)
    ∧ lock_balance (trace st2) = lock_balance (trace st).
Proof.
  intros name Hwf Hrooted Hk Hbefore Hfree Hroot Hsnekbox Hmemfs Hfresh Hmount Hum Hrm.
  destruct (enter_acquires opts st k m0 Hk Hbefore Hfree Hroot Hsnekbox Hmemfs Hfresh Hmount)
    as (st1 & Hrun1 & Hself & Hparts & Hdir & _ & Hpool & _ & [covered Hmounts] & _).
  fold name in Hself, Hparts, Hdir, Hpool, Hmounts.
  destruct (enter_invariants opts st st1 (Ok tt) Hwf Hrooted Hrun1)
    as (He1 & Hl1 & _ & Hframe1 & Hwf1 & Hrooted1).
  destruct (coming_name_component st k) as [Hpath Hname]. fold name in Hpath, Hname.
  clearbody name.
  rewrite <- He1 in Hum, Hrm.
  destruct (unmount_tmpfs_mounted name st1 o555 covered (mounts st) Hpath Hdir Hmounts Hum Hrm)
    as (su & Hun & Hgone & Hmu).
  assert (Hin : pathlib.name (memfs_path name) ∈ assigned_names st1).
  { rewrite Hname, Hpool. apply elem_of_union_l. by apply elem_of_singleton. }
  rewrite <- Hname in Hun.
  pose proof (cleanup_eval st1 su (memfs_path name) Hself Hin Hun) as Hrun2.
  rewrite Hparts in Hrun2. rewrite decide_True in Hrun2 by (apply Hgone, under_refl).
  destruct (keeps_pool_unmount_tmpfs _ _ _ _ Hun) as [Hpu _].
  destruct (cleanup_invariants st1 _ _ Hwf1 Hrooted1 Hrun2) as (_ & Hl2 & Hframe2 & _).
  eexists st1, _. split; [exact Hrun1|]. split; [exact Hrun2|].
  split; [|split; [done|split; [exact Hmu|split; [|split]]]].
  - cbn [assigned_names set_self_path log_event set_assigned_names].
    rewrite Hpu, Hpool, Hname. apply set_eq. intros x.
    rewrite elem_of_difference, elem_of_union, elem_of_singleton. split.
    + by intros [[-> | Hx] Hne].
    + intros Hx. split; [by right|]. by intros ->.
  - intros q Hq. cbn [fs set_self_path log_event set_assigned_names]. by apply Hgone.
  - intros q Hq. rewrite Hframe2 by done. by apply Hframe1.
  - by rewrite Hl2.
Qed.

Lemma enter_then_exit_witness :
  ∃ st1 st2,
    __enter__ MemFSOptions (inputs.boot inputs.env_ok) = (Ok tt, st1)
    ∧ __exit__ st1 = (Ok tt, st2)
    ∧ assigned_names st2 = assigned_names (inputs.boot inputs.env_ok)
    ∧ self_path st2 = None.
Proof.
  destruct (enter_then_exit MemFSOptions (inputs.boot inputs.env_ok) 0 493)
    as (st1 & st2 & H1 & H2 & H3 & H4 & _).
  - by apply mounts_wf_nil.
  - by apply rooted_in_memfs_None.
  - lia.
  - intros i Hi. lia.
  - vm_compute. discriminate.
  - vm_compute. reflexivity.
  - left. vm_compute. reflexivity.
  - left. vm_compute. reflexivity.
  - vm_compute. reflexivity.
  - reflexivity.
  - reflexivity.
  - reflexivity.
  - exists st1, st2. exact (conj H1 (conj H2 (conj H3 H4))).
Defined.

(** *** An instance without a directory *)

(** X10.  While the instance has no path (as [__init__] leaves it, and
    [cleanup] after it returned): [name] and [home] are [None],
    [__repr__] says so, [cleanup] does nothing, and [allow_write] and
    [attachments] raise AttributeError; the body under [allow_write] is
    not run. *)
Theorem unacquired_instance (opts : options) (st : state) (body : M unit) :
  self_path st = None →
  memfs.name st = (Ok None, st)
  ∧ home st = (Ok None, st)
  ∧ __repr__ st = (Ok (lit "<MemoryTempDir (Uninitialized)>"), st)
  ∧ cleanup st = (Ok tt, st)
  ∧ io.with_ allow_write body st = (Raise (builtin_exn AttributeError), st)
  ∧ attachments opts st = ([], Raise (builtin_exn AttributeError))
  ∧ self_path (__init__ st).2 = None.
Proof.
  intros Hnone.
  assert (Hname : memfs.name st = (Ok None, st)).
  { unfold memfs.name, bind, get, ret. by rewrite Hnone. }
  assert (Hhome : home st = (Ok None, st)).
  { unfold home, bind, get, ret. by rewrite Hnone. }
  split; [exact Hname|]. split; [exact Hhome|]. split; [|split; [|split; [|split]]].
  - unfold __repr__. unfold bind at 1. by rewrite Hname.
  - by apply cleanup_released.
  - unfold io.with_, allow_write. cbn [io.before_yield]. unfold bind at 1.
    unfold chmod_root, bind, get, raise. by rewrite Hnone.
  - unfold attachments. by rewrite Hhome.
  - reflexivity.
Qed.

Lemma unacquired_instance_witness :
  cleanup (inputs.boot inputs.env_ok) = (Ok tt, inputs.boot inputs.env_ok)
  ∧ attachments MemFSOptions (inputs.boot inputs.env_ok)
    = ([], Raise (builtin_exn AttributeError)).
Proof.
  destruct (unacquired_instance MemFSOptions (inputs.boot inputs.env_ok) (ret tt))
    as (_ & _ & _ & H1 & _ & H2 & _).
  - reflexivity.
  - exact (conj H1 H2).
Defined.

End memfs_more.

(** ** snekio: what is accepted, what is written *)

Module snekio_more.
Import snekio snekio_facts notions.

(** What a successful [from_dict] tells about its input *)
Lemma from_dict_Ok_inv (data : gmap str pyval) (a : FileAttachment) :
  from_dict data = Ok a →
  data !! lit "name" = Some (VStr (path a))
  ∧ path_checks_pass (path a) = true
  ∧ ∃ b, content a = Binary b
         ∧ b64decode (default (VStr (lit "")) (data !! lit "content")) = Ok b.
Proof.
  unfold from_dict, path_checks_pass.
  destruct (data !! lit "name") as [[name|z]|]; [|done|done].
  destruct (pathlib.is_absolute (pathlib.Path [name])) eqn:Habs; [done|].
  cbn [rbind negb andb].
  destruct (pathlib.parts (pathlib.Path [name]) !! 0%nat) as [part0|] eqn:H0; [|done].
  cbn [rbind].
  destruct (has_separator part0) eqn:Hsep; [done|].
  destruct (existsb only_dots (pathlib.parts (pathlib.Path [name]))) eqn:Hdots; [done|].
  destruct (b64decode _) as [b|e] eqn:Hdec; [|done]. cbn [rbind].
  intros [= <-]. cbn [path content]. rewrite Habs, H0, Hsep, Hdots.
  split; [done|]. split; [done|]. by exists b.
Qed.

(** X11.  [from_dict] returns an attachment exactly when the dictionary
    has a string under ["name"] that passes the path checks and the
    value under ["content"] (the empty string when the key is missing)
    decodes as base64; the attachment then has that name as its path and
    the decoded bytes as its content, never text. *)
Theorem from_dict_succeeds_iff (data : gmap str pyval) (a : FileAttachment) :
  from_dict data = Ok a
  ↔ data !! lit "name" = Some (VStr (path a))
    ∧ path_checks_pass (path a) = true
    ∧ ∃ b, content a = Binary b
           ∧ b64decode (default (VStr (lit "")) (data !! lit "content")) = Ok b.
Proof.
  split; [apply from_dict_Ok_inv|].
  intros (Hname & Hpass & b & Hb & Hdec).
  rewrite (from_dict_checked data (path a) Hname Hpass), Hdec. cbn [rbind].
  destruct a as [p c]. cbn [path content] in *. by subst.
Qed.

Lemma from_dict_succeeds_iff_witness :
  from_dict (inputs.named_with "out/result.txt" "aGVsbG8=")
  = Ok (mk_attachment (lit "out/result.txt") (Binary (blit "hello"))).
Proof.
  apply from_dict_succeeds_iff. split; [|split].
  - vm_compute. reflexivity.
  - vm_compute. reflexivity.
  - exists (blit "hello"). split; vm_compute; reflexivity.
Defined.

(** X12.  The errors of [from_dict]: an IllegalPathError (with one of
    its two messages) exactly for a string name that fails the path
    checks, and otherwise an error that is no AttachmentError: KeyError
    for a missing name, IndexError for a name without parts, TypeError,
    ValueError or binascii.Error from the name or the content. *)
Theorem from_dict_errors (data : gmap str pyval) (e : exn) :
  from_dict data = Raise e →
  (exn_cls e = IllegalPathError
   ∧ ∃ name, data !! lit "name" = Some (VStr name)
             ∧ path_checks_pass name = false
             ∧ (e = must_be_relative name ∨ e = may_not_use_traversal name))
  ∨ (isinstance e AttachmentError = false
     ∧ (exn_cls e = KeyError ∧ data !! lit "name" = None
        ∨ exn_cls e = IndexError
          ∧ (∃ name, data !! lit "name" = Some (VStr name)
                     ∧ pathlib.parts (pathlib.Path [name]) = [])
        ∨ exn_cls e = TypeError
        ∨ exn_cls e = ValueError
        ∨ exn_cls e = binascii_Error)).
Proof.
  unfold from_dict.
  destruct (data !! lit "name") as [[name|z]|] eqn:Hname.
  - assert (Hleft : ∀ e', path_checks_pass name = false →
              e' = must_be_relative name ∨ e' = may_not_use_traversal name →
              exn_cls e' = IllegalPathError
              ∧ ∃ name0, Some (VStr name) = Some (VStr name0)
                         ∧ path_checks_pass name0 = false
                         ∧ (e' = must_be_relative name0 ∨ e' = may_not_use_traversal name0)).
    { intros e' Hfail He'. split; [by destruct He' as [-> | ->]|]. by exists name. }
    unfold path_checks_pass in Hleft.
    destruct (pathlib.is_absolute (pathlib.Path [name])); cbn [rbind negb andb] in *.
    { intros [= <-]. left. apply Hleft; auto. }
    destruct (pathlib.parts (pathlib.Path [name])) as [|part0 parts] eqn:Hparts;
      cbn [lookup list_lookup rbind] in *.
    { intros [= <-]. right. split; [done|]. right. left. split; [done|]. by exists name. }
    destruct (has_separator part0); cbn [negb andb] in *.
    { intros [= <-]. left. apply Hleft; auto. }
    destruct (existsb only_dots (part0 :: parts)); cbn [negb andb] in *.
    { intros [= <-]. left. apply Hleft; auto. }
    destruct (b64decode _) eqn:Hdec; cbn [rbind]; [done|].
    intros [= <-]. right. apply b64decode_error in Hdec.
    unfold isinstance. destruct Hdec as [H | [H | H]]; rewrite H; auto 10.
  - intros [= <-]. right. auto 10.
  - intros [= <-]. right. auto 10.
Qed.

Lemma from_dict_errors_witness :
  exn_cls (may_not_use_traversal (lit "../x")) = IllegalPathError
  ∨ isinstance (may_not_use_traversal (lit "../x")) AttachmentError = false.
Proof.
  destruct (from_dict_errors (inputs.named "../x") (may_not_use_traversal (lit "../x")))
    as [[H _] | [H _]].
  - vm_compute. reflexivity.
  - by left.
  - by right.
Defined.


Lemma split_segments_plain (s : str) : Forall (λ seg, pathlib.sep ∉ seg) (pathlib.split s).
Proof.
  induction s as [|c s IH]; cbn [pathlib.split].
  - apply Forall_cons. split; [apply not_elem_of_nil | apply Forall_nil_2].
  - case_decide as Hc.
    + apply Forall_cons. split; [apply not_elem_of_nil | exact IH].
    + destruct (pathlib.split s) as [|x xs].
      * apply Forall_cons. split; [|apply Forall_nil_2].
        intros [Heq|H]%elem_of_cons; [by apply Hc | by apply elem_of_nil in H].
      * apply Forall_cons in IH as [Hx Hxs]. apply Forall_cons. split; [|exact Hxs].
        intros [Heq|H]%elem_of_cons; [by apply Hc | by apply Hx].
Qed.

Lemma parse_parts_relative (name : str) :
  (∀ s, name ≠ pathlib.sep :: s) →
  pathlib.parse_parts [name] = ([], pathlib.components name).
Proof.
  intros Hrel. cbn [pathlib.parse_parts]. rewrite decide_True by done.
  unfold pathlib.splitroot. destruct name as [|c s].
  - by rewrite app_nil_r.
  - rewrite decide_False by (intros ->; by eapply Hrel). by rewrite app_nil_r.
Qed.

Lemma checked_name_relative (name : str) :
  path_checks_pass name = true →
  (∀ s, name ≠ pathlib.sep :: s)
  ∧ pathlib.parts (pathlib.Path [name]) = pathlib.components name
  ∧ pathlib.components name ≠ []
  ∧ existsb only_dots (pathlib.components name) = false.
Proof.
  unfold path_checks_pass. intros Hpass.
  destruct (pathlib.is_absolute (pathlib.Path [name])) eqn:Habs; [done|].
  assert (Hrel : ∀ s, name ≠ pathlib.sep :: s).
  { intros s ->. by rewrite pathlib_facts.Path_absolute in Habs. }
  rewrite (pathlib_facts.Path_relative name Hrel) in Hpass. cbn [pathlib.parts] in Hpass.
  split; [done|]. split; [by rewrite pathlib_facts.Path_relative|].
  destruct (pathlib.components name) as [|part0 parts]; [done|].
  cbn [lookup list_lookup negb andb] in Hpass.
  apply andb_true_iff in Hpass as [_ Hdots]. split; [done|].
  by apply negb_true_iff.
Qed.

Lemma checked_name_joinpath (name : str) (directory : pathlib.PurePath) :
  path_checks_pass name = true →
  pathlib.parts (pathlib.joinpath directory name)
  = pathlib.parts directory ++ pathlib.components name
  ∧ pathlib.components name ≠ [].
Proof.
  intros Hpass. destruct (checked_name_relative name Hpass) as (Hrel & _ & Hne & _).
  split; [|exact Hne].
  unfold pathlib.joinpath. rewrite (parse_parts_relative name Hrel). by rewrite decide_True.
Qed.

(** X13.  A name that passes the path checks of [from_dict] stays inside
    any directory it is joined to: the parts of [directory / name] are
    those of the directory followed by the components of the name, of
    which there is at least one, each non-empty, without a slash and not
    made of dots only. *)
Theorem accepted_name_stays_inside (name : str) (directory : pathlib.PurePath) :
  path_checks_pass name = true →
  let file := pathlib.joinpath directory name in
  pathlib.parts file = pathlib.parts directory ++ pathlib.components name
  ∧ pathlib.components name ≠ []
  ∧ Forall (λ part, part ≠ [] ∧ (pathlib.sep ∉ part)
                    ∧ ¬ Forall (λ c, c = pathlib.dot) part)
           (pathlib.components name)
  ∧ io.under (pathlib.parts directory) (pathlib.parts file)
  ∧ pathlib.parts file ≠ pathlib.parts directory.
Proof.
  intros Hpass file.
  destruct (checked_name_relative name Hpass) as (Hrel & _ & Hne & Hdots).
  assert (Hfile : pathlib.parts file = pathlib.parts directory ++ pathlib.components name).
  { unfold file, pathlib.joinpath. rewrite (parse_parts_relative name Hrel).
    by rewrite decide_True. }
  split; [exact Hfile|]. split; [exact Hne|]. split; [|split].
  - apply Forall_forall. intros part Hin.
    pose proof Hin as Hin'. apply pathlib_facts.elem_of_components in Hin' as (Hsplit & Hn & _).
    split; [exact Hn|]. split.
    + pose proof (split_segments_plain name) as Hplain.
      rewrite Forall_forall in Hplain. by apply Hplain.
    + intros Hall.
      assert (only_dots part = true) as Hd by (by apply only_dots_spec).
      assert (existsb only_dots (pathlib.components name) = true) as Hex.
      { apply existsb_exists. exists part. split; [by apply list_elem_of_In | done]. }
      congruence.
  - rewrite Hfile. apply memfs_facts.under_app.
  - rewrite Hfile. intros Heq. apply (f_equal length) in Heq.
    rewrite length_app in Heq. destruct (pathlib.components name); [done|]. cbn in Heq. lia.
Qed.

Lemma accepted_name_stays_inside_witness :
  pathlib.parts (pathlib.joinpath inputs.root_dir (lit "out/./result.txt"))
  = pathlib.parts inputs.root_dir ++ [lit "out"; lit "result.txt"].
Proof.
  refine (proj1 (accepted_name_stays_inside (lit "out/./result.txt") inputs.root_dir _)).
  vm_compute. reflexivity.
Defined.

(** X14.  [to_dict] of an attachment whose content encodes to the bytes
    [b] has exactly the keys ["path"], ["size"] and ["content"]: the
    path, the size and a base64 string that decodes to [b] again. *)
Theorem to_dict_fields (a : FileAttachment) (b : bytes) :
  as_bytes a = Ok b →
  ∃ d c, to_dict a = Ok d
         ∧ d !! lit "path" = Some (VStr (path a))
         ∧ d !! lit "size" = Some (VInt (size a))
         ∧ d !! lit "content" = Some (VStr c)
         ∧ dom d = {[ lit "path"; lit "size"; lit "content" ]}
         ∧ b64decode (VStr c) = Ok b.
Proof.
  intros Hb. unfold to_dict. rewrite Hb. cbn [rbind].
  pose proof (b64decode_b64encode b) as Hdec.
  destruct (decode_ascii (base64.b64encode b)) as [c|e]; [|done]. cbn [rbind] in *.
  eexists _, c. split; [reflexivity|].
  split; [apply lookup_insert_eq|].
  split; [rewrite lookup_insert_ne by lit_ne; apply lookup_insert_eq|].
  split; [rewrite !lookup_insert_ne by lit_ne; apply lookup_insert_eq|].
  split; [|exact Hdec].
  rewrite !dom_insert_L, dom_empty_L. set_solver.
Qed.

Lemma to_dict_fields_witness :
  ∃ d c, to_dict inputs.e_acute = Ok d
         ∧ d !! lit "content" = Some (VStr c)
         ∧ b64decode (VStr c) = Ok [xc3; xa9].
Proof.
  destruct (to_dict_fields inputs.e_acute [xc3; xa9]) as (d & c & H1 & _ & _ & H2 & _ & H3).
  - vm_compute. reflexivity.
  - exists d, c. exact (conj H1 (conj H2 H3)).
Defined.

Lemma utf8_char_cases (c : codepoint) :
  (surrogate c ∧ utf8_char c = Raise (builtin_exn UnicodeEncodeError))
  ∨ (¬ surrogate c ∧ ∃ b, utf8_char c = Ok b ∧ (1 ≤ length b)%nat
                          ∧ (length b = 1%nat ↔ c < 128)).
Proof.
  unfold utf8_char, surrogate.
  destruct (N.ltb_spec c 0x80).
  { right. split; [lia|]. eexists. split; [reflexivity|]. cbn. split; [lia|]. split; [lia|done]. }
  destruct (N.ltb_spec c 0x800).
  { right. split; [lia|]. eexists. split; [reflexivity|]. cbn. split; [lia|]. split; lia. }
  destruct (N.leb_spec 0xD800 c); destruct (N.leb_spec c 0xDFFF); cbn [andb].
  { left. split; [lia | done]. }
  all: right; split; [lia|];
    destruct (N.ltb_spec c 0x10000); eexists; (split; [reflexivity|]); cbn;
    (split; [lia|]); split; lia.
Qed.

Lemma encode_utf8_cases (s : str) :
  (Exists surrogate s ∧ encode_utf8 s = Raise (builtin_exn UnicodeEncodeError))
  ∨ (¬ Exists surrogate s
     ∧ ∃ b, encode_utf8 s = Ok b ∧ (length s ≤ length b)%nat
            ∧ (length s = length b ↔ Forall (λ c, c < 128) s)).
Proof.
  induction s as [|c s IH].
  - right. split; [by intros H%Exists_nil|]. exists []. split; [done|]. split; [done|].
    split; [intros _; apply Forall_nil_2 | done].
  - cbn [encode_utf8].
    destruct (utf8_char_cases c) as [[Hsur ->] | (Hnot & bc & -> & Hlen & Hone)]; cbn [rbind].
    { left. split; [by apply Exists_cons_hd | done]. }
    destruct IH as [[Hex ->] | (Hnex & b & -> & Hle & Heq)]; cbn [rbind].
    { left. split; [by apply Exists_cons_tl | done]. }
    right. split.
    { intros [H|H]%Exists_cons; auto. }
    eexists. split; [reflexivity|]. rewrite length_app. cbn [length]. split; [lia|].
    rewrite Forall_cons. split.
    + intros Hl. assert (length bc = 1%nat) by lia. assert (length s = length b) by lia.
      split; [by apply Hone | by apply Heq].
    + intros [Hc Hs]. apply Hone in Hc. apply Heq in Hs. lia.
Qed.

(** X15.  For text content [size] never exceeds the number of bytes of
    [as_bytes], and equals it exactly when all characters are ASCII. *)
Theorem size_of_text_bound (name s : str) (b : bytes) :
  as_bytes (mk_attachment name (Text s)) = Ok b →
  (size (mk_attachment name (Text s)) ≤ Z.of_nat (length b))%Z
  ∧ (size (mk_attachment name (Text s)) = Z.of_nat (length b)
     ↔ Forall (λ c, c < 128) s).
Proof.
  cbn [as_bytes content size]. intros Hb.
  destruct (encode_utf8_cases s) as [[_ H] | (_ & b' & H & Hle & Heq)]; [congruence|].
  rewrite H in Hb. injection Hb as ->. split; [lia|].
  rewrite <- Heq. lia.
Qed.

Lemma size_of_text_bound_witness :
  (size inputs.e_acute ≤ 2)%Z.
Proof.
  refine (proj1 (size_of_text_bound (lit "x") [233] [xc3; xa9] _)).
  vm_compute. reflexivity.
Defined.

(** X16.  [to_dict] raises exactly for text content that holds a
    surrogate code point, and then UnicodeEncodeError; for bytes and all
    other text it returns. *)
Theorem to_dict_raises_iff (a : FileAttachment) (e : exn) :
  to_dict a = Raise e
  ↔ e = builtin_exn UnicodeEncodeError
    ∧ ∃ s, content a = Text s ∧ Exists surrogate s.
Proof.
  unfold to_dict, as_bytes. destruct a as [p [s|b]]; cbn [content].
  - destruct (encode_utf8_cases s) as [[Hex ->] | (Hnex & b & -> & _)]; cbn [rbind].
    + split; [intros [= <-]; split; [done | by exists s] | by intros [-> _]].
    + unfold decode_ascii. rewrite b64encode_ascii. cbn [rbind].
      split; [done|]. intros [_ (s' & [= <-] & Hex)]. done.
  - cbn [rbind]. unfold decode_ascii. rewrite b64encode_ascii. cbn [rbind].
    split; [done|]. by intros [_ (s' & [=] & _)].
Qed.

Lemma to_dict_raises_iff_witness :
  to_dict (mk_attachment (lit "x") (Text [0xD800])) = Raise (builtin_exn UnicodeEncodeError).
Proof.
  apply to_dict_raises_iff. split; [reflexivity|].
  exists [0xD800]. split; [reflexivity|]. apply Exists_cons_hd. unfold surrogate. lia.
Defined.

(** *** What [save_to] touches *)

Lemma only_touches_bind (S : list str → Prop) {A B} (m : os.M A) (k : A → os.M B) :
  only_touches S m → (∀ a, only_touches S (k a)) → only_touches S (os.bind m k).
Proof.
  intros Hm Hk st r st'. unfold os.bind.
  destruct (m st) as [[a|e] st1] eqn:Hrun.
  - intros Hrun2. destruct (Hm _ _ _ Hrun) as [Hs1 Hf1].
    destruct (Hk a _ _ _ Hrun2) as [Hs2 Hf2]. split.
    + destruct Hs1 as (? & ? & ? & ? & ? & ?). destruct Hs2 as (? & ? & ? & ? & ? & ?).
      repeat split; congruence.
    + intros q Hq. rewrite Hf2, Hf1; done.
  - intros [= <- <-]. by eapply Hm.
Qed.

Lemma only_touches_same (S : list str → Prop) {A} (m : os.M A) :
  (∀ st, (m st).2 = st) → only_touches S m.
Proof.
  intros Hm st r st' Hrun. specialize (Hm st). rewrite Hrun in Hm. cbn in Hm. subst st'.
  split; [by repeat split | done].
Qed.

Lemma only_touches_insert (S : list str → Prop) (st : os.state) (k : list str)
    (nd : os.node) :
  S k →
  memfs.same_but_fs st (os.set_fs (<[ k := nd ]>) st)
  ∧ ∀ q, ¬ S q → os.fs (os.set_fs (<[ k := nd ]>) st) !! q = os.fs st !! q.
Proof.
  intros Hk. split; [by repeat split|]. intros q Hq. cbn [os.fs os.set_fs].
  apply lookup_insert_ne. by intros ->.
Qed.

Lemma only_touches_os_mkdir (S : list str → Prop) (p : pathlib.PurePath) (mode : N) :
  S (pathlib.parts p) → only_touches S (io.os_mkdir p mode).
Proof.
  intros HS st r st'. unfold io.os_mkdir.
  repeat case_match; intros [= <- <-];
    first [by apply only_touches_insert | split; [by repeat split | done]].
Qed.

Lemma only_touches_mkdir (S : list str → Prop) (p : pathlib.PurePath) (mode : N)
    (exist_ok : bool) :
  S (pathlib.parts p) → only_touches S (io.mkdir p mode exist_ok).
Proof.
  intros HS st r st'. unfold io.mkdir.
  destruct (io.os_mkdir p mode st) as [[[]|e] st1] eqn:Hmk;
    apply (only_touches_os_mkdir S p mode HS) in Hmk.
  - by intros [= <- <-].
  - rewrite memfs_more.is_dir_eval. repeat case_match; by intros [= <- <-].
Qed.

Lemma parent_prefix (p : pathlib.PurePath) :
  ∃ i, pathlib.parts (io.parent p) = take i (pathlib.parts p).
Proof.
  unfold io.parent. case_decide.
  - exists (length (pathlib.parts p)). by rewrite firstn_all.
  - exists (length (pathlib.parts p) - 1)%nat. cbn [pathlib.parts].
    apply memfs_more.removelast_take.
Qed.

Lemma only_touches_mkdir_parents (S : list str → Prop) (fuel : nat) (p : pathlib.PurePath)
    (mode : N) (exist_ok : bool) :
  (∀ i, S (take i (pathlib.parts p))) →
  only_touches S (io.mkdir_parents fuel p mode exist_ok).
Proof.
  revert p mode exist_ok. induction fuel as [|fuel IH]; intros p mode exist_ok HS.
  all: assert (Hp : S (pathlib.parts p))
    by (rewrite <- (firstn_all (pathlib.parts p)); apply HS).
  all: intros st r st'; cbn [io.mkdir_parents];
    destruct (io.os_mkdir p mode st) as [[[]|e] st1] eqn:Hmk;
    apply (only_touches_os_mkdir S p mode Hp) in Hmk; [by intros [= <- <-]|].
  - rewrite memfs_more.is_dir_eval. repeat case_match; by intros [= <- <-].
  - destruct (decide (exn_cls e = FileNotFoundError)) as [Hcls|Hcls].
    + destruct (decide (io.parent p = p)) as [Heq|Hne]; [by intros [= <- <-]|].
      intros Hrun.
      assert (Hrest : only_touches S
                (io.mkdir_parents fuel (io.parent p) os.o777 true ;;;
                 io.mkdir p mode exist_ok)).
      { apply only_touches_bind; [|intros _; by apply only_touches_mkdir].
        apply IH. intros i. destruct (parent_prefix p) as [j ->].
        rewrite take_take. apply HS. }
      destruct Hmk as [Hs1 Hf1]. destruct (Hrest _ _ _ Hrun) as [Hs2 Hf2]. split.
      * destruct Hs1 as (? & ? & ? & ? & ? & ?). destruct Hs2 as (? & ? & ? & ? & ? & ?).
        repeat split; congruence.
      * intros q Hq. rewrite Hf2, Hf1; done.
    + rewrite memfs_more.is_dir_eval. repeat case_match; by intros [= <- <-].
Qed.

Lemma only_touches_open_w (S : list str → Prop) (p : pathlib.PurePath) :
  S (pathlib.parts p) → only_touches S (io.open_w p).
Proof.
  intros HS st r st'. unfold io.open_w.
  repeat case_match; intros [= <- <-];
    first [by apply only_touches_insert | split; [by repeat split | done]].
Qed.

Lemma only_touches_write_data (S : list str → Prop) (p : pathlib.PurePath) (data : bytes) :
  S (pathlib.parts p) → only_touches S (io.write_data p data).
Proof.
  intros HS st r st'. unfold io.write_data.
  repeat case_match; intros [= <- <-];
    first [by apply only_touches_insert | split; [by repeat split | done]].
Qed.

(** [save_to] sets entries on the way from the root to the file only. *)
Lemma only_touches_save_to (a : FileAttachment) (directory : pathlib.PurePath) :
  only_touches (λ q, ∃ i, q = take i (pathlib.parts (pathlib.joinpath directory (path a))))
               (save_to a directory).
Proof.
  unfold save_to. set (file := pathlib.joinpath directory (path a)).
  assert (Hfile : ∃ i, pathlib.parts file = take i (pathlib.parts file)).
  { exists (length (pathlib.parts file)). by rewrite firstn_all. }
  apply only_touches_bind.
  - apply only_touches_mkdir_parents. intros i. destruct (parent_prefix file) as [j ->].
    rewrite take_take. by eexists.
  - intros _. destruct (content a) as [s|b].
    + unfold io.write_text. apply only_touches_bind; [by apply only_touches_open_w|].
      intros _. apply only_touches_bind; [by apply only_touches_same|].
      intros data. by apply only_touches_write_data.
    + unfold io.write_bytes. apply only_touches_bind; [by apply only_touches_open_w|].
      intros _. by apply only_touches_write_data.
Qed.

Lemma prefix_or_not (K q : list str) :
  (∃ i, q = take i K) ∨ ¬ (∃ i, q = take i K).
Proof.
  destruct (decide (q = take (length q) K)) as [Heq|Hne]; [left; by eexists|].
  right. intros [i ->]. apply Hne. rewrite length_take.
  destruct (decide (i ≤ length K)%nat) as [Hi|Hi].
  - by rewrite Nat.min_l.
  - rewrite Nat.min_r by lia. by rewrite firstn_all, take_ge by lia.
Qed.

(** X17.  An attachment that [from_dict] accepted is saved inside the
    directory it is saved to, when the directory is a canonical path
    (absolute, without [..], every component a name the file system takes
    as written) in a file system without symbolic links: whatever the
    state and however [save_to] ends, the only entries of the file system
    that change are the directory and its ancestors (created when
    missing) and entries below the directory; nothing else of the state
    changes. *)
Theorem decoded_attachment_saved_inside (data : gmap str pyval) (a : FileAttachment)
    (directory : pathlib.PurePath) (st st' : os.state) (r : result unit) :
  canonical directory = true →
  from_dict data = Ok a →
  save_to a directory st = (r, st') →
  memfs.same_but_fs st st'
  ∧ ∀ q, os.fs st' !! q ≠ os.fs st !! q →
         (∃ i, q = take i (pathlib.parts directory))
         ∨ (io.under (pathlib.parts directory) q ∧ q ≠ pathlib.parts directory).
Proof.
  intros Hcanonical Hdec Hsave.
  apply from_dict_Ok_inv in Hdec as (_ & Hpass & _).
  destruct (checked_name_joinpath (path a) directory Hpass) as [Hparts Hne].
  destruct (only_touches_save_to a directory _ _ _ Hsave) as [Hsame Hframe].
  split; [exact Hsame|]. intros q Hq.
  destruct (prefix_or_not (pathlib.parts (pathlib.joinpath directory (path a))) q)
    as [[i ->] | Hnot]; [|by apply Hframe in Hnot].
  rewrite Hparts. destruct (decide (i ≤ length (pathlib.parts directory))%nat) as [Hi|Hi].
  - left. exists i. by rewrite take_app_le.
  - right. rewrite take_app_ge by lia. split; [apply memfs_facts.under_app|].
    intros Heq. apply (f_equal length) in Heq. rewrite length_app, length_take in Heq.
    destruct (pathlib.components (path a)); [done|]. cbn [length] in Heq. lia.
Qed.

Lemma decoded_attachment_saved_inside_witness :
  let st := inputs.acquired inputs.env_ok in
  let a := mk_attachment (lit "out/result.txt") (Binary (blit "hello")) in
  os.assigned_names (save_to a inputs.home_dir st).2 = os.assigned_names st.
Proof.
  intros st a.
  destruct (decoded_attachment_saved_inside
              (inputs.named_with "out/result.txt" "aGVsbG8=") a inputs.home_dir st
              (save_to a inputs.home_dir st).2 (save_to a inputs.home_dir st).1)
    as [(_ & _ & _ & Hpool & _) _].
  - vm_compute. reflexivity.
  - vm_compute. reflexivity.
  - apply surjective_pairing.
  - exact Hpool.
Defined.

(** X18.  [save_to] does not write all or nothing: on a canonical path
    (absolute, every component a name the file system takes as written,
    no symbolic links), text that UTF-8 cannot encode (a surrogate code
    point) makes it raise UnicodeEncodeError after the parent directories
    were made and the file was created or truncated, so an empty file is
    left behind. *)
Theorem save_to_unencodable_text (name s : str) (directory : pathlib.PurePath)
    (st : os.state) (j : nat) :
  let a := mk_attachment name (Text s) in
  let K := pathlib.parts (pathlib.joinpath directory name) in
  canonical (pathlib.joinpath directory name) = true →
  Exists surrogate s →
  missing_below st (removelast K) j →
  (os.fs st !! K = None ∨ ∃ m d, os.fs st !! K = Some (os.File m d)) →
  ∃ st', save_to a directory st = (Raise (builtin_exn UnicodeEncodeError), st')
         ∧ ∃ m, os.fs st' !! K = Some (os.File m []).
Proof.
  intros a K Hcanonical Hsur Hmissing Hfile.
  set (file := pathlib.joinpath directory name) in *.
  pose proof Hmissing as (Hj & _ & _). rewrite memfs_more.length_removelast in Hj.
  destruct (memfs_more.parent_parts file) as [Hparent _]; [fold K; lia|]. fold K in Hparent.
  assert (HKp : pathlib.parts (io.parent file) = removelast K) by (by rewrite Hparent).
  destruct (memfs_more.mkdir_parents_creates (length K) (io.parent file) os.o777 st j)
    as (st1 & Hmk & Hmid & Hlast & Hframe & Hsame).
  { by rewrite HKp. }
  { rewrite HKp, memfs_more.length_removelast. lia. }
  rewrite HKp in *. rewrite memfs_more.length_removelast in *.
  destruct (memfs_more.missing_below_parent_dir st st1 (removelast K) j Hmissing)
    as [mp Hpdir].
  { rewrite memfs_more.length_removelast. intros H. eexists. by apply Hlast. }
  { rewrite memfs_more.length_removelast. exact Hframe. }
  assert (HK1 : os.fs st1 !! K = os.fs st !! K).
  { apply Hframe. intros i Hi Heq. apply (f_equal length) in Heq.
    rewrite length_take, memfs_more.length_removelast in Heq. lia. }
  destruct (encode_utf8_cases s) as [[_ Henc] | [Hnot _]]; [|done].
  assert (Hopen : ∃ m, io.open_w file st1 = (Ok tt, os.set_fs (<[ K := os.File m [] ]>) st1)).
  { unfold io.open_w. fold K. rewrite HK1.
    destruct Hfile as [Hnone | (m & d & Hsome)].
    - rewrite Hnone, HKp, Hpdir. by eexists.
    - rewrite Hsome. by eexists. }
  destruct Hopen as [m Hopen].
  exists (os.set_fs (<[ K := os.File m [] ]>) st1). split.
  - unfold save_to. cbn [path content a]. fold file. fold K. unfold os.bind at 1.
    rewrite Hmk. unfold io.write_text. unfold os.bind at 1. rewrite Hopen.
    unfold os.bind, os.lift. by rewrite Henc.
  - exists m. cbn [os.fs os.set_fs]. apply lookup_insert_eq.
Qed.

Lemma save_to_unencodable_text_witness :
  ∃ st', save_to (mk_attachment (lit "out.txt") (Text [0xD800])) inputs.home_dir
           (inputs.acquired inputs.env_ok)
         = (Raise (builtin_exn UnicodeEncodeError), st')
         ∧ ∃ m, os.fs st' !! pathlib.parts (pathlib.joinpath inputs.home_dir (lit "out.txt"))
                = Some (os.File m []).
Proof.
  destruct (save_to_unencodable_text (lit "out.txt") [0xD800] inputs.home_dir
              (inputs.acquired inputs.env_ok) 5) as (st' & H1 & H2).
  - vm_compute. reflexivity.
  - apply Exists_cons_hd. unfold surrogate. lia.
  - split; [vm_compute; lia|]. split.
    + eexists. vm_compute. reflexivity.
    + intros i Hi. vm_compute in Hi. lia.
  - left. vm_compute. reflexivity.
  - exists st'. exact (conj H1 H2).
Defined.

End snekio_more.
